(** * Checkpointed batch embedding of CodeSearchNet: model and properties

    Shallow embedding of
    - [scripts/re_embed_codesearchnet_robust.py]: [CheckpointManager],
      [adaptive_truncation], [embed_batch_with_retry], [embed_dataset_robust]
      and the loops of [main];
    - [scripts/re_embed_codesearchnet_parallel.py]: [rate_limited_sleep],
      [embed_dataset], [process_language] and the summary of [main];
    - [scripts/re_embed_codesearchnet_full.py]: [embed_dataset], with its
      inlined truncation, and the loops of [main].

    Conventions.  Python [int] is [Z]; Python [str] is [string] (the texts
    are taken to be ASCII, one [ascii] per character); the seconds
    of the clock and of a [time.sleep] are rationals [Q]; a Python [float]
    that the code computes with is the rational it holds, and every
    operation on floats rounds as IEEE 754 binary64 does ([Float64]); the SQLite
    table [batches] is a finite map from the primary key [batch_id] to its
    row; the [.npy] file is [option (list Vec)] ([None]: no file), and
    where a script handles several files the directory is a finite map
    from the file name to the array. *)

From Stdlib Require Import ZArith QArith Qround Lqa Lia Ascii String.
From Stdlib Require Import DecimalString DecimalN.
From stdpp Require Import gmap strings list fin_maps.

Close Scope Q_scope.
Local Open Scope Z_scope.

(* ===================================================================== *)
(** * Part I: definitions *)
(* ===================================================================== *)

(** ** Python built-ins used by the scripts *)

Module Py.

(** [len(s)] for a string. *)
Definition len (s : string) : Z := Z.of_nat (String.length s).

(** [s[:k]] for [0 <= k]. *)
Fixpoint take_str (n : nat) (s : string) : string :=
  match n, s with
  | S n', String c s' => String c (take_str n' s')
  | _, _ => EmptyString
  end.

Fixpoint drop_str (n : nat) (s : string) : string :=
  match n, s with
  | S n', String _ s' => drop_str n' s'
  | _, _ => s
  end.

(** Normalisation of a slice bound against a length: a negative bound
    counts from the end, and the result is clamped to [0 .. n]. *)
Definition clamp (n i : Z) : Z :=
  if i <? 0 then Z.max (i + n) 0 else Z.min i n.

(** [s[:k]] for any integer [k]. *)
Definition str_upto (k : Z) (s : string) : string :=
  take_str (Z.to_nat (clamp (len s) k)) s.

(** [l[a:b]] on lists. *)
Definition slice {A} (a b : Z) (l : list A) : list A :=
  let n := Z.of_nat (length l) in
  let a' := clamp n a in
  let b' := clamp n b in
  take (Z.to_nat (b' - a')) (drop (Z.to_nat a') l).

(** [str(n)] and [f"{n}"] for an integer. *)
Definition str_of_Z (z : Z) : string :=
  if z <? 0
  then String "-"%char (NilZero.string_of_uint (N.to_uint (Z.to_N (- z))))
  else NilZero.string_of_uint (N.to_uint (Z.to_N z)).

Fixpoint zeros (n : nat) : string :=
  match n with
  | O => EmptyString
  | S n' => String "0"%char (zeros n')
  end.

(** [f"{n:06d}"]: sign-aware zero padding to width 6. *)
Definition format_06d (z : Z) : string :=
  if z <? 0
  then
    let d := NilZero.string_of_uint (N.to_uint (Z.to_N (- z))) in
    String "-"%char (zeros (5 - String.length d) +:+ d)
  else
    let d := NilZero.string_of_uint (N.to_uint (Z.to_N z)) in
    zeros (6 - String.length d) +:+ d.

(** [needle in hay]. *)
Fixpoint contains (needle hay : string) : bool :=
  if String.prefix needle hay then true
  else match hay with
       | EmptyString => false
       | String _ hay' => contains needle hay'
       end.

Definition lower_ascii (c : ascii) : ascii :=
  let n := nat_of_ascii c in
  if (65 <=? n)%nat && (n <=? 90)%nat then ascii_of_nat (n + 32) else c.

(** [s.lower()] on ASCII text. *)
Fixpoint lower (s : string) : string :=
  match s with
  | EmptyString => EmptyString
  | String c s' => String (lower_ascii c) (lower s')
  end.

(** [x or ''] for a value that is absent, [None] or a string. *)
Definition or_empty (o : option string) : string :=
  match o with
  | Some s => s
  | None => EmptyString
  end.

(** A string of [n] copies of one character (test data). *)
Fixpoint repeat_char (c : ascii) (n : nat) : string :=
  match n with
  | O => EmptyString
  | S n' => String c (repeat_char c n')
  end.

End Py.

(** ** TextPreparer: [adaptive_truncation] (robust.py, lines 144-166) *)

Definition adaptive_truncation (text : string) : string * Z :=
  let length := Py.len text in
  if length >? 50000 then (Py.str_upto 15000 text, 4000)
  else if length >? 30000 then (Py.str_upto 20000 text, 5000)
  else (Py.str_upto 30000 text, 8000).

(** The same policy as inlined in [embed_dataset] of full.py, lines 75-81. *)
Definition full_truncation (combined : string) : string :=
  if Py.len combined >? 50000 then Py.str_upto 15000 combined
  else if Py.len combined >? 30000 then Py.str_upto 20000 combined
  else Py.str_upto 30000 combined.

(** A dataset record: both fields may be missing or [None]. *)
Record Item := {
  func_documentation_string : option string;
  func_code_string : option string
}.

(** [f"{docstring}\n\n{code}"]. *)
Definition combine_item (item : Item) : string :=
  Py.or_empty (func_documentation_string item)
  +:+ String (ascii_of_nat 10) (String (ascii_of_nat 10) EmptyString)
  +:+ Py.or_empty (func_code_string item).

(** The text-preparation loop of [embed_dataset_robust], lines 294-304. *)
Definition prepare_texts (dataset : list Item) : list string * list Z :=
  (map (fun item => fst (adaptive_truncation (combine_item item))) dataset,
   map (fun item => snd (adaptive_truncation (combine_item item))) dataset).

(** ** CheckpointStore: [CheckpointManager] (robust.py, lines 53-141) *)

Module CheckpointManager.

(** The values of column [status] named by the class docstring. *)
Inductive Status := pending | in_progress | completed | failed.

#[global] Instance Status_eq_dec : EqDecision Status.
Proof. solve_decision. Defined.

(** One row of table [batches]; the key [batch_id] is the map key.
    Nullable columns are options; [retry_count] is [INTEGER DEFAULT 0]. *)
Record Row := {
  lang_name : string;
  split_name : string;
  batch_index : Z;
  status : Status;
  start_time : option Q;
  end_time : option Q;
  retry_count : Z;
  error_message : option string;
  batch_size : option Z;
  tokens_estimated : option Z
}.

Abbreviation Table := (gmap string Row).

(** [INSERT OR REPLACE INTO batches (batch_id, lang_name, split_name,
    batch_index, status, start_time, batch_size) VALUES (?, ?, ?, ?,
    'in_progress', ?, ?)]: a row with the same key is deleted, and the
    columns that are not listed take their defaults. *)
Definition mark_in_progress (now : Q) (batch_id lang split : string)
    (index size : Z) (t : Table) : Table :=
  <[batch_id := {| lang_name := lang; split_name := split;
                   batch_index := index; status := in_progress;
                   start_time := Some now; end_time := None;
                   retry_count := 0; error_message := None;
                   batch_size := Some size; tokens_estimated := None |}]> t.

Definition set_completed (now : Q) (r : Row) : Row :=
  {| lang_name := lang_name r; split_name := split_name r;
     batch_index := batch_index r; status := completed;
     start_time := start_time r; end_time := Some now;
     retry_count := retry_count r; error_message := error_message r;
     batch_size := batch_size r; tokens_estimated := tokens_estimated r |}.

(** [UPDATE batches SET status = 'completed', end_time = ? WHERE batch_id = ?] *)
Definition mark_completed (now : Q) (batch_id : string) (t : Table) : Table :=
  alter (set_completed now) batch_id t.

Definition set_failed (now : Q) (msg : string) (r : Row) : Row :=
  {| lang_name := lang_name r; split_name := split_name r;
     batch_index := batch_index r; status := failed;
     start_time := start_time r; end_time := Some now;
     retry_count := retry_count r; error_message := Some msg;
     batch_size := batch_size r; tokens_estimated := tokens_estimated r |}.

(** [UPDATE batches SET status = 'failed', error_message = ?, end_time = ?
    WHERE batch_id = ?] *)
Definition mark_failed (now : Q) (batch_id msg : string) (t : Table) : Table :=
  alter (set_failed now msg) batch_id t.

Definition bump_retry (r : Row) : Row :=
  {| lang_name := lang_name r; split_name := split_name r;
     batch_index := batch_index r; status := status r;
     start_time := start_time r; end_time := end_time r;
     retry_count := retry_count r + 1; error_message := error_message r;
     batch_size := batch_size r; tokens_estimated := tokens_estimated r |}.

(** [UPDATE batches SET retry_count = retry_count + 1 WHERE batch_id = ?] *)
Definition increment_retry (batch_id : string) (t : Table) : Table :=
  alter bump_retry batch_id t.

(** [SELECT status, retry_count FROM batches WHERE batch_id = ?] *)
Definition get_batch_status (batch_id : string) (t : Table)
  : option (Status * Z) :=
  (fun r => (status r, retry_count r)) <$> t !! batch_id.

Definition is_completed_of (lang split : string) (r : Row) : bool :=
  bool_decide (lang_name r = lang) && bool_decide (split_name r = split)
  && bool_decide (status r = completed).

(** [SELECT COUNT( * ) FROM batches WHERE lang_name = ? AND split_name = ?
    AND status = 'completed'] *)
Definition get_completed_count (lang split : string) (t : Table) : Z :=
  map_fold (fun _ r n => if is_completed_of lang split r then n + 1 else n) 0 t.

(** Sum of column [batch_size] over the completed rows of a partition (the
    quantity the spec compares with the length of the persisted array; no
    function of the source computes it). *)
Definition completed_total (lang split : string) (t : Table) : Z :=
  map_fold (fun _ r n =>
              if is_completed_of lang split r
              then n + default 0 (batch_size r) else n) 0 t.

(** The four mutating operations, as data, for sequences of calls on one
    [batch_id]. *)
Inductive Op :=
| OpMarkInProgress (lang split : string) (index size : Z)
| OpIncrementRetry
| OpMarkCompleted
| OpMarkFailed (msg : string).

Definition apply_op (now : Q) (batch_id : string) (op : Op) (t : Table) : Table :=
  match op with
  | OpMarkInProgress lang split index size =>
      mark_in_progress now batch_id lang split index size t
  | OpIncrementRetry => increment_retry batch_id t
  | OpMarkCompleted => mark_completed now batch_id t
  | OpMarkFailed msg => mark_failed now batch_id msg t
  end.

(** The stored [retry_count] of a key, [0] while the key has no row. *)
Definition retry_count_of (batch_id : string) (t : Table) : Z :=
  default 0 (retry_count <$> t !! batch_id).

(** The successive tables of a sequence of operations; each operation
    comes with the clock reading it stamps. *)
Fixpoint run_ops (batch_id : string) (ops : list (Q * Op)) (t : Table)
  : list Table :=
  match ops with
  | [] => []
  | (now, op) :: ops' =>
      let t' := apply_op now batch_id op t in
      t' :: run_ops batch_id ops' t'
  end.

End CheckpointManager.

(** ** The environment of the robust script *)

(** The four [except] clauses of [embed_batch_with_retry] distinguish these
    classes of exception. *)
Inductive ExnClass :=
| TimeoutCls          (* requests.exceptions.Timeout *)
| ConnectionErrorCls  (* requests.exceptions.ConnectionError *)
| ValueErrorCls       (* ValueError and its subclasses *)
| ExceptionCls.       (* any other Exception *)

(** A raised exception: its class and [str(e)]. *)
Record PyExn := Exn { exn_class : ExnClass; exn_str : string }.

Section Pipeline.

(** One embedding vector, as the endpoint returns it. *)
Context {Vec : Type}.

(** What lines 239-240 make of the body of a response: the list
    [[item['embedding'] for item in data['data']]], or an exception. *)
Inductive Parsed :=
| ParsedData (embeddings : list Vec)
| ParseRaises (e : PyExn).

Record Response := {
  status_code : Z;
  text : string;
  json : Parsed
}.

(** The outcome of one [requests.post]. *)
Inductive PostResult :=
| Responded (response : Response)
| PostRaises (e : PyExn).

(** The remote endpoint: the answer to the [n]-th request of the run,
    given the batch it carries. *)
Definition Api := nat -> list string -> PostResult.

(** Observable effects, newest first in the log.  [EvDurable] is the
    durable state (table and file) right after a commit or a save; a crash
    can leave any of these states behind. *)
Inductive Event :=
| EvPost (at_time : Q) (batch : list string)
| EvSleep (seconds : Q)
| EvDurable (table : gmap string CheckpointManager.Row)
            (saved : option (list Vec)).

(** The state the script works on.  The clock advances in [time.sleep]
    only, so that the time between two events of a run is at least the
    difference of their clock readings. *)
Record World := {
  db : gmap string CheckpointManager.Row;  (* checkpoints.db *)
  file : option (list Vec);                (* output_path *)
  now : Q;                                 (* clock, in seconds *)
  calls : nat;                             (* requests sent so far *)
  log : list Event
}.

(** [self.conn.execute(...); self.conn.commit()] *)
Definition commit (t : gmap string CheckpointManager.Row) (w : World) : World :=
  {| db := t; file := file w; now := now w; calls := calls w;
     log := EvDurable t (file w) :: log w |}.

Definition ckpt_mark_in_progress (batch_id lang split : string)
    (index size : Z) (w : World) : World :=
  commit (CheckpointManager.mark_in_progress (now w) batch_id lang split
            index size (db w)) w.

Definition ckpt_mark_completed (batch_id : string) (w : World) : World :=
  commit (CheckpointManager.mark_completed (now w) batch_id (db w)) w.

Definition ckpt_mark_failed (batch_id msg : string) (w : World) : World :=
  commit (CheckpointManager.mark_failed (now w) batch_id msg (db w)) w.

Definition ckpt_increment_retry (batch_id : string) (w : World) : World :=
  commit (CheckpointManager.increment_retry batch_id (db w)) w.

(** [np.save(output_path, np.array(embeddings, dtype=np.float32))] *)
Definition np_save (arr : list Vec) (w : World) : World :=
  {| db := db w; file := Some arr; now := now w; calls := calls w;
     log := EvDurable (db w) (Some arr) :: log w |}.

(** [time.sleep(seconds)]: the clock advances by the time slept. *)
Definition sleep (seconds : Q) (w : World) : World :=
  {| db := db w; file := file w; now := (now w + seconds)%Q;
     calls := calls w; log := EvSleep seconds :: log w |}.

(** [requests.post(...)] to the embeddings endpoint. *)
Definition requests_post (api : Api) (batch : list string) (w : World)
  : PostResult * World :=
  (api (calls w) batch,
   {| db := db w; file := file w; now := now w; calls := S (calls w);
      log := EvPost (now w) batch :: log w |}).

(** ** EmbeddingClient: [embed_batch_with_retry] (robust.py, lines 169-262) *)

Inductive Outcome :=
| Return (embeddings : list Vec)
| Raise (e : PyExn).

(** [range(n)] *)
Definition range (n : Z) : list Z := seqZ 0 n.

(** Lines 190-195: from the second iteration on, the retry is counted and
    the exponential backoff is slept before the request. *)
Definition backoff (retry : Z) (batch_id : string) (w : World) : World :=
  if retry >? 0
  then sleep (inject_Z (10 * 3 ^ (retry - 1)))
             (ckpt_increment_retry batch_id w)
  else w.

(** The body of the [for] loop over the remaining values of [retry],
    followed by the code after the loop. *)
Fixpoint retry_loop (api : Api) (max_retries : Z) (retries : list Z)
    (batch : list string) (batch_id : string) (w : World) : Outcome * World :=
  match retries with
  | [] =>
      (* All retries exhausted *)
      let error_msg :=
        "Failed after " +:+ Py.str_of_Z max_retries +:+ " retries" in
      (Raise (Exn ExceptionCls error_msg),
       ckpt_mark_failed batch_id error_msg w)
  | retry :: rest =>
      let w1 := backoff retry batch_id w in
      let '(result, w2) := requests_post api batch w1 in
      let on_exception (e : PyExn) :=
        match exn_class e with
        | ValueErrorCls => (Raise e, w2)
        | _ => retry_loop api max_retries rest batch batch_id w2
        end in
      match result with
      | PostRaises e => on_exception e
      | Responded response =>
          if status_code response =? 400 then
            let error_msg := text response in
            if Py.contains "max allowed tokens" (Py.lower error_msg)
            then (Raise (Exn ValueErrorCls
                           ("Token limit exceeded: " +:+ error_msg)), w2)
            else retry_loop api max_retries rest batch batch_id w2
          else if status_code response =? 429 then
            retry_loop api max_retries rest batch batch_id (sleep 60 w2)
          else if status_code response =? 503 then
            retry_loop api max_retries rest batch batch_id w2
          else if negb (status_code response =? 200) then
            retry_loop api max_retries rest batch batch_id w2
          else
            match json response with
            | ParsedData embeddings => (Return embeddings, w2)
            | ParseRaises e => on_exception e
            end
      end
  end.

Definition embed_batch_with_retry (api : Api) (batch : list string)
    (batch_id : string) (max_retries : Z) (w : World) : Outcome * World :=
  retry_loop api max_retries (range max_retries) batch batch_id w.

(** An answer after which the [for] loop goes on to its next iteration. *)
Definition retryable (r : PostResult) : bool :=
  match r with
  | PostRaises e =>
      match exn_class e with ValueErrorCls => false | _ => true end
  | Responded response =>
      if status_code response =? 400
      then negb (Py.contains "max allowed tokens" (Py.lower (text response)))
      else if status_code response =? 429 then true
      else if status_code response =? 503 then true
      else if negb (status_code response =? 200) then true
      else match json response with
           | ParsedData _ => false
           | ParseRaises e =>
               match exn_class e with ValueErrorCls => false | _ => true end
           end
  end.

(** An HTTP 400 answer that reports a token-limit violation. *)
Definition token_limit_400 (r : PostResult) : bool :=
  match r with
  | Responded response =>
      (status_code response =? 400)
      && Py.contains "max allowed tokens" (Py.lower (text response))
  | PostRaises _ => false
  end.

Definition is_429 (r : PostResult) : bool :=
  match r with
  | Responded response => status_code response =? 429
  | PostRaises _ => false
  end.

(** ** BatchProcessor: [embed_dataset_robust] (robust.py, lines 265-401) *)

(** The variables of the [while] loop. *)
Record Loop := {
  embeddings : list Vec;
  batch_size : Z;
  current_index : Z
}.

(** [f"{lang_name}_{split_name}_batch_{batch_start:06d}"] *)
Definition make_batch_id (lang split : string) (batch_start : Z) : string :=
  lang +:+ "_" +:+ split +:+ "_batch_" +:+ Py.format_06d batch_start.

(** [status and status['status'] == 'completed'] *)
Definition status_completed (s : option (CheckpointManager.Status * Z)) : bool :=
  match s with
  | Some (CheckpointManager.completed, _) => true
  | _ => false
  end.

(** One iteration either falls through to the next test of the loop
    condition, or lets an exception leave the function. *)
Inductive Step :=
| Next (st : Loop)
| Propagate (e : PyExn).

(** The [try] block, lines 343-368: the exception it raises, if any, with
    the loop variables and the world at that point. *)
Definition try_block (api : Api) (lang split : string)
    (batch : list string) (batch_id : string) (batch_start batch_end : Z)
    (st : Loop) (w : World) : option PyExn * Loop * World :=
  let w1 := ckpt_mark_in_progress batch_id lang split batch_start
              (batch_size st) w in
  let '(r, w2) := embed_batch_with_retry api batch batch_id 5 w1 in
  match r with
  | Raise e => (Some e, st, w2)
  | Return batch_embeddings =>
      if negb (Z.of_nat (length batch_embeddings) =? Z.of_nat (length batch))
      then
        (Some (Exn ValueErrorCls
                 ("Expected " +:+ Py.str_of_Z (Z.of_nat (length batch))
                  +:+ " embeddings, got "
                  +:+ Py.str_of_Z (Z.of_nat (length batch_embeddings)))),
         st, w2)
      else
        (* Append and save checkpoint *)
        let embeddings' := embeddings st ++ batch_embeddings in
        let w3 := ckpt_mark_completed batch_id w2 in
        (* Save embeddings after every batch *)
        let w4 := np_save embeddings' w3 in
        (* Rate limiting *)
        let w5 := sleep 0.6 w4 in
        (None,
         {| embeddings := embeddings'; batch_size := batch_size st;
            current_index := batch_end |},
         w5)
  end.

(** The body of the [while] loop, lines 327-391. *)
Definition loop_body (api : Api) (texts : list string) (lang split : string)
    (st : Loop) (w : World) : Step * World :=
  let batch_start := current_index st in
  let batch_end :=
    Z.min (current_index st + batch_size st) (Z.of_nat (length texts)) in
  let batch := Py.slice batch_start batch_end texts in
  let batch_id := make_batch_id lang split batch_start in
  let status := CheckpointManager.get_batch_status batch_id (db w) in
  if status_completed status then
    (Next {| embeddings := embeddings st; batch_size := batch_size st;
             current_index := batch_end |}, w)
  else
    let '(raised, st1, w1) :=
      try_block api lang split batch batch_id batch_start batch_end st w in
    match raised with
    | None => (Next st1, w1)
    | Some e =>
        match exn_class e with
        | ValueErrorCls =>
            if Py.contains "Token limit exceeded" (exn_str e) then
              let batch_size' := batch_size st1 / 2 in
              if batch_size' <? 4 then
                (Next {| embeddings := embeddings st1;
                         batch_size := batch_size';
                         current_index := batch_end |},
                 ckpt_mark_failed batch_id "Batch size reduction failed" w1)
              else
                (Next {| embeddings := embeddings st1;
                         batch_size := batch_size';
                         current_index := current_index st1 |}, w1)
            else (Propagate e, w1)
        | _ =>
            (Next {| embeddings := embeddings st1;
                     batch_size := batch_size st1;
                     current_index := batch_end |},
             ckpt_mark_failed batch_id (exn_str e) w1)
        end
    end.

(** The [while current_index < len(texts)] loop.  [None]: the loop is still
    running after [fuel] iterations. *)
Fixpoint while_loop (fuel : nat) (api : Api) (texts : list string)
    (lang split : string) (st : Loop) (w : World)
  : option (Step * World) :=
  if current_index st <? Z.of_nat (length texts) then
    match fuel with
    | O => None
    | S fuel' =>
        match loop_body api texts lang split st w with
        | (Next st', w') => while_loop fuel' api texts lang split st' w'
        | (Propagate e, w') => Some (Propagate e, w')
        end
    end
  else Some (Next st, w).

(** The loop variables as lines 309-315 and 321-322 set them: the vectors
    of the array file, if there is one, the initial batch size, and the
    number of vectors as the offset to resume from.  Nothing here reads the
    checkpoint table. *)
Definition loop_variables (initial_batch_size : Z) (w : World) : Loop :=
  let embeddings0 :=
    match file w with
    | Some existing_embeddings => existing_embeddings
    | None => []
    end in
  {| embeddings := embeddings0;
     batch_size := initial_batch_size;
     current_index := Z.of_nat (length embeddings0) |}.

(** [a // b] on integers: [ZeroDivisionError], an [Exception], for a zero
    divisor. *)
Definition floordiv (a b : Z) : PyExn + Z :=
  if b =? 0
  then inl (Exn ExceptionCls "integer division or modulo by zero")
  else inr (a / b).

(** Lines 308-323, up to the loop: the loop variables, with the two
    divisions by the batch size, [start_batch] of line 316 when the array
    file exists and [total_batches] of line 323, whose values are only
    displayed. *)
Definition startup (texts : list string) (initial_batch_size : Z) (w : World)
  : PyExn + Loop :=
  let st0 := loop_variables initial_batch_size w in
  let start_batch :=
    match file w with
    | Some existing_embeddings =>
        floordiv (Z.of_nat (length existing_embeddings)) initial_batch_size
    | None => inr 0
    end in
  match start_batch with
  | inl e => inl e
  | inr _ =>
      let total_batches :=
        floordiv (Z.of_nat (length texts) - current_index st0
                  + batch_size st0 - 1) (batch_size st0) in
      match total_batches with
      | inl e => inl e
      | inr _ => inr st0
      end
  end.

(** The result of the call: the returned [len(embeddings)], or the
    exception that left the function. *)
Inductive Result :=
| Returned (count : Z)
| Raised (e : PyExn).

Definition embed_dataset_robust (fuel : nat) (api : Api) (dataset : list Item)
    (lang split : string) (initial_batch_size : Z) (w : World)
  : option (Result * World) :=
  let texts := fst (prepare_texts dataset) in
  match startup texts initial_batch_size w with
  | inl e => Some (Raised e, w)
  | inr st0 =>
      match while_loop fuel api texts lang split st0 w with
      | None => None
      | Some (Propagate e, w') => Some (Raised e, w')
      | Some (Next st, w') =>
          (* Final save *)
          Some (Returned (Z.of_nat (length (embeddings st))),
                np_save (embeddings st) w')
      end
  end.

End Pipeline.

Arguments Parsed : clear implicits.
Arguments Response : clear implicits.
Arguments PostResult : clear implicits.
Arguments Api : clear implicits.
Arguments Event : clear implicits.
Arguments World : clear implicits.
Arguments Outcome : clear implicits.
Arguments Loop : clear implicits.
Arguments Step : clear implicits.

(** ** Python floats

    A [float] is an IEEE 754 binary64 number, here the rational it holds.
    The result of an operation is the exact result rounded to the nearest
    float, to the one with an even significand when two are equally near.
    Overflow and subnormal numbers lie outside the range of clock readings
    and are not modelled. *)

Module Float64.

(** [2 ** e] *)
Definition pow2 (e : Z) : Q :=
  if 0 <=? e then inject_Z (2 ^ e) else 1 # Z.to_pos (2 ^ (- e)).

(** The integer nearest to [y]; of two that are equally near, the even
    one. *)
Definition nearest_even (y : Q) : Z :=
  let f := Qfloor y in
  match (y - inject_Z f ?= 1 # 2)%Q with
  | Lt => f
  | Gt => f + 1
  | Eq => if Z.even f then f else f + 1
  end.

(** The binary exponent of a positive [x]: [2 ** e <= x < 2 ** (e + 1)]. *)
Definition exponent (x : Q) : Z :=
  let e0 := Z.log2 (Qnum x) - Z.log2 (Zpos (Qden x)) in
  if Qle_bool (pow2 e0) x then e0 else e0 - 1.

(** A positive [x] rounded to 53 significant bits. *)
Definition round_pos (x : Q) : Q :=
  let e := exponent x - 52 in
  Qred (inject_Z (nearest_even (x / pow2 e)) * pow2 e).

(** The float nearest to [x]. *)
Definition round (x : Q) : Q :=
  match Qnum x with
  | Z0 => 0
  | Zpos _ => round_pos x
  | Zneg _ => - round_pos (- x)
  end.

(** [a - b] on floats *)
Definition sub (a b : Q) : Q := round (a - b).

(** A bound on the rounding error of a value of magnitude at most
    [2 ** 32]: [2 ** -21]. *)
Definition eps : Q := 1 # 2097152.

End Float64.

(** ** RateLimiter: [rate_limited_sleep] (parallel.py, lines 48-70) *)

Module RateLimiter.

(** What one caller does to the shared objects, newest first in the trace.
    A read or a write of [last_request_time.value] records whether
    [rate_lock] was held at that moment. *)
Inductive Access :=
| Acquire
| Release
| ReadShared (held : bool) (value : Q)
| WriteShared (held : bool) (value : Q)
| Slept (seconds : Q).

Record State := {
  clock : Q;               (* the time, in seconds *)
  last_request_time : Q;   (* last_request_time.value, a float *)
  rate_lock : bool;        (* true while some caller holds the lock *)
  trace : list Access
}.

(** How long the environment makes one call wait: for the lock, in
    [time.sleep] beyond the time asked for, and between the sleep and
    the second [time.time()]. *)
Record Delays := {
  before_lock : Q;
  oversleep : Q;
  before_store : Q
}.

Definition nonneg (env : Delays) : Prop :=
  (0 <= before_lock env)%Q /\ (0 <= oversleep env)%Q
  /\ (0 <= before_store env)%Q.

Definition min_interval : Q := 0.6.

Definition pass (seconds : Q) (s : State) : State :=
  {| clock := (clock s + seconds)%Q;
     last_request_time := last_request_time s;
     rate_lock := rate_lock s; trace := trace s |}.

(** Entering [with rate_lock:]; a lock that is held is never granted. *)
Definition lock_acquire (s : State) : option State :=
  if rate_lock s then None
  else Some {| clock := clock s; last_request_time := last_request_time s;
               rate_lock := true; trace := Acquire :: trace s |}.

Definition lock_release (s : State) : State :=
  {| clock := clock s; last_request_time := last_request_time s;
     rate_lock := false; trace := Release :: trace s |}.

Definition read_shared (s : State) : Q * State :=
  (last_request_time s,
   {| clock := clock s; last_request_time := last_request_time s;
      rate_lock := rate_lock s;
      trace := ReadShared (rate_lock s) (last_request_time s) :: trace s |}).

Definition write_shared (v : Q) (s : State) : State :=
  {| clock := clock s; last_request_time := v; rate_lock := rate_lock s;
     trace := WriteShared (rate_lock s) v :: trace s |}.

Definition time_sleep (seconds extra : Q) (s : State) : State :=
  {| clock := (clock s + seconds + extra)%Q;
     last_request_time := last_request_time s; rate_lock := rate_lock s;
     trace := Slept seconds :: trace s |}.

(** [a < b] *)
Definition Qltb (a b : Q) : bool := negb (Qle_bool b a).

(** [time.time()]: the float nearest to the time. *)
Definition time_time (s : State) : Q := Float64.round (clock s).

(** The float that the literal [0.6] denotes. *)
Definition literal_0_6 : Q := Float64.round 0.6.

(** Lines 52-70.  The two subtractions and the comparison are those of
    floats; [time.sleep] lasts the seconds asked for and whatever the
    environment adds. *)
Definition rate_limited_sleep (env : Delays) (s : State) : option State :=
  match lock_acquire (pass (before_lock env) s) with
  | None => None
  | Some s1 =>
      let current_time := time_time s1 in
      let '(last, s2) := read_shared s1 in
      let elapsed := Float64.sub current_time last in
      let s3 :=
        if Qltb elapsed literal_0_6 then
          let sleep_time := Float64.sub literal_0_6 elapsed in
          time_sleep sleep_time (oversleep env) s2
        else s2 in
      let s4 := pass (before_store env) s3 in
      Some (lock_release (write_shared (time_time s4) s4))
  end.

(** A sequence of calls, one after the other; the result lists the
    timestamp each granted call recorded, oldest first. *)
Fixpoint run (envs : list Delays) (s : State) : option (list Q * State) :=
  match envs with
  | [] => Some ([], s)
  | env :: envs' =>
      match rate_limited_sleep env s with
      | None => None
      | Some s1 =>
          match run envs' s1 with
          | None => None
          | Some (ts, s2) => Some (last_request_time s1 :: ts, s2)
          end
      end
  end.

(** One granted call, as a step relation on the shared state. *)
Inductive step : State -> State -> Prop :=
| step_call env s s' :
    nonneg env -> rate_limited_sleep env s = Some s' -> step s s'.

(** Every two neighbours of a list of timestamps are at least
    [min_interval] apart. *)
Fixpoint spaced (ts : list Q) : Prop :=
  match ts with
  | a :: ((b :: _) as rest) => (a + min_interval <= b)%Q /\ spaced rest
  | _ => True
  end.

(** Every two neighbours of a list of timestamps are at least
    [min_interval - slack] apart. *)
Fixpoint spaced_within (slack : Q) (ts : list Q) : Prop :=
  match ts with
  | a :: ((b :: _) as rest) =>
      (a + min_interval - slack <= b)%Q /\ spaced_within slack rest
  | _ => True
  end.

(** The latest reading of the clock for which the rounding errors are
    bounded by [Float64.eps]: 4,000,000,000 seconds, below [2 ** 32]. *)
Definition horizon : Q := 4000000000.

(** What the five roundings of one call can take from the interval. *)
Definition rounding_slack : Q := 5 * Float64.eps.

(** The clock has started and the shared timestamp is a reading of it, or
    within a second of one. *)
Definition in_range (s : State) : Prop :=
  (0 <= clock s)%Q
  /\ (- (1) <= last_request_time s <= horizon + 1)%Q.

(** Every access to the shared timestamp in a trace was made with the lock
    held. *)
Fixpoint locked_accesses (tr : list Access) : bool :=
  match tr with
  | [] => true
  | ReadShared held _ :: tr' => held && locked_accesses tr'
  | WriteShared held _ :: tr' => held && locked_accesses tr'
  | _ :: tr' => locked_accesses tr'
  end.

End RateLimiter.

Module RateLimiterSample.

(** The clock reads 99 s; the timestamp was stored long before. *)
Definition state0 : RateLimiter.State :=
  {| RateLimiter.clock := 99; RateLimiter.last_request_time := 0;
     RateLimiter.rate_lock := false; RateLimiter.trace := [] |}.

(** The first caller gets the lock after a second, the second one an
    eighth of a second after the first has released it; the sleep lasts
    exactly the time asked for. *)
Definition two_calls : list RateLimiter.Delays :=
  [ {| RateLimiter.before_lock := 1; RateLimiter.oversleep := 0;
       RateLimiter.before_store := 0 |};
    {| RateLimiter.before_lock := 1 # 8; RateLimiter.oversleep := 0;
       RateLimiter.before_store := 0 |} ].

End RateLimiterSample.

(** ** Vocabulary of the properties *)

Fixpoint nondecreasing (l : list Z) : Prop :=
  match l with
  | a :: ((b :: _) as rest) => a <= b /\ nondecreasing rest
  | _ => True
  end.

(** The values of [retry_count] seen for a key before and after each
    operation of a sequence. *)
Definition retry_counts (batch_id : string)
    (ops : list (Q * CheckpointManager.Op))
    (t : gmap string CheckpointManager.Row) : list Z :=
  CheckpointManager.retry_count_of batch_id t
  :: map (CheckpointManager.retry_count_of batch_id)
       (CheckpointManager.run_ops batch_id ops t).

Definition keeps_row (op : CheckpointManager.Op) : bool :=
  match op with
  | CheckpointManager.OpMarkInProgress _ _ _ _ => false
  | _ => true
  end.

(** Reading a decimal numeral back, leading zeros included. *)
Definition parse_decimal (s : string) : option N :=
  N.of_uint <$> NilEmpty.uint_of_string s.

Section PipelineVocabulary.

Context {Vec : Type}.

(** The world in which an iteration of the retry loop ends when the answer
    sends it to the next iteration. *)
Definition after_retryable (api : Api Vec) (retry : Z) (batch : list string)
    (batch_id : string) (w : World Vec) : World Vec :=
  let w1 := backoff retry batch_id w in
  let '(result, w2) := requests_post api batch w1 in
  if is_429 result then sleep 60 w2 else w2.

(** The clock readings at which the requests of a log were sent, oldest
    first. *)
Fixpoint post_times (l : list (Event Vec)) : list Q :=
  match l with
  | [] => []
  | EvPost t _ :: l' => post_times l' ++ [t]
  | _ :: l' => post_times l'
  end.

(** Every two neighbours of a list of clock readings are at least [d]
    apart. *)
Fixpoint apart (d : Q) (ts : list Q) : Prop :=
  match ts with
  | a :: ((b :: _) as rest) => (a + d <= b)%Q /\ apart d rest
  | _ => True
  end.

(** [w'] differs from [w] at most in the row of [batch_id], which it
    keeps, with its status or with status [failed], and in the clock, the
    request counter and the log, which it only extends. *)
Definition touches_only (batch_id : string) (w w' : World Vec) : Prop :=
  file w' = file w
  /\ (forall k, k <> batch_id -> db w' !! k = db w !! k)
  /\ (forall r, db w !! batch_id = Some r ->
        exists r', db w' !! batch_id = Some r'
          /\ (CheckpointManager.status r' = CheckpointManager.status r
              \/ CheckpointManager.status r' = CheckpointManager.failed))
  /\ (exists new, log w' = new ++ log w).

(** One iteration of the [while] loop that falls through to the next test
    of the loop condition. *)
Definition loop_step (api : Api Vec) (texts : list string)
    (lang split : string) (x y : Loop Vec * World Vec) : Prop :=
  current_index (fst x) < Z.of_nat (length texts)
  /\ loop_body api texts lang split (fst x) (snd x) = (Next (fst y), snd y).

(** An answer 200 that carries the vectors of a model for the batch, one
    per text and in order. *)
Definition good_answer (model : string -> Vec) (batch : list string)
    (r : PostResult Vec) : Prop :=
  exists txt,
    r = Responded {| status_code := 200; text := txt;
                     json := ParsedData (map model batch) |}.

(** The endpoint is honest for a model: the vectors of an answer 200 are
    the model's vectors of the texts sent, in order. *)
Definition honest (model : string -> Vec) (api : Api Vec) : Prop :=
  forall n batch response v,
    api n batch = Responded response ->
    status_code response = 200 ->
    json response = ParsedData v ->
    v = map model batch.

(** The loop variables are aligned with the source: the vectors held are
    those of the records before [current_index], no batch from there on is
    reported completed, and the batch size is positive. *)
Definition aligned (model : string -> Vec) (texts : list string)
    (lang split : string) (st : Loop Vec) (w : World Vec) : Prop :=
  1 <= batch_size st
  /\ 0 <= current_index st <= Z.of_nat (length texts)
  /\ embeddings st = map model (take (Z.to_nat (current_index st)) texts)
  /\ (forall j, current_index st <= j ->
        status_completed
          (CheckpointManager.get_batch_status (make_batch_id lang split j)
             (db w)) = false).

(** The vectors held are those of some of the records before
    [current_index], in the order of the source. *)
Definition in_source_order (model : string -> Vec) (texts : list string)
    (st : Loop Vec) : Prop :=
  0 <= batch_size st
  /\ 0 <= current_index st <= Z.of_nat (length texts)
  /\ exists kept,
       sublist kept (take (Z.to_nat (current_index st)) texts)
       /\ embeddings st = map model kept.

(** The table reports a batch of the partition failed at an offset below
    [bound]. *)
Definition has_failed (lang split : string) (bound : Z)
    (t : gmap string CheckpointManager.Row) : Prop :=
  exists a row,
    0 <= a < bound
    /\ t !! make_batch_id lang split a = Some row
    /\ CheckpointManager.status row = CheckpointManager.failed.

End PipelineVocabulary.

(** ** Test data *)

Module Fixture.

(** Vectors of rationals; the model maps a text to its length. *)
Definition Vec : Type := list Q.

Definition model (s : string) : Vec := [inject_Z (Py.len s)].

Definition answer (status : Z) (body : string) (parsed : Parsed Vec)
  : PostResult Vec :=
  Responded {| status_code := status; text := body; json := parsed |}.

Definition ok (batch : list string) : PostResult Vec :=
  answer 200 "" (ParsedData (map model batch)).

Definition not_json : Parsed Vec :=
  ParseRaises (Exn ValueErrorCls "Expecting value: line 1 column 1 (char 0)").

(** Every request succeeds. *)
Definition api_ok : Api Vec := fun _ batch => ok batch.

(** The first five requests are answered 503, the later ones succeed. *)
Definition api_503_then_ok : Api Vec :=
  fun n batch =>
    if (n <? 5)%nat then answer 503 "Service Unavailable" not_json
    else ok batch.

(** The first two requests are answered 503, the later ones succeed. *)
Definition api_503_twice : Api Vec :=
  fun n batch =>
    if (n <? 2)%nat then answer 503 "Service Unavailable" not_json
    else ok batch.

(** Every request is answered 429. *)
Definition api_429 : Api Vec :=
  fun _ _ => answer 429 "Too Many Requests" not_json.

(** A batch of more than two texts exceeds the token limit. *)
Definition api_token_limit : Api Vec :=
  fun _ batch =>
    if (2 <? length batch)%nat
    then answer 400 "Request exceeds the max allowed tokens per batch" not_json
    else ok batch.

Definition world0 : World Vec :=
  {| db := ∅; file := None; now := 0; calls := 0; log := [] |}.

(** Three records, whose prepared texts have lengths 3, 5 and 2. *)
Definition dataset3 : list Item :=
  [ {| func_documentation_string := Some "a"; func_code_string := None |};
    {| func_documentation_string := None; func_code_string := Some "bcd" |};
    {| func_documentation_string := None; func_code_string := None |} ].

Definition texts3 : list string := fst (prepare_texts dataset3).

(** A table that reports the batch at offset 0, of size 2, completed,
    next to an array file that holds one vector only. *)
Definition world_mismatch : World Vec :=
  {| db := CheckpointManager.mark_completed 1 "python_train_batch_000000"
             (CheckpointManager.mark_in_progress 0 "python_train_batch_000000"
                "python" "train" 0 2 ∅);
     file := Some [model "a"];
     now := 0; calls := 0; log := [] |}.

End Fixture.

Module FixtureStates.
Import Fixture.

(** The table as committed by [mark_completed] for the first batch of
    [dataset3] in batches of two, from [world0]. *)
Definition table_first_completed : gmap string CheckpointManager.Row :=
  CheckpointManager.mark_completed 0 "python_train_batch_000000"
    (CheckpointManager.mark_in_progress 0 "python_train_batch_000000"
       "python" "train" 0 2 ∅).

(** A restart that finds that table and no array file. *)
Definition world_restart : World Vec :=
  {| db := table_first_completed; file := None; now := 0; calls := 0;
     log := [] |}.

(** The loop variables and the world after the first iteration over
    [dataset3] with an initial batch size of 8 and the token limit of
    [api_token_limit]. *)
Definition after_token_limit : Loop Vec * World Vec :=
  match loop_body api_token_limit texts3 "python" "train"
          (loop_variables 8 world0) world0 with
  | (Next st, w) => (st, w)
  | (Propagate _, w) => (loop_variables 8 world0, w)
  end.

End FixtureStates.

(** ** Test data for Part III *)

Module Sample.

(** The row that [mark_in_progress] writes at time 0 for the first batch of
    partition python/train with a batch size of 32, and the table that
    holds it. *)
Definition row0 : CheckpointManager.Row :=
  {| CheckpointManager.lang_name := "python";
     CheckpointManager.split_name := "train";
     CheckpointManager.batch_index := 0;
     CheckpointManager.status := CheckpointManager.in_progress;
     CheckpointManager.start_time := Some 0%Q;
     CheckpointManager.end_time := None;
     CheckpointManager.retry_count := 0;
     CheckpointManager.error_message := None;
     CheckpointManager.batch_size := Some 32;
     CheckpointManager.tokens_estimated := None |}.

Definition table0 : gmap string CheckpointManager.Row :=
  CheckpointManager.mark_in_progress 0 "python_train_batch_000000"
    "python" "train" 0 32 ∅.

(** The world in which the first batch has just been marked in progress. *)
Definition world1 : World Fixture.Vec :=
  {| db := table0; file := None; now := 0; calls := 0; log := [] |}.

(** Every request fails to connect. *)
Definition api_refused : Api Fixture.Vec :=
  fun _ _ => PostRaises (Exn ConnectionErrorCls "Connection refused").

(** Every answer is a 200 whose body is not JSON. *)
Definition api_not_json : Api Fixture.Vec :=
  fun _ _ => Fixture.answer 200 "<html>Bad gateway</html>" Fixture.not_json.

(** Every answer is a 200 that lacks the vector of the first text. *)
Definition api_one_short : Api Fixture.Vec :=
  fun _ batch =>
    Fixture.answer 200 "" (ParsedData (map Fixture.model (tail batch))).

(** The loop variables at the start of a partition after a token-limit
    answer to a batch of one text: the batch size is 0. *)
Definition halved_to_zero : Loop Fixture.Vec :=
  {| embeddings := []; batch_size := 1 / 2; current_index := 0 |}.

(** A run of the loop from there against [api_not_json], what it ends with
    and the world it leaves. *)
Definition zero_batch_run : option (Step Fixture.Vec * World Fixture.Vec) :=
  while_loop 5 api_not_json Fixture.texts3 "python" "train"
    halved_to_zero Fixture.world0.

Definition zero_batch_step : Step Fixture.Vec :=
  match zero_batch_run with
  | Some (r, _) => r
  | None => Next halved_to_zero
  end.

Definition zero_batch_world : World Fixture.Vec :=
  match zero_batch_run with
  | Some (_, w) => w
  | None => Fixture.world0
  end.

End Sample.

(** ** Vocabulary of Part III: the retry loop *)

Section RetryVocabulary.

Context {Vec : Type}.

(** The durations slept in a log, oldest first. *)
Fixpoint sleeps (l : list (Event Vec)) : list Q :=
  match l with
  | [] => []
  | EvSleep d :: l' => sleeps l' ++ [d]
  | _ :: l' => sleeps l'
  end.

(** The world after the iterations for the values [retries] of [retry],
    when each of them is sent to the next iteration. *)
Definition retried (api : Api Vec) (batch : list string) (batch_id : string)
    (retries : list Z) (w : World Vec) : World Vec :=
  fold_left (fun w retry => after_retryable api retry batch batch_id w)
    retries w.

(** An answer 200 whose body parses to the vectors [v]. *)
Definition answers_with (v : list Vec) (r : PostResult Vec) : Prop :=
  exists response,
    r = Responded response
    /\ status_code response = 200
    /\ json response = ParsedData v.

End RetryVocabulary.

(** ** Vocabulary of Part III: the batch loop *)

(** [c in s] for one character. *)
Fixpoint occurs (c : ascii) (s : string) : bool :=
  match s with
  | EmptyString => false
  | String c' s' => if Ascii.eqb c c' then true else occurs c s'
  end.

Section LoopVocabulary.

Context {Vec : Type}.

(** The endpoint never makes the loop shrink the batch: no answer 400
    reports a token limit, and no [ValueError] raised by a request or by
    the parsing of a body mentions "Token limit exceeded". *)
Definition no_token_limit (api : Api Vec) : Prop :=
  forall n batch,
    token_limit_400 (api n batch) = false
    /\ (forall e,
          api n batch = PostRaises e
          \/ (exists response,
                api n batch = Responded response
                /\ json response = ParseRaises e) ->
          exn_class e = ValueErrorCls ->
          Py.contains "Token limit exceeded" (exn_str e) = false).

(** The request is answered by a [ValueError]: the request raises it, or
    the parsing of the body of an answer 200 does. *)
Definition raises_value_error (e : PyExn) (r : PostResult Vec) : Prop :=
  exn_class e = ValueErrorCls
  /\ (r = PostRaises e
      \/ exists response,
           r = Responded response
           /\ status_code response = 200
           /\ json response = ParseRaises e).

(** The [ValueError] of line 353. *)
Definition count_mismatch (expected got : nat) : PyExn :=
  Exn ValueErrorCls
    ("Expected " +:+ Py.str_of_Z (Z.of_nat expected)
     +:+ " embeddings, got " +:+ Py.str_of_Z (Z.of_nat got)).

End LoopVocabulary.

(** ** The parallel script: [embed_dataset], [process_language] and the
    summary of [main] (parallel.py, lines 72-229 and 322-333) *)

Module PyRange.

(** The values a [range] object yields from [start] on, at most [fuel] of
    them. *)
Fixpoint range_from (fuel : nat) (start stop step : Z) : list Z :=
  match fuel with
  | O => []
  | S fuel' =>
      if start <? stop
      then start :: range_from fuel' (start + step) stop step
      else []
  end.

(** [range(start, stop, step)] for a positive [step]: it yields at most
    [stop - start] values. *)
Definition range_step (start stop step : Z) : list Z :=
  range_from (Z.to_nat (stop - start)) start stop step.

End PyRange.

Module Parallel.

Section Script.

Context {Vec : Type}.

(** The state of one worker: the shared rate limiter (with the clock), the
    number of requests sent, the requests (newest first), each with the
    timestamp that the rate limiter stored for it, and the embeddings files
    on disk. *)
Record World := {
  limiter : RateLimiter.State;
  calls : nat;
  posts : list (Q * list string);
  files : gmap string (list Vec)
}.

(** The environment: the endpoint, and the delays the [n]-th call of
    [rate_limited_sleep] meets. *)
Record Env := {
  api : Api Vec;
  delays : nat -> RateLimiter.Delays
}.

(** [time.sleep(seconds)] *)
Definition sleep (seconds : Q) (w : World) : World :=
  {| limiter := RateLimiter.pass seconds (limiter w); calls := calls w;
     posts := posts w; files := files w |}.

(** Lines 123-138: [rate_limited_sleep()] and then the request.  [None]:
    the worker waits for a lock that is never released. *)
Definition limited_post (env : Env) (batch : list string) (w : World)
  : option (PostResult Vec * World) :=
  match RateLimiter.rate_limited_sleep (delays env (calls w)) (limiter w) with
  | None => None
  | Some limiter' =>
      Some (api env (calls w) batch,
            {| limiter := limiter'; calls := S (calls w);
               posts :=
                 (RateLimiter.last_request_time limiter', batch) :: posts w;
               files := files w |})
  end.

(** How the retry loop of one batch ends. *)
Inductive Attempted :=
| Extended (embeddings : list Vec)   (* break, or the loop ran out *)
| Failed (e : PyExn).                (* the exception leaves the function *)

(** Lines 121-167: the [for retry in range(max_retries)] loop of one batch,
    over the remaining values of [retry]. *)
Fixpoint retry_loop (env : Env) (max_retries : Z) (retries : list Z)
    (batch : list string) (embeddings : list Vec) (w : World)
  : option (Attempted * World) :=
  match retries with
  | [] => Some (Extended embeddings, w)
  | retry :: rest =>
      match limited_post env batch w with
      | None => None
      | Some (result, w1) =>
          let again :=
            retry_loop env max_retries rest batch embeddings (sleep 10 w1) in
          let on_exception (e : PyExn) :=
            match exn_class e with
            | TimeoutCls =>
                if retry <? max_retries - 1 then again
                else
                  Some (Failed (Exn ExceptionCls
                                  ("Timeout after "
                                   +:+ Py.str_of_Z max_retries
                                   +:+ " retries")), w1)
            | _ =>
                if retry <? max_retries - 1 then again
                else Some (Failed e, w1)
            end in
          match result with
          | PostRaises e => on_exception e
          | Responded response =>
              if negb (status_code response =? 200) then
                if retry <? max_retries - 1 then again
                else
                  on_exception
                    (Exn ExceptionCls
                       ("API error after " +:+ Py.str_of_Z max_retries
                        +:+ " retries"))
              else
                match json response with
                | ParsedData batch_embeddings =>
                    Some (Extended (embeddings ++ batch_embeddings), w1)
                | ParseRaises e => on_exception e
                end
          end
      end
  end.

(** Lines 113-167: the [for i in range(0, len(texts), batch_size)] loop,
    over the remaining offsets. *)
Fixpoint batch_loop (env : Env) (offsets : list Z) (texts : list string)
    (embeddings : list Vec) (w : World) : option (Attempted * World) :=
  match offsets with
  | [] => Some (Extended embeddings, w)
  | i :: rest =>
      let batch := Py.slice i (i + 64) texts in
      match retry_loop env 3 (range 3) batch embeddings w with
      | None => None
      | Some (Extended embeddings', w1) =>
          batch_loop env rest texts embeddings' w1
      | Some (Failed e, w1) => Some (Failed e, w1)
      end
  end.

(** The texts of lines 95-103: the first 30,000 characters of
    "docstring, two newlines, code". *)
Definition prepare (dataset : list Item) : list string :=
  map (fun item => Py.str_upto 30000 (combine_item item)) dataset.

(** [list(LANGUAGES.keys())] *)
Definition LANGUAGES : list string :=
  ["python"; "javascript"; "java"; "go"; "php"; "ruby"].

(** [list(LANGUAGES.keys()).index(lang_name)], the position of the progress
    bar of line 116: a [ValueError] for a name that is not a key.  The
    message is the one Python prints for a name of plain letters. *)
Fixpoint index_of (lang_name : string) (keys : list string) : PyExn + Z :=
  match keys with
  | [] =>
      inl (Exn ValueErrorCls
             (String "'"%char lang_name +:+ "' is not in list"))
  | key :: keys' =>
      if String.eqb key lang_name then inr 0
      else match index_of lang_name keys' with
           | inl e => inl e
           | inr i => inr (i + 1)
           end
  end.

(** [embed_dataset], lines 72-176: the embeddings are saved once, after the
    last batch. *)
Definition embed_dataset (env : Env) (dataset : list Item)
    (output_path lang_name : string) (w : World) : option (Result * World) :=
  let texts := prepare dataset in
  match index_of lang_name LANGUAGES with
  | inl e => Some (Raised e, w)
  | inr _ =>
      match batch_loop env
              (PyRange.range_step 0 (Z.of_nat (length texts)) 64)
              texts [] w with
      | None => None
      | Some (Failed e, w1) => Some (Raised e, w1)
      | Some (Extended embeddings, w1) =>
          Some (Returned (Z.of_nat (length embeddings)),
                {| limiter := limiter w1; calls := calls w1;
                   posts := posts w1;
                   files := <[output_path := embeddings]> (files w1) |})
      end
  end.

(** [SPLITS] *)
Definition SPLITS : list string := ["train"; "validation"; "test"].

(** [f"{lang_name}_{split_name}"] and
    [f"{lang_name}_{split_name}_embeddings.npy"] under [data_dir]. *)
Definition dataset_path (lang split : string) : string :=
  lang +:+ "_" +:+ split.

Definition embeddings_path (lang split : string) : string :=
  lang +:+ "_" +:+ split +:+ "_embeddings.npy".

(** Lines 200-215: the loop over the splits inside the [try] of
    [process_language]; [datasets] are the dataset directories on disk. *)
Fixpoint splits_loop (env : Env) (datasets : gmap string (list Item))
    (lang : string) (splits : list string) (total_embedded : Z) (w : World)
  : option (Result * World) :=
  match splits with
  | [] => Some (Returned total_embedded, w)
  | split :: rest =>
      match datasets !! dataset_path lang split with
      | None => splits_loop env datasets lang rest total_embedded w
      | Some dataset =>
          match files w !! embeddings_path lang split with
          | Some _ => splits_loop env datasets lang rest total_embedded w
          | None =>
              match embed_dataset env dataset
                      (embeddings_path lang split) lang w with
              | None => None
              | Some (Raised e, w1) => Some (Raised e, w1)
              | Some (Returned count, w1) =>
                  splits_loop env datasets lang rest
                    (total_embedded + count) w1
              end
          end
      end
  end.

(** [process_language], lines 178-229: [(lang_name, total_embedded,
    success)]. *)
Definition process_language (env : Env) (datasets : gmap string (list Item))
    (lang : string) (w : World) : option ((string * Z * bool) * World) :=
  match splits_loop env datasets lang SPLITS 0 w with
  | None => None
  | Some (Returned total_embedded, w1) =>
      Some ((lang, total_embedded, true), w1)
  | Some (Raised _, w1) => Some ((lang, 0, false), w1)
  end.

End Script.

(** The loop of [main] over the workers' results, lines 322-333. *)
Fixpoint collect_loop (results : list (string * Z * bool))
    (total_embedded : Z) (successes failures : list string)
  : Z * list string * list string :=
  match results with
  | [] => (total_embedded, successes, failures)
  | (lang_name, count, success) :: rest =>
      if success
      then collect_loop rest (total_embedded + count)
             (successes ++ [lang_name]) failures
      else collect_loop rest (total_embedded + count)
             successes (failures ++ [lang_name])
  end.

Definition collect (results : list (string * Z * bool))
  : Z * list string * list string :=
  collect_loop results 0 [] [].

End Parallel.

Arguments Parallel.World : clear implicits.
Arguments Parallel.Env : clear implicits.
Arguments Parallel.Attempted : clear implicits.

(** *** Vocabulary of the statements about the parallel script *)

Section ParallelVocabulary.

Context {Vec : Type}.

(** The request is answered, with a status other than 200. *)
Definition refused (r : PostResult Vec) : Prop :=
  exists response, r = Responded response /\ status_code response <> 200.

(** From [w] to [w'] the worker only added requests and left the lock
    free, the clock did not run backwards, and, as long as the clock stays
    below [horizon], each request is stamped at least [min_interval] less
    [rounding_slack] after the shared timestamp that [w] held and after
    the request before it. *)
Definition paced (w w' : Parallel.World Vec) : Prop :=
  RateLimiter.rate_lock (Parallel.limiter w') = false
  /\ (RateLimiter.clock (Parallel.limiter w)
      <= RateLimiter.clock (Parallel.limiter w'))%Q
  /\ exists new,
       Parallel.posts w' = new ++ Parallel.posts w
       /\ (RateLimiter.in_range (Parallel.limiter w) ->
           (RateLimiter.clock (Parallel.limiter w')
            <= RateLimiter.horizon)%Q ->
           RateLimiter.in_range (Parallel.limiter w')
           /\ (RateLimiter.last_request_time (Parallel.limiter w)
               <= RateLimiter.last_request_time (Parallel.limiter w'))%Q
           /\ Forall (fun p =>
                 (RateLimiter.last_request_time (Parallel.limiter w)
                  + RateLimiter.min_interval - RateLimiter.rounding_slack
                  <= fst p)%Q
                 /\ (fst p
                     <= RateLimiter.last_request_time
                          (Parallel.limiter w'))%Q)
                new
           /\ RateLimiter.spaced_within RateLimiter.rounding_slack
                (rev (map fst new))).

(** The texts that a batch loop sends for a list of offsets, in order, in
    batches of [size]. *)
Definition batches (size : Z) (offsets : list Z) (texts : list string)
  : list string :=
  concat (map (fun i => Py.slice i (i + size) texts) offsets).

End ParallelVocabulary.

(** The sum of the counts of a list of results. *)
Definition sum_counts (results : list (string * Z * bool)) : Z :=
  foldr (fun r acc => snd (fst r) + acc) 0 results.

(** The names of the results whose flag is [success], in order. *)
Definition names_with (success : bool) (results : list (string * Z * bool))
  : list string :=
  map (fun r => fst (fst r))
    (List.filter (fun r => Bool.eqb (snd r) success) results).

Module ParallelSample.

(** No caller is ever delayed beyond what it asks for. *)
Definition prompt : nat -> RateLimiter.Delays :=
  fun _ => {| RateLimiter.before_lock := 0; RateLimiter.oversleep := 0;
              RateLimiter.before_store := 0 |}.

Definition env_ok : Parallel.Env Fixture.Vec :=
  {| Parallel.api := Fixture.api_ok; Parallel.delays := prompt |}.

(** Every request is answered 503. *)
Definition env_503 : Parallel.Env Fixture.Vec :=
  {| Parallel.api :=
       fun _ _ => Fixture.answer 503 "Service Unavailable" Fixture.not_json;
     Parallel.delays := prompt |}.

(** The first request succeeds, the later ones are answered 503. *)
Definition env_ok_then_503 : Parallel.Env Fixture.Vec :=
  {| Parallel.api :=
       fun n batch =>
         if (n <? 1)%nat then Fixture.ok batch
         else Fixture.answer 503 "Service Unavailable" Fixture.not_json;
     Parallel.delays := prompt |}.

(** A worker that starts at time 0 with the lock free and no file saved. *)
Definition world0 : Parallel.World Fixture.Vec :=
  {| Parallel.limiter :=
       {| RateLimiter.clock := 0; RateLimiter.last_request_time := 0;
          RateLimiter.rate_lock := false; RateLimiter.trace := [] |};
     Parallel.calls := 0; Parallel.posts := []; Parallel.files := ∅ |}.

(** The train and validation splits of python are on disk. *)
Definition datasets : gmap string (list Item) :=
  <[ "python_train" := Fixture.dataset3 ]>
    (<[ "python_validation" := Fixture.dataset3 ]> ∅).

(** The embeddings of the train split are on disk already. *)
Definition world_train_saved : Parallel.World Fixture.Vec :=
  {| Parallel.limiter := Parallel.limiter world0;
     Parallel.calls := 0; Parallel.posts := [];
     Parallel.files := {[ "python_train_embeddings.npy" := [] ]} |}.

(** Sixty-five records: two batches. *)
Definition dataset65 : list Item :=
  replicate 65
    {| func_documentation_string := Some "a"; func_code_string := None |}.

(** What the worker for python returns, and the state it leaves, when the
    embeddings of the train split are on disk already. *)
Definition after_validation
  : option ((string * Z * bool) * Parallel.World Fixture.Vec) :=
  Parallel.process_language env_ok datasets "python" world_train_saved.

Definition result_after_validation : string * Z * bool :=
  match after_validation with
  | Some (r, _) => r
  | None => ("python", 0, false)
  end.

Definition world_after_validation : Parallel.World Fixture.Vec :=
  match after_validation with
  | Some (_, w) => w
  | None => world_train_saved
  end.

End ParallelSample.

(** ** The sequential script: [embed_dataset] and the loop of [main]
    (full.py, lines 44-156 and 221-245)

    [LANGUAGES], [SPLITS] and the two path names are those of the parallel
    script: the three scripts define them alike. *)

Module Full.

Section Script.

Context {Vec : Type}.

(** What a run has done so far: the seconds it has spent in [time.sleep],
    the requests it has sent, newest first, each with the seconds slept
    before it, and the array files on disk. *)
Record World := {
  slept : Q;
  calls : nat;
  posts : list (Q * list string);
  files : gmap string (list Vec)
}.

Definition sleep (seconds : Q) (w : World) : World :=
  {| slept := (slept w + seconds)%Q; calls := calls w; posts := posts w;
     files := files w |}.

(** [requests.post] *)
Definition post (api : Api Vec) (batch : list string) (w : World)
  : PostResult Vec * World :=
  (api (calls w) batch,
   {| slept := slept w; calls := S (calls w);
      posts := (slept w, batch) :: posts w; files := files w |}).

(** How the retry loop of one batch ends: the vectors are appended, or
    [sys.exit] ends the process. *)
Inductive Attempted :=
| Extended (embeddings : list Vec)
| Exits (code : Z).

(** Lines 97-144.  [SystemExit] is not an [Exception]: the [sys.exit(1)] of
    line 122 passes both handlers, and the two handlers differ in what they
    print only. *)
Fixpoint retry_loop (api : Api Vec) (max_retries : Z) (retries : list Z)
    (batch : list string) (embeddings : list Vec) (w : World)
  : Attempted * World :=
  match retries with
  | [] => (Extended embeddings, w)
  | retry :: rest =>
      let '(result, w1) := post api batch w in
      let again :=
        retry_loop api max_retries rest batch embeddings (sleep 10 w1) in
      let on_exception :=
        if retry <? max_retries - 1 then again else (Exits 1, w1) in
      match result with
      | PostRaises _ => on_exception
      | Responded response =>
          if negb (status_code response =? 200) then
            if retry <? max_retries - 1 then again else (Exits 1, w1)
          else
            match json response with
            | ParsedData batch_embeddings =>
                (Extended (embeddings ++ batch_embeddings), w1)
            | ParseRaises _ => on_exception
            end
      end
  end.

(** Lines 93-147, for the offsets that [range(0, len(texts), 32)] yields. *)
Fixpoint batch_loop (api : Api Vec) (offsets : list Z) (texts : list string)
    (embeddings : list Vec) (w : World) : Attempted * World :=
  match offsets with
  | [] => (Extended embeddings, w)
  | i :: rest =>
      let batch := Py.slice i (i + 32) texts in
      match retry_loop api 3 (range 3) batch embeddings w with
      | (Extended embeddings', w1) =>
          batch_loop api rest texts embeddings' (sleep 0.6 w1)
      | (Exits code, w1) => (Exits code, w1)
      end
  end.

(** Lines 65-83. *)
Definition prepare (dataset : list Item) : list string :=
  map (fun item => full_truncation (combine_item item)) dataset.

(** How [embed_dataset] and the loop of [main] end. *)
Inductive Ended :=
| Finished (count : Z)
| Exited (code : Z).

(** [embed_dataset], lines 44-156. *)
Definition embed_dataset (api : Api Vec) (dataset : list Item)
    (output_path : string) (w : World) : Ended * World :=
  let texts := prepare dataset in
  match batch_loop api (PyRange.range_step 0 (Z.of_nat (length texts)) 32)
          texts [] w with
  | (Exits code, w1) => (Exited code, w1)
  | (Extended embeddings, w1) =>
      (Finished (Z.of_nat (length embeddings)),
       {| slept := slept w1; calls := calls w1; posts := posts w1;
          files := <[output_path := embeddings]> (files w1) |})
  end.

(** The inner loop of [main], lines 230-245. *)
Fixpoint splits_loop (api : Api Vec) (datasets : gmap string (list Item))
    (lang_name : string) (splits : list string) (total_embedded : Z)
    (w : World) : Ended * World :=
  match splits with
  | [] => (Finished total_embedded, w)
  | split_name :: rest =>
      match datasets !! Parallel.dataset_path lang_name split_name with
      | None => splits_loop api datasets lang_name rest total_embedded w
      | Some dataset =>
          match files w !! Parallel.embeddings_path lang_name split_name with
          | Some _ => splits_loop api datasets lang_name rest total_embedded w
          | None =>
              match embed_dataset api dataset
                      (Parallel.embeddings_path lang_name split_name) w with
              | (Exited code, w1) => (Exited code, w1)
              | (Finished count, w1) =>
                  splits_loop api datasets lang_name rest
                    (total_embedded + count) w1
              end
          end
      end
  end.

(** The outer loop of [main], lines 224-245. *)
Fixpoint languages_loop (api : Api Vec) (datasets : gmap string (list Item))
    (languages : list string) (total_embedded : Z) (w : World)
  : Ended * World :=
  match languages with
  | [] => (Finished total_embedded, w)
  | lang_name :: rest =>
      match splits_loop api datasets lang_name Parallel.SPLITS
              total_embedded w with
      | (Exited code, w1) => (Exited code, w1)
      | (Finished total_embedded', w1) =>
          languages_loop api datasets rest total_embedded' w1
      end
  end.

(** Lines 221-245 of [main]: [total_embedded] when the loops end. *)
Definition main (api : Api Vec) (datasets : gmap string (list Item))
    (w : World) : Ended * World :=
  languages_loop api datasets Parallel.LANGUAGES 0 w.

End Script.

End Full.

Arguments Full.World : clear implicits.
Arguments Full.Attempted : clear implicits.

(** *** Vocabulary of the statements about the sequential script *)

Section FullVocabulary.

Context {Vec : Type}.

(** The request is answered 200 with a body that parses. *)
Definition answered (r : PostResult Vec) : bool :=
  match r with
  | Responded response =>
      (status_code response =? 200)
      && match json response with
         | ParsedData _ => true
         | ParseRaises _ => false
         end
  | PostRaises _ => false
  end.

(** The seconds slept before each request, oldest first. *)
Definition request_stamps (w : Full.World Vec) : list Q :=
  rev (map fst (Full.posts w)).

(** The script has slept at least [min_interval] since its last request. *)
Definition rested (w : Full.World Vec) : Prop :=
  Forall (fun p => (fst p + RateLimiter.min_interval <= Full.slept w)%Q)
    (Full.posts w).

(** The stamps are spaced and none is later than the time slept. *)
Definition tidy (w : Full.World Vec) : Prop :=
  RateLimiter.spaced (request_stamps w)
  /\ Forall (fun p => (fst p <= Full.slept w)%Q) (Full.posts w).

End FullVocabulary.

Module FullSample.

(** A run that starts with nothing sent and no file saved. *)
Definition world0 : Full.World Fixture.Vec :=
  {| Full.slept := 0; Full.calls := 0; Full.posts := []; Full.files := ∅ |}.

(** The first request succeeds, the later ones time out. *)
Definition api_ok_then_timeout : Api Fixture.Vec :=
  fun n batch =>
    if (n <? 1)%nat then Fixture.ok batch
    else PostRaises (Exn TimeoutCls "Read timed out.").

(** Thirty-three records: two batches. *)
Definition dataset33 : list Item :=
  replicate 33
    {| func_documentation_string := Some "a"; func_code_string := None |}.

End FullSample.

(** ** [main] of the robust script (robust.py, lines 466-488) *)

Module RobustMain.

Section Script.

Context {Vec : Type}.

(** The array files on disk next to the state of the script.  The [file] of
    the state is the file at the [output_path] of the partition at hand. *)
Record Disk := {
  files : gmap string (list Vec);
  state : World Vec
}.

(** The state as [embed_dataset_robust] finds it for [output_path]. *)
Definition open_partition (output_path : string) (d : Disk) : World Vec :=
  {| db := db (state d); file := files d !! output_path;
     now := now (state d); calls := calls (state d);
     log := log (state d) |}.

(** The disk when [embed_dataset_robust] leaves the state [w]. *)
Definition close_partition (output_path : string) (d : Disk) (w : World Vec)
  : Disk :=
  {| files := match file w with
              | Some arr => <[output_path := arr]> (files d)
              | None => files d
              end;
     state := w |}.

(** The inner loop, lines 475-488.  Nothing is caught: an exception of a
    partition leaves [main].  A partition whose embeddings exist is not
    skipped here. *)
Fixpoint splits_loop (fuel : nat) (api : Api Vec)
    (datasets : gmap string (list Item)) (lang_name : string)
    (splits : list string) (total_embedded : Z) (d : Disk)
  : option (Result * Disk) :=
  match splits with
  | [] => Some (Returned total_embedded, d)
  | split_name :: rest =>
      match datasets !! Parallel.dataset_path lang_name split_name with
      | None =>
          splits_loop fuel api datasets lang_name rest total_embedded d
      | Some dataset =>
          let output_path := Parallel.embeddings_path lang_name split_name in
          match embed_dataset_robust fuel api dataset lang_name split_name 32
                  (open_partition output_path d) with
          | None => None
          | Some (Raised e, w) =>
              Some (Raised e, close_partition output_path d w)
          | Some (Returned count, w) =>
              splits_loop fuel api datasets lang_name rest
                (total_embedded + count) (close_partition output_path d w)
          end
      end
  end.

(** The outer loop, lines 469-488. *)
Fixpoint languages_loop (fuel : nat) (api : Api Vec)
    (datasets : gmap string (list Item)) (languages : list string)
    (total_embedded : Z) (d : Disk) : option (Result * Disk) :=
  match languages with
  | [] => Some (Returned total_embedded, d)
  | lang_name :: rest =>
      match splits_loop fuel api datasets lang_name Parallel.SPLITS
              total_embedded d with
      | None => None
      | Some (Raised e, d1) => Some (Raised e, d1)
      | Some (Returned total_embedded', d1) =>
          languages_loop fuel api datasets rest total_embedded' d1
      end
  end.

(** Lines 466-488 of [main]: [total_embedded] when the loops end.  [fuel]
    bounds the iterations of the loop of each partition. *)
Definition main (fuel : nat) (api : Api Vec)
    (datasets : gmap string (list Item)) (d : Disk)
  : option (Result * Disk) :=
  languages_loop fuel api datasets Parallel.LANGUAGES 0 d.

End Script.

(** The partition has no dataset on disk, or an array file with at least
    one vector per record. *)
Definition complete {Vec : Type} (datasets : gmap string (list Item))
    (files : gmap string (list Vec)) (lang_name split_name : string) : Prop :=
  forall dataset,
    datasets !! Parallel.dataset_path lang_name split_name = Some dataset ->
    exists arr,
      files !! Parallel.embeddings_path lang_name split_name = Some arr
      /\ (length dataset <= length arr)%nat.

(** The number of vectors stored for a partition that has a dataset. *)
Definition stored {Vec : Type} (datasets : gmap string (list Item))
    (files : gmap string (list Vec)) (lang_name split_name : string) : Z :=
  match datasets !! Parallel.dataset_path lang_name split_name with
  | None => 0
  | Some _ =>
      match files !! Parallel.embeddings_path lang_name split_name with
      | Some arr => Z.of_nat (length arr)
      | None => 0
      end
  end.

(** The vectors stored for the given splits of the given languages. *)
Definition stored_total {Vec : Type} (datasets : gmap string (list Item))
    (files : gmap string (list Vec)) (languages splits : list string) : Z :=
  foldr (fun lang_name acc =>
           foldr (fun split_name acc' =>
                    stored datasets files lang_name split_name + acc')
             0 splits + acc)
    0 languages.

End RobustMain.

Arguments RobustMain.Disk : clear implicits.

Module RobustMainSample.

(** The train split of python is on disk with its three vectors. *)
Definition datasets : gmap string (list Item) :=
  {[ "python_train" := Fixture.dataset3 ]}.

Definition disk : RobustMain.Disk Fixture.Vec :=
  {| RobustMain.files :=
       {[ "python_train_embeddings.npy"
          := map Fixture.model Fixture.texts3 ]};
     RobustMain.state := Fixture.world0 |}.

End RobustMainSample.

(** *** Answers whose vectors are not those of the texts *)

Section UncheckedVocabulary.

Context {Vec : Type}.

(** The request is answered 200 with the vectors [f batch], however many
    they are. *)
Definition answers_by (f : list string -> list Vec) (batch : list string)
    (r : PostResult Vec) : Prop :=
  exists txt,
    r = Responded {| status_code := 200; text := txt;
                     json := ParsedData (f batch) |}.

End UncheckedVocabulary.

Module UncheckedSample.

(** Every answer lacks the vector of the first text of the batch. *)
Definition one_short (batch : list string) : list Fixture.Vec :=
  map Fixture.model (tail batch).

Definition env_one_short : Parallel.Env Fixture.Vec :=
  {| Parallel.api := Sample.api_one_short;
     Parallel.delays := ParallelSample.prompt |}.

End UncheckedSample.

(* ===================================================================== *)
(** * Part II: properties *)
(* ===================================================================== *)

(** ** Strings and slices *)

Lemma take_str_length (n : nat) (s : string) :
  String.length (Py.take_str n s) = Nat.min n (String.length s).
Proof.
  revert s; induction n as [|n IH]; intros [|c s]; simpl; auto.
Qed.

Lemma take_str_all (n : nat) (s : string) :
  (String.length s <= n)%nat -> Py.take_str n s = s.
Proof.
  revert s; induction n as [|n IH]; intros [|c s]; simpl; intros H;
    try reflexivity; try lia.
  f_equal. apply IH. lia.
Qed.

Lemma take_str_min (n : nat) (s : string) :
  Py.take_str (Nat.min n (String.length s)) s = Py.take_str n s.
Proof.
  revert s; induction n as [|n IH]; intros [|c s]; simpl; auto.
  f_equal. apply IH.
Qed.

Lemma take_drop_str (n : nat) (s : string) :
  Py.take_str n s +:+ Py.drop_str n s = s.
Proof.
  revert s; induction n as [|n IH]; intros [|c s]; simpl; auto.
  change (String c (Py.take_str n s +:+ Py.drop_str n s) = String c s).
  f_equal. apply IH.
Qed.

Lemma clamp_nonneg (n i : Z) : 0 <= i -> Py.clamp n i = Z.min i n.
Proof.
  intros H. unfold Py.clamp.
  destruct (Z.ltb_spec i 0); [lia | reflexivity].
Qed.

Lemma str_upto_take (k : Z) (s : string) :
  0 <= k -> Py.str_upto k s = Py.take_str (Z.to_nat k) s.
Proof.
  intros H. unfold Py.str_upto, Py.len. rewrite clamp_nonneg by exact H.
  rewrite Z2Nat.inj_min, Nat2Z.id. apply take_str_min.
Qed.

Lemma str_upto_len (k : Z) (s : string) :
  0 <= k -> Py.len (Py.str_upto k s) = Z.min k (Py.len s).
Proof.
  intros H. rewrite str_upto_take by exact H. unfold Py.len.
  rewrite take_str_length. lia.
Qed.

Lemma repeat_char_length (c : ascii) (n : nat) :
  String.length (Py.repeat_char c n) = n.
Proof. induction n; simpl; congruence. Qed.

(** ** TextPreparer *)

(** The inlined policy of full.py is the first component of
    [adaptive_truncation]. *)
Lemma full_truncation_agrees (combined : string) :
  full_truncation combined = fst (adaptive_truncation combined).
Proof.
  unfold full_truncation, adaptive_truncation.
  destruct (Py.len combined >? 50000); [reflexivity|].
  destruct (Py.len combined >? 30000); reflexivity.
Qed.

(** C7.  For every input string, [adaptive_truncation] returns the first
    15,000 characters when the input is longer than 50,000, the first
    20,000 characters when it is longer than 30,000 but not than 50,000,
    and otherwise the input cut to at most 30,000 characters, which leaves
    it unchanged; so an input of 60,000 characters yields exactly 15,000,
    one of 40,000 yields 20,000, and one of 10,000 is returned as it is. *)
Theorem adaptive_truncation_policy (text : string) :
  let out := fst (adaptive_truncation text) in
  (50000 < Py.len text ->
     out = Py.take_str (Z.to_nat 15000) text /\ Py.len out = 15000)
  /\ (30000 < Py.len text <= 50000 ->
     out = Py.take_str (Z.to_nat 20000) text /\ Py.len out = 20000)
  /\ (Py.len text <= 30000 ->
     out = Py.take_str (Z.to_nat 30000) text /\ out = text)
  /\ (Py.len text = 60000 -> Py.len out = 15000)
  /\ (Py.len text = 40000 -> Py.len out = 20000)
  /\ (Py.len text = 10000 -> out = text).
Proof.
  cbv zeta. unfold adaptive_truncation.
  assert (Hlong : 50000 < Py.len text ->
            fst (if Py.len text >? 50000
                 then (Py.str_upto 15000 text, 4000)
                 else if Py.len text >? 30000
                      then (Py.str_upto 20000 text, 5000)
                      else (Py.str_upto 30000 text, 8000))
            = Py.str_upto 15000 text).
  { intros H. destruct (Z.gtb_spec (Py.len text) 50000); [reflexivity | lia]. }
  assert (Hmid : 30000 < Py.len text <= 50000 ->
            fst (if Py.len text >? 50000
                 then (Py.str_upto 15000 text, 4000)
                 else if Py.len text >? 30000
                      then (Py.str_upto 20000 text, 5000)
                      else (Py.str_upto 30000 text, 8000))
            = Py.str_upto 20000 text).
  { intros H. destruct (Z.gtb_spec (Py.len text) 50000); [lia |].
    destruct (Z.gtb_spec (Py.len text) 30000); [reflexivity | lia]. }
  assert (Hshort : Py.len text <= 30000 ->
            fst (if Py.len text >? 50000
                 then (Py.str_upto 15000 text, 4000)
                 else if Py.len text >? 30000
                      then (Py.str_upto 20000 text, 5000)
                      else (Py.str_upto 30000 text, 8000))
            = text).
  { intros H. destruct (Z.gtb_spec (Py.len text) 50000); [lia |].
    destruct (Z.gtb_spec (Py.len text) 30000); [lia |]. simpl.
    rewrite str_upto_take by lia. apply take_str_all.
    unfold Py.len in H. lia. }
  repeat split.
  - rewrite Hlong by assumption. apply str_upto_take; lia.
  - rewrite Hlong by assumption. rewrite str_upto_len; lia.
  - rewrite Hmid by assumption. apply str_upto_take; lia.
  - rewrite Hmid by assumption. rewrite str_upto_len; lia.
  - rewrite Hshort by assumption. symmetry. apply take_str_all.
    unfold Py.len in *. lia.
  - apply Hshort; assumption.
  - intros H. rewrite Hlong by lia. rewrite str_upto_len; lia.
  - intros H. rewrite Hmid by lia. rewrite str_upto_len; lia.
  - intros H. apply Hshort. lia.
Qed.

Lemma adaptive_truncation_policy_witness :
  Py.len (fst (adaptive_truncation (Py.repeat_char "a" (Z.to_nat 60000))))
  = 15000.
Proof.
  apply (adaptive_truncation_policy (Py.repeat_char "a" (Z.to_nat 60000))).
  unfold Py.len. rewrite repeat_char_length. lia.
Defined.

(** ** CheckpointStore *)

Module CheckpointFacts.
Import CheckpointManager.

Lemma retry_count_of_alter (f : Row -> Row) (batch_id : string)
    (t : gmap string Row) :
  retry_count_of batch_id (alter f batch_id t)
  = default 0 (retry_count <$> (f <$> t !! batch_id)).
Proof. unfold retry_count_of. rewrite lookup_alter_eq. reflexivity. Qed.

Lemma apply_op_keeps_retry_count (now : Q) (batch_id : string) (op : Op)
    (t : gmap string Row) :
  keeps_row op = true ->
  retry_count_of batch_id t
  <= retry_count_of batch_id (apply_op now batch_id op t).
Proof.
  intros Hop. destruct op; simpl in *; try discriminate;
    unfold increment_retry, mark_completed, mark_failed;
    rewrite retry_count_of_alter; unfold retry_count_of;
    destruct (t !! batch_id) as [r|]; simpl; lia.
Qed.

Lemma mark_in_progress_retry_count (now : Q) (batch_id lang split : string)
    (index size : Z) (t : gmap string Row) :
  retry_count_of batch_id
    (mark_in_progress now batch_id lang split index size t) = 0.
Proof.
  unfold retry_count_of, mark_in_progress. rewrite lookup_insert_eq.
  reflexivity.
Qed.

End CheckpointFacts.

(** C8, as the spec states it, fails: the sequence [mark_in_progress],
    [increment_retry], [mark_in_progress] on one key takes the stored
    [retry_count] through 0, 1, 0. *)
Lemma retry_count_decreases :
  retry_counts "python_train_batch_000000"
    [(0%Q, CheckpointManager.OpMarkInProgress "python" "train" 0 32);
     (1%Q, CheckpointManager.OpIncrementRetry);
     (2%Q, CheckpointManager.OpMarkInProgress "python" "train" 0 16)] ∅
  = [0; 0; 1; 0]
  /\ ~ nondecreasing
       (retry_counts "python_train_batch_000000"
          [(0%Q, CheckpointManager.OpMarkInProgress "python" "train" 0 32);
           (1%Q, CheckpointManager.OpIncrementRetry);
           (2%Q, CheckpointManager.OpMarkInProgress "python" "train" 0 16)] ∅).
Proof.
  assert (E : retry_counts "python_train_batch_000000"
    [(0%Q, CheckpointManager.OpMarkInProgress "python" "train" 0 32);
     (1%Q, CheckpointManager.OpIncrementRetry);
     (2%Q, CheckpointManager.OpMarkInProgress "python" "train" 0 16)] ∅
  = [0; 0; 1; 0]) by (vm_compute; reflexivity).
  split; [exact E|]. rewrite E. simpl. lia.
Qed.

(** C8, amended.  For every [batch_id], the stored [retry_count] never
    decreases across any sequence of [increment_retry], [mark_completed]
    and [mark_failed] applied to it; [mark_in_progress] replaces the row
    and stores [retry_count] 0 again. *)
Theorem retry_count_monotone (batch_id : string)
    (ops : list (Q * CheckpointManager.Op))
    (t : gmap string CheckpointManager.Row) :
  (Forall (fun op => keeps_row (snd op) = true) ops ->
     nondecreasing (retry_counts batch_id ops t))
  /\ (forall now lang split index size,
        CheckpointManager.retry_count_of batch_id
          (CheckpointManager.apply_op now batch_id
             (CheckpointManager.OpMarkInProgress lang split index size) t)
        = 0).
Proof.
  split.
  - intros Hops. revert t.
    induction Hops as [|[now op] ops Hop Hops IH]; intros t.
    + unfold retry_counts; simpl; exact I.
    + specialize (IH (CheckpointManager.apply_op now batch_id op t)).
      unfold retry_counts in *; simpl in *. split; [|exact IH].
      apply CheckpointFacts.apply_op_keeps_retry_count. exact Hop.
  - intros. simpl. apply CheckpointFacts.mark_in_progress_retry_count.
Qed.

Lemma retry_count_monotone_witness :
  nondecreasing
    (retry_counts "python_train_batch_000000"
       [(1%Q, CheckpointManager.OpIncrementRetry);
        (2%Q, CheckpointManager.OpMarkFailed "Failed after 5 retries")]
       (CheckpointManager.mark_in_progress 0%Q "python_train_batch_000000"
          "python" "train" 0 32 ∅)).
Proof.
  apply (retry_count_monotone "python_train_batch_000000").
  repeat constructor.
Defined.

(** ** RateLimiter *)

(** *** Floats *)

Module Float64Facts.
Import Float64.

Lemma pow2_pos (e : Z) : (0 < pow2 e)%Q.
Proof.
  unfold pow2. destruct (Z.leb_spec 0 e).
  - change 0%Q with (inject_Z 0). rewrite <- Zlt_Qlt. apply Z.pow_pos_nonneg; lia.
  - reflexivity.
Qed.

Lemma pow2_le_neg (e b : Z) : e <= b -> b < 0 -> (pow2 e <= pow2 b)%Q.
Proof.
  intros He Hb. unfold pow2.
  destruct (Z.leb_spec 0 e); [lia|]. destruct (Z.leb_spec 0 b); [lia|].
  unfold Qle. simpl.
  assert (0 < 2 ^ (- b)) by (apply Z.pow_pos_nonneg; lia).
  assert (0 < 2 ^ (- e)) by (apply Z.pow_pos_nonneg; lia).
  rewrite !Z2Pos.id by assumption. rewrite !Z.mul_1_l.
  apply Z.pow_le_mono_r; lia.
Qed.

Lemma nearest_even_error (y : Q) :
  (- (1 # 2) <= inject_Z (nearest_even y) - y <= 1 # 2)%Q.
Proof.
  unfold nearest_even.
  pose proof (Qfloor_le y) as Hlo. pose proof (Qlt_floor y) as Hhi.
  rewrite inject_Z_plus in Hhi. change (inject_Z 1) with 1%Q in Hhi.
  destruct (y - inject_Z (Qfloor y) ?= 1 # 2)%Q eqn:E.
  - apply Qeq_alt in E. destruct (Z.even (Qfloor y)).
    + lra.
    + rewrite inject_Z_plus. change (inject_Z 1) with 1%Q. lra.
  - apply Qlt_alt in E. lra.
  - apply Qgt_alt in E. rewrite inject_Z_plus.
    change (inject_Z 1) with 1%Q. lra.
Qed.

Lemma nearest_even_nonneg (y : Q) : (0 <= y)%Q -> 0 <= nearest_even y.
Proof.
  intros Hy. assert (0 <= Qfloor y).
  { change 0 with (Qfloor 0). apply Qfloor_resp_le, Hy. }
  unfold nearest_even.
  destruct (y - inject_Z (Qfloor y) ?= 1 # 2)%Q; [|lia|lia].
  destruct (Z.even (Qfloor y)); lia.
Qed.

(** The first guess of the exponent of a positive number that is at most
    [2 ** b]. *)
Lemma exponent_le (x : Q) (b : Z) :
  (0 < x)%Q -> 0 <= b -> (x <= inject_Z (2 ^ b))%Q -> exponent x <= b.
Proof.
  intros Hx Hb Hle. unfold exponent.
  assert (Z.log2 (Qnum x) - Z.log2 (Z.pos (Qden x)) <= b).
  { destruct x as [p q]. unfold Qle, Qlt in *. cbn [Qnum Qden inject_Z] in *.
    assert (Hp : 0 < p) by lia.
    assert (Z.log2 p <= Z.log2 (Z.pos q * 2 ^ b)).
    { apply Z.log2_le_mono. rewrite Z.mul_1_r in Hle.
      rewrite (Z.mul_comm (Z.pos q)). exact Hle. }
    rewrite Z.log2_mul_pow2 in H by lia. lia. }
  destruct (Qle_bool _ _); lia.
Qed.

Lemma round_pos_spec (x : Q) :
  (round_pos x
   == inject_Z (nearest_even (x / pow2 (exponent x - 52)))
      * pow2 (exponent x - 52))%Q.
Proof. unfold round_pos. apply Qred_correct. Qed.

Lemma round_pos_nonneg (x : Q) : (0 < x)%Q -> (0 <= round_pos x)%Q.
Proof.
  intros Hx. rewrite round_pos_spec.
  pose proof (pow2_pos (exponent x - 52)) as Hp.
  apply Qmult_le_0_compat; [|lra].
  change 0%Q with (inject_Z 0). rewrite <- Zle_Qle.
  apply nearest_even_nonneg. apply Qlt_le_weak.
  apply Qlt_shift_div_l; [exact Hp|]. lra.
Qed.

Lemma round_pos_error (x : Q) :
  (0 < x)%Q -> (x <= inject_Z (2 ^ 32))%Q ->
  (- eps <= round_pos x - x <= eps)%Q.
Proof.
  intros Hx Hle. rewrite round_pos_spec.
  set (e := exponent x - 52).
  pose proof (pow2_pos e) as Hp.
  pose proof (nearest_even_error (x / pow2 e)) as Herr.
  assert (He : (pow2 e <= pow2 (-20))%Q).
  { apply pow2_le_neg; [|lia]. unfold e.
    pose proof (exponent_le x 32 Hx ltac:(lia) Hle). lia. }
  change (pow2 (-20)) with (1 # 1048576)%Q in He.
  set (m := inject_Z (nearest_even (x / pow2 e))) in *.
  assert (Hx' : (x == (x / pow2 e) * pow2 e)%Q).
  { field. lra. }
  set (y := (x / pow2 e)%Q) in *.
  assert (Hd : (m * pow2 e - x == (m - y) * pow2 e)%Q).
  { rewrite Hx' at 1. ring. }
  rewrite Hd. unfold eps.
  split.
  - assert ((m - y) * pow2 e >= - (1 # 2) * pow2 e)%Q.
    { apply Qmult_le_compat_r; lra. }
    lra.
  - assert ((m - y) * pow2 e <= (1 # 2) * pow2 e)%Q.
    { apply Qmult_le_compat_r; lra. }
    lra.
Qed.

Lemma Qnum_sign (x : Q) :
  match Qnum x with
  | Z0 => (x == 0)%Q
  | Zpos _ => (0 < x)%Q
  | Zneg _ => (x < 0)%Q
  end.
Proof.
  destruct x as [[|p|p] q]; unfold Qeq, Qlt; simpl; lia.
Qed.

(** Rounding a value of magnitude at most [2 ** 32] moves it by at most
    [eps]. *)
Lemma round_error (x : Q) :
  (- inject_Z (2 ^ 32) <= x <= inject_Z (2 ^ 32))%Q ->
  (- eps <= round x - x <= eps)%Q.
Proof.
  intros [Hlo Hhi]. unfold round. pose proof (Qnum_sign x) as Hs.
  destruct (Qnum x).
  - unfold eps. lra.
  - apply round_pos_error; assumption.
  - pose proof (round_pos_error (- x) ltac:(lra) ltac:(lra)). lra.
Qed.

Lemma round_nonneg (x : Q) : (0 <= x)%Q -> (0 <= round x)%Q.
Proof.
  intros Hx. unfold round. pose proof (Qnum_sign x) as Hs.
  destruct (Qnum x); [lra | apply round_pos_nonneg; exact Hs | lra].
Qed.

(** The rounding agrees with the doubles of the literals the scripts use, and
    breaks ties to the even significand. *)
Example round_known_doubles :
  Float64.round 0.6 = (5404319552844595 # 9007199254740992)%Q
  /\ Float64.round 0.1 = (3602879701896397 # 36028797018963968)%Q
  /\ Float64.round 100.6 = (3539547832136499 # 35184372088832)%Q
  /\ Float64.round (- (1 # 3)) = (- (6004799503160661 # 18014398509481984))%Q
  /\ Float64.round 100.125 = (801 # 8)%Q
  /\ Float64.round (inject_Z (2 ^ 53 + 1)) = inject_Z (2 ^ 53)
  /\ Float64.round (inject_Z (2 ^ 53 + 3)) = inject_Z (2 ^ 53 + 4)
  /\ Float64.sub 0.5 0.25 = (1 # 4)%Q.
Proof. vm_compute. repeat split; reflexivity. Qed.

End Float64Facts.

(** *** The shared timestamp *)

Module RateLimiterFacts.
Import RateLimiter.

Lemma Qltb_true (a b : Q) : Qltb a b = true -> (a < b)%Q.
Proof.
  unfold Qltb. intros H. apply negb_true_iff in H.
  destruct (Qlt_le_dec a b) as [Hlt|Hle]; [exact Hlt|].
  apply Qle_bool_iff in Hle. congruence.
Qed.

Lemma Qltb_false (a b : Q) : Qltb a b = false -> (b <= a)%Q.
Proof.
  unfold Qltb. intros H. apply negb_false_iff in H.
  apply Qle_bool_iff. exact H.
Qed.

Lemma locked_accesses_app (a b : list Access) :
  locked_accesses (a ++ b) = locked_accesses a && locked_accesses b.
Proof.
  induction a as [|x a IH]; [reflexivity|].
  destruct x as [| |h v|h v|d]; simpl; try exact IH;
    rewrite IH; destruct h; reflexivity.
Qed.

(** The float of the literal [0.6] lies just below 0.6. *)
Lemma literal_0_6_value :
  literal_0_6 = (5404319552844595 # 9007199254740992)%Q.
Proof. vm_compute. reflexivity. Qed.

(** The readings and the differences of one call, with what rounding can
    do to each, while the clock is below the horizon. *)
Lemma roundings_in_range (T1 T2 last : Q) :
  (0 <= T1 <= T2)%Q -> (T2 <= horizon)%Q ->
  (- (1) <= last <= horizon + 1)%Q ->
  let t1 := Float64.round T1 in
  let elapsed := Float64.sub t1 last in
  let sleep_time := Float64.sub literal_0_6 elapsed in
  (- Float64.eps <= t1 - T1 <= Float64.eps)%Q
  /\ (- Float64.eps <= elapsed - (t1 - last) <= Float64.eps)%Q
  /\ ((elapsed < literal_0_6)%Q ->
      (- Float64.eps <= sleep_time - (literal_0_6 - elapsed)
       <= Float64.eps)%Q)
  /\ (- Float64.eps <= Float64.round T2 - T2 <= Float64.eps)%Q.
Proof.
  unfold horizon, Float64.eps. intros HT HT2 Hlast. cbv zeta.
  pose proof (Float64Facts.round_error T1) as E1.
  change (inject_Z (2 ^ 32)) with 4294967296%Q in E1.
  unfold Float64.eps in E1. specialize (E1 ltac:(lra)).
  pose proof (Float64Facts.round_error (Float64.round T1 - last)) as E2.
  change (inject_Z (2 ^ 32)) with 4294967296%Q in E2.
  unfold Float64.eps in E2. specialize (E2 ltac:(lra)).
  pose proof (Float64Facts.round_error T2) as E4.
  change (inject_Z (2 ^ 32)) with 4294967296%Q in E4.
  unfold Float64.eps in E4. specialize (E4 ltac:(lra)).
  unfold Float64.sub. rewrite literal_0_6_value.
  split; [exact E1|]. split; [exact E2|]. split; [|exact E4].
  intros Hlt.
  pose proof (Float64Facts.round_error
                ((5404319552844595 # 9007199254740992)
                 - Float64.round (Float64.round T1 - last))) as E3.
  change (inject_Z (2 ^ 32)) with 4294967296%Q in E3.
  unfold Float64.eps in E3. apply E3. lra.
Qed.

(** One call from a state in which the lock is free: it is granted, the
    clock does not run backwards, it stores the reading of the clock it
    takes last, it leaves the lock free, and it touches the shared
    timestamp only while it holds the lock.  While the clock is below the
    horizon, the timestamp it stores is at least [min_interval] less
    [rounding_slack] after the one it found. *)
Lemma rate_limited_sleep_granted (env : Delays) (s : State) :
  nonneg env -> rate_lock s = false ->
  exists s', rate_limited_sleep env s = Some s'
    /\ (clock s <= clock s')%Q
    /\ last_request_time s' = Float64.round (clock s')
    /\ rate_lock s' = false
    /\ (exists new, trace s' = new ++ trace s /\ locked_accesses new = true)
    /\ (in_range s -> (clock s' <= horizon)%Q ->
        (last_request_time s + min_interval - rounding_slack
         <= last_request_time s')%Q
        /\ in_range s').
Proof.
  intros (H1 & H2 & H3) Hfree.
  unfold rate_limited_sleep, lock_acquire, read_shared, time_time, pass.
  cbn [rate_lock clock last_request_time trace]. rewrite Hfree.
  cbn [rate_lock clock last_request_time trace].
  set (T1 := (clock s + before_lock env)%Q).
  set (t1 := Float64.round T1).
  set (elapsed := Float64.sub t1 (last_request_time s)).
  destruct (Qltb elapsed literal_0_6) eqn:E.
  - apply Qltb_true in E.
    set (sleep_time := Float64.sub literal_0_6 elapsed).
    assert (Hsleep : (0 <= sleep_time)%Q).
    { apply Float64Facts.round_nonneg. lra. }
    eexists. split; [reflexivity|].
    cbn [lock_release write_shared pass time_sleep time_time clock
         last_request_time rate_lock trace].
    split; [unfold T1; lra|]. split; [reflexivity|]. split; [reflexivity|].
    split; [eexists [_; _; _; _; _]; split; reflexivity|].
    intros (Hc & Hl) Hh.
    set (T2 := (T1 + sleep_time + oversleep env + before_store env)%Q) in *.
    destruct (roundings_in_range T1 T2 (last_request_time s))
      as (E1 & E2 & E3 & E4); [unfold T2, T1; lra|exact Hh|exact Hl|].
    specialize (E3 E). fold t1 elapsed sleep_time in E1, E2, E3.
    rewrite literal_0_6_value in *.
    unfold in_range, min_interval, rounding_slack, horizon, Float64.eps in *.
    cbn [lock_release write_shared clock last_request_time].
    split; [|split]; unfold T2, T1 in *; lra.
  - apply Qltb_false in E.
    eexists. split; [reflexivity|].
    cbn [lock_release write_shared pass time_sleep time_time clock
         last_request_time rate_lock trace].
    split; [unfold T1; lra|]. split; [reflexivity|]. split; [reflexivity|].
    split; [eexists [_; _; _; _]; split; reflexivity|].
    intros (Hc & Hl) Hh.
    set (T2 := (T1 + before_store env)%Q) in *.
    destruct (roundings_in_range T1 T2 (last_request_time s))
      as (E1 & E2 & _ & E4); [unfold T2, T1; lra|exact Hh|exact Hl|].
    fold t1 elapsed in E1, E2.
    rewrite literal_0_6_value in *.
    unfold in_range, min_interval, rounding_slack, horizon, Float64.eps in *.
    cbn [lock_release write_shared clock last_request_time].
    split; [|split]; unfold T2, T1 in *; lra.
Qed.

Lemma step_spacing (s s' : State) :
  rate_lock s = false -> step s s' ->
  rate_lock s' = false
  /\ (in_range s -> (clock s' <= horizon)%Q ->
      (last_request_time s + min_interval - rounding_slack
       <= last_request_time s')%Q).
Proof.
  intros Hfree Hstep. destruct Hstep as [env s s' Henv Hcall].
  destruct (rate_limited_sleep_granted env s Henv Hfree)
    as (s1 & E & _ & _ & Hfree' & _ & Hgap).
  rewrite E in Hcall. injection Hcall as <-.
  split; [exact Hfree'|]. intros Hr Hh. apply Hgap; assumption.
Qed.

End RateLimiterFacts.

(** A sequence of calls from a state in which the lock is free. *)
Lemma run_granted (envs : list RateLimiter.Delays) :
  Forall RateLimiter.nonneg envs ->
  forall s,
    RateLimiter.rate_lock s = false ->
    exists ts s',
      RateLimiter.run envs s = Some (ts, s')
      /\ length ts = length envs
      /\ (RateLimiter.clock s <= RateLimiter.clock s')%Q
      /\ RateLimiter.rate_lock s' = false
      /\ (exists new,
            RateLimiter.trace s' = new ++ RateLimiter.trace s
            /\ RateLimiter.locked_accesses new = true)
      /\ (RateLimiter.in_range s ->
          (RateLimiter.clock s' <= RateLimiter.horizon)%Q ->
          RateLimiter.spaced_within RateLimiter.rounding_slack
            (RateLimiter.last_request_time s :: ts)).
Proof.
  induction 1 as [|env envs Henv Henvs IH]; intros s Hfree.
  - exists [], s. simpl. split; [reflexivity|]. split; [reflexivity|].
    split; [lra|]. split; [exact Hfree|].
    split; [exists []; split; reflexivity|]. intros _ _. exact I.
  - destruct (RateLimiterFacts.rate_limited_sleep_granted env s Henv Hfree)
      as (s1 & E & Hc1 & _ & Hfree1 & (new1 & Htr1 & Hlk1) & Hgap).
    destruct (IH s1 Hfree1)
      as (ts & s2 & Erun & Hlen & Hc2 & Hfree2 & (new2 & Htr2 & Hlk2) & Hsp).
    exists (RateLimiter.last_request_time s1 :: ts), s2.
    simpl. rewrite E, Erun. split; [reflexivity|].
    split; [simpl; congruence|]. split; [lra|]. split; [exact Hfree2|].
    split.
    + exists (new2 ++ new1). split.
      * rewrite Htr2, Htr1. apply app_assoc.
      * rewrite RateLimiterFacts.locked_accesses_app, Hlk1, Hlk2. reflexivity.
    + intros Hr Hh. destruct (Hgap Hr ltac:(lra)) as (Hg & Hr1).
      split; [exact Hg|]. apply Hsp; assumption.
Qed.

(** C6, as the spec states it, fails: the timestamps are floats.  The
    first call finds the clock at 99 s, is granted a second later without
    sleeping and stores 100.0.  The second call gets the lock an eighth of
    a second later, computes an elapsed time of 0.125 and sleeps the float
    of 0.6 - 0.125, to the instant 100.6 less 2.2e-17 s; the float nearest
    to it is the one just below 100.6, and the two timestamps are
    0.5999999999999943 s apart. *)
Lemma consecutive_stamps_below_interval :
  (fst <$> RateLimiter.run RateLimiterSample.two_calls
             RateLimiterSample.state0)
  = Some [100%Q; (3539547832136499 # 35184372088832)%Q]
  /\ ~ RateLimiter.spaced [100%Q; (3539547832136499 # 35184372088832)%Q].
Proof.
  split; [vm_compute; reflexivity|].
  intros [H _]. unfold RateLimiter.min_interval in H. lra.
Qed.

(** C6, amended.  For every sequence of calls of [rate_limited_sleep], run
    one after the other on the shared state from a state in which the lock
    is free, with a sleep that lasts at least the time asked for and no
    negative delay: every call is granted, every read and write of the
    shared timestamp is made while the shared lock is held, and, while the
    clock reads at most 4,000,000,000 s, any two consecutive granted calls
    record timestamps at least 0.6 s less 5 * 2 ** -21 s (about 2.4
    microseconds, the rounding of the floats) apart, the first one that
    much after the timestamp it found. *)
Theorem rate_limiter_min_interval (envs : list RateLimiter.Delays)
    (s : RateLimiter.State) :
  Forall RateLimiter.nonneg envs ->
  RateLimiter.rate_lock s = false ->
  exists ts s',
    RateLimiter.run envs s = Some (ts, s')
    /\ length ts = length envs
    /\ RateLimiter.rate_lock s' = false
    /\ (exists new,
          RateLimiter.trace s' = new ++ RateLimiter.trace s
          /\ RateLimiter.locked_accesses new = true)
    /\ (RateLimiter.in_range s ->
        (RateLimiter.clock s' <= RateLimiter.horizon)%Q ->
        RateLimiter.spaced_within RateLimiter.rounding_slack
          (RateLimiter.last_request_time s :: ts)).
Proof.
  intros Henvs Hfree.
  destruct (run_granted envs Henvs s Hfree)
    as (ts & s' & Erun & Hlen & _ & Hfree' & Htrace & Hsp).
  exists ts, s'. repeat (split; [assumption|]). exact Hsp.
Qed.

Lemma rate_limiter_min_interval_witness :
  exists ts s',
    RateLimiter.run RateLimiterSample.two_calls RateLimiterSample.state0
    = Some (ts, s')
    /\ length ts = 2%nat
    /\ RateLimiter.rate_lock s' = false
    /\ (exists new,
          RateLimiter.trace s'
          = new ++ RateLimiter.trace RateLimiterSample.state0
          /\ RateLimiter.locked_accesses new = true)
    /\ RateLimiter.spaced_within RateLimiter.rounding_slack
         (RateLimiter.last_request_time RateLimiterSample.state0 :: ts).
Proof.
  destruct (rate_limiter_min_interval RateLimiterSample.two_calls
              RateLimiterSample.state0)
    as (ts & s' & Erun & Hlen & Hfree & Htrace & Hsp).
  - repeat constructor; simpl; unfold Qle; simpl; lia.
  - reflexivity.
  - exists ts, s'. split; [exact Erun|]. split; [exact Hlen|].
    split; [exact Hfree|]. split; [exact Htrace|].
    apply Hsp.
    + split; [|split]; vm_compute; discriminate.
    + assert (E := Erun). vm_compute in E. injection E as <- <-.
      vm_compute. discriminate.
Defined.

(** ** Batch identifiers *)

Lemma append_cancel (p a b : string) : p +:+ a = p +:+ b -> a = b.
Proof.
  induction p as [|c p IH]; cbn; intros H; [exact H|].
  injection H as H. apply IH, H.
Qed.


Lemma parse_decimal_zeros (k : nat) (s : string) :
  parse_decimal (Py.zeros k +:+ s) = parse_decimal s.
Proof.
  induction k as [|k IH]; [reflexivity|].
  rewrite <- IH. unfold parse_decimal.
  change (NilEmpty.uint_of_string (Py.zeros (S k) +:+ s))
    with (DecimalString.uint_of_char "0"
            (NilEmpty.uint_of_string (Py.zeros k +:+ s))).
  destruct (NilEmpty.uint_of_string (Py.zeros k +:+ s)) as [d|]; reflexivity.
Qed.

Lemma parse_decimal_to_uint (n : N) :
  parse_decimal (NilZero.string_of_uint (N.to_uint n)) = Some n.
Proof.
  unfold parse_decimal.
  assert (Hnn : N.to_uint n <> Decimal.Nil).
  { destruct n; simpl; [discriminate | apply DecimalPos.Unsigned.to_uint_nonnil]. }
  pose proof (NilZero.usu _ Hnn) as Hu.
  unfold NilZero.uint_of_string in Hu.
  destruct (NilZero.string_of_uint (N.to_uint n)) eqn:E; [discriminate|].
  rewrite Hu. simpl. f_equal. apply DecimalN.Unsigned.of_to.
Qed.

Lemma parse_format_06d (z : Z) :
  0 <= z -> parse_decimal (Py.format_06d z) = Some (Z.to_N z).
Proof.
  intros Hz. unfold Py.format_06d.
  destruct (Z.ltb_spec z 0); [lia|].
  rewrite parse_decimal_zeros. apply parse_decimal_to_uint.
Qed.

(** Within one partition, distinct offsets have distinct batch ids. *)
Lemma make_batch_id_inj (lang split : string) (a b : Z) :
  0 <= a -> 0 <= b ->
  make_batch_id lang split a = make_batch_id lang split b -> a = b.
Proof.
  intros Ha Hb H. unfold make_batch_id in H.
  do 4 apply append_cancel in H.
  apply (f_equal parse_decimal) in H.
  rewrite !parse_format_06d in H by assumption.
  injection H as H. lia.
Qed.

Lemma prefix_append (p s : string) : String.prefix p (p +:+ s) = true.
Proof.
  induction p as [|c p IH]; [destruct s; reflexivity|].
  change (String c p +:+ s) with (String c (p +:+ s)). simpl.
  destruct (ascii_dec c c); [exact IH | congruence].
Qed.

Lemma contains_append (p s : string) : Py.contains p (p +:+ s) = true.
Proof.
  assert (U : forall hay, Py.contains p hay =
            if String.prefix p hay then true
            else match hay with
                 | EmptyString => false
                 | String _ hay' => Py.contains p hay'
                 end) by (intros [|c hay]; reflexivity).
  rewrite U, prefix_append. reflexivity.
Qed.

(** ** EmbeddingClient *)

Section RetryFacts.

Context {Vec : Type}.
Implicit Types (w : World Vec) (api : Api Vec).

Lemma calls_backoff retry batch_id w :
  calls (backoff retry batch_id w) = calls w.
Proof. unfold backoff. destruct (retry >? 0); reflexivity. Qed.

Lemma now_backoff retry batch_id w :
  (now w <= now (backoff retry batch_id w))%Q.
Proof.
  unfold backoff. destruct (retry >? 0); simpl; [|lra].
  assert (H : 0 <= 10 * 3 ^ (retry - 1)).
  { apply Z.mul_nonneg_nonneg; [lia|]. apply Z.pow_nonneg. lia. }
  assert (H' : (0 <= inject_Z (10 * 3 ^ (retry - 1)))%Q).
  { unfold Qle, inject_Z; simpl. lia. }
  lra.
Qed.

(** A retryable answer uses up the current value of [retry] and nothing
    else: the loop goes on with the remaining values. *)
Lemma retry_loop_continue api max_retries retry rest batch batch_id w :
  retryable (api (calls w) batch) = true ->
  retry_loop api max_retries (retry :: rest) batch batch_id w
  = retry_loop api max_retries rest batch batch_id
      (after_retryable api retry batch batch_id w).
Proof.
  intros Hr. simpl. unfold after_retryable, requests_post.
  rewrite calls_backoff.
  destruct (api (calls w) batch) as [response|e]; simpl in *.
  - destruct (Z.eqb_spec (status_code response) 400) as [E|_].
    + rewrite E. simpl.
      destruct (Py.contains "max allowed tokens" (Py.lower (text response)));
        [discriminate | reflexivity].
    + destruct (status_code response =? 429); [reflexivity|].
      destruct (status_code response =? 503); [reflexivity|].
      destruct (status_code response =? 200); simpl in *; [|reflexivity].
      destruct (json response) as [v|e]; [discriminate|].
      destruct (exn_class e); try reflexivity; discriminate.
  - destruct (exn_class e); try reflexivity; discriminate.
Qed.

Lemma calls_after_retryable api retry batch batch_id w :
  calls (after_retryable api retry batch batch_id w) = S (calls w).
Proof.
  unfold after_retryable, requests_post.
  destruct (is_429 _); simpl; rewrite calls_backoff; reflexivity.
Qed.

(** A token-limit answer ends the loop at once with the [ValueError] of
    line 216. *)
Lemma retry_loop_token_limit api max_retries retry rest batch batch_id w :
  token_limit_400 (api (calls w) batch) = true ->
  exists body,
    retry_loop api max_retries (retry :: rest) batch batch_id w
    = (Raise (Exn ValueErrorCls ("Token limit exceeded: " +:+ body)),
       snd (requests_post api batch (backoff retry batch_id w))).
Proof.
  intros Ht. simpl. unfold requests_post. rewrite calls_backoff.
  destruct (api (calls w) batch) as [response|e]; simpl in *; [|discriminate].
  apply andb_true_iff in Ht as [H400 Hc]. rewrite H400, Hc.
  exists (text response). reflexivity.
Qed.

(** A good answer ends the loop at once with the vectors. *)
Lemma retry_loop_good api max_retries retry rest batch batch_id w model :
  good_answer model batch (api (calls w) batch) ->
  retry_loop api max_retries (retry :: rest) batch batch_id w
  = (Return (map model batch),
     snd (requests_post api batch (backoff retry batch_id w))).
Proof.
  intros [txt Hg]. simpl. unfold requests_post. rewrite calls_backoff, Hg.
  reflexivity.
Qed.

(** *** What the retry loop can change *)

Lemma touches_only_refl batch_id w : touches_only batch_id w w.
Proof.
  split; [reflexivity|]. split; [reflexivity|]. split; [eauto|].
  exists []. reflexivity.
Qed.

Lemma touches_only_trans batch_id w1 w2 w3 :
  touches_only batch_id w1 w2 -> touches_only batch_id w2 w3 ->
  touches_only batch_id w1 w3.
Proof.
  intros (F1 & O1 & R1 & n1 & L1) (F2 & O2 & R2 & n2 & L2).
  split; [|split; [|split]].
  - congruence.
  - intros k Hk. rewrite O2, O1 by exact Hk. reflexivity.
  - intros r Hr. destruct (R1 r Hr) as (r1 & Hr1 & S1).
    destruct (R2 r1 Hr1) as (r2 & Hr2 & S2).
    exists r2. split; [exact Hr2|]. destruct S1, S2; intuition congruence.
  - exists (n2 ++ n1). rewrite L2, L1. apply app_assoc.
Qed.

Lemma touches_only_alter batch_id
    (f : CheckpointManager.Row -> CheckpointManager.Row) w :
  (forall r, CheckpointManager.status (f r) = CheckpointManager.status r
             \/ CheckpointManager.status (f r) = CheckpointManager.failed) ->
  touches_only batch_id w (commit (alter f batch_id (db w)) w).
Proof.
  intros Hf. split; [reflexivity|]. split; [|split]; simpl.
  - intros k Hk. apply lookup_alter_ne. congruence.
  - intros r Hr. rewrite lookup_alter_eq, Hr. simpl. eauto.
  - exists [EvDurable (alter f batch_id (db w)) (file w)]. reflexivity.
Qed.

Lemma touches_only_increment_retry batch_id w :
  touches_only batch_id w (ckpt_increment_retry batch_id w).
Proof. apply touches_only_alter. intros r. left. reflexivity. Qed.

Lemma touches_only_mark_failed batch_id msg w :
  touches_only batch_id w (ckpt_mark_failed batch_id msg w).
Proof. apply touches_only_alter. intros r. right. reflexivity. Qed.

Lemma touches_only_sleep batch_id d w : touches_only batch_id w (sleep d w).
Proof.
  split; [reflexivity|]. split; [reflexivity|]. split; [eauto|].
  exists [EvSleep d]. reflexivity.
Qed.

Lemma touches_only_post batch_id api batch w :
  touches_only batch_id w (snd (requests_post api batch w)).
Proof.
  split; [reflexivity|]. split; [reflexivity|]. split; [simpl; eauto|].
  exists [EvPost (now w) batch]. reflexivity.
Qed.

Lemma touches_only_backoff batch_id retry w :
  touches_only batch_id w (backoff retry batch_id w).
Proof.
  unfold backoff. destruct (retry >? 0); [|apply touches_only_refl].
  eapply touches_only_trans; [|apply touches_only_sleep].
  apply touches_only_increment_retry.
Qed.

Lemma touches_only_retry_loop api max_retries retries batch batch_id w :
  touches_only batch_id w
    (snd (retry_loop api max_retries retries batch batch_id w)).
Proof.
  revert w. induction retries as [|retry rest IH]; intros w.
  - simpl. apply touches_only_mark_failed.
  - assert (Hpost : touches_only batch_id w
              (snd (requests_post api batch (backoff retry batch_id w)))).
    { eapply touches_only_trans;
        [apply touches_only_backoff | apply touches_only_post]. }
    assert (Hnext : forall w2, touches_only batch_id w w2 ->
              touches_only batch_id w
                (snd (retry_loop api max_retries rest batch batch_id w2))).
    { intros w2 H2. eapply touches_only_trans; [exact H2 | apply IH]. }
    simpl. unfold requests_post in *. simpl in Hpost.
    destruct (api (calls (backoff retry batch_id w)) batch) as [response|e].
    + destruct (status_code response =? 400).
      { destruct (Py.contains _ _); [exact Hpost | apply Hnext, Hpost]. }
      destruct (status_code response =? 429).
      { apply Hnext. eapply touches_only_trans;
          [exact Hpost | apply touches_only_sleep]. }
      destruct (status_code response =? 503); [apply Hnext, Hpost|].
      destruct (status_code response =? 200); simpl; [|apply Hnext, Hpost].
      destruct (json response) as [v|e]; [exact Hpost|].
      destruct (exn_class e); try apply Hnext, Hpost; exact Hpost.
    + destruct (exn_class e); try apply Hnext, Hpost; exact Hpost.
Qed.

Lemma touches_only_after_retryable api retry batch batch_id w :
  touches_only batch_id w (after_retryable api retry batch batch_id w).
Proof.
  unfold after_retryable.
  assert (Hpost : touches_only batch_id w
            (snd (requests_post api batch (backoff retry batch_id w)))).
  { eapply touches_only_trans;
      [apply touches_only_backoff | apply touches_only_post]. }
  unfold requests_post in *. simpl in *.
  destruct (is_429 _); [|exact Hpost].
  eapply touches_only_trans; [exact Hpost | apply touches_only_sleep].
Qed.

End RetryFacts.

Section RetryBudget.

Context {Vec : Type}.
Implicit Types (w : World Vec) (api : Api Vec).

(** [j] retryable answers in a row use up the first [j] values of
    [retry]. *)
Lemma retry_loop_prefix api max_retries batch batch_id (j : nat) :
  forall retries w,
    (j <= length retries)%nat ->
    (forall k, (k < j)%nat -> retryable (api (calls w + k)%nat batch) = true) ->
    exists w1,
      retry_loop api max_retries retries batch batch_id w
      = retry_loop api max_retries (drop j retries) batch batch_id w1
      /\ calls w1 = (calls w + j)%nat
      /\ touches_only batch_id w w1.
Proof.
  induction j as [|j IH]; intros retries w Hlen Hall.
  - exists w. rewrite drop_0, Nat.add_0_r.
    split; [reflexivity|]. split; [reflexivity|]. apply touches_only_refl.
  - destruct retries as [|retry rest]; [simpl in Hlen; lia|].
    rewrite retry_loop_continue
      by (specialize (Hall O); rewrite Nat.add_0_r in Hall; apply Hall; lia).
    destruct (IH rest (after_retryable api retry batch batch_id w))
      as (w1 & E & Hc & Ht).
    + simpl in Hlen. lia.
    + intros k Hk. rewrite calls_after_retryable.
      replace (S (calls w) + k)%nat with (calls w + S k)%nat by lia.
      apply Hall. lia.
    + exists w1. split; [exact E|]. split.
      * rewrite Hc, calls_after_retryable. lia.
      * eapply touches_only_trans; [apply touches_only_after_retryable | exact Ht].
Qed.

(** Retryable answers to all the attempts: the code after the loop marks
    the batch failed and raises. *)
Lemma retry_loop_exhausted api max_retries batch batch_id retries w :
  (forall k, (k < length retries)%nat ->
     retryable (api (calls w + k)%nat batch) = true) ->
  exists w1,
    retry_loop api max_retries retries batch batch_id w
    = (Raise (Exn ExceptionCls
                ("Failed after " +:+ Py.str_of_Z max_retries +:+ " retries")),
       ckpt_mark_failed batch_id
         ("Failed after " +:+ Py.str_of_Z max_retries +:+ " retries") w1)
    /\ calls w1 = (calls w + length retries)%nat
    /\ touches_only batch_id w w1.
Proof.
  intros Hall.
  destruct (retry_loop_prefix api max_retries batch batch_id
              (length retries) retries w (Nat.le_refl _) Hall)
    as (w1 & E & Hc & Ht).
  exists w1. rewrite E, drop_all. simpl. auto.
Qed.

Lemma is_429_retryable (r : PostResult Vec) :
  is_429 r = true -> retryable r = true.
Proof.
  destruct r as [response|e]; simpl; [|discriminate].
  intros H. apply Z.eqb_eq in H. rewrite H. reflexivity.
Qed.

Lemma post_times_app (a b : list (Event Vec)) :
  post_times (a ++ b) = post_times b ++ post_times a.
Proof.
  induction a as [|e a IH]; simpl; [rewrite app_nil_r; reflexivity|].
  destruct e; rewrite IH; [rewrite app_assoc|..]; reflexivity.
Qed.

Lemma apart_cons (d t : Q) (ts : list Q) :
  Forall (fun x => (t + d <= x)%Q) ts -> apart d ts -> apart d (t :: ts).
Proof.
  intros Hall Hts. destruct ts as [|b ts]; [exact I|].
  split; [|exact Hts]. inversion Hall; assumption.
Qed.

Lemma log_backoff retry batch_id w :
  exists new, log (backoff retry batch_id w) = new ++ log w
              /\ post_times new = [].
Proof.
  unfold backoff. destruct (retry >? 0); simpl.
  - eexists [_; _]. split; reflexivity.
  - exists []. split; reflexivity.
Qed.

(** Answers 429 to all the attempts: one request per value of [retry],
    each at least 60 seconds after the one before. *)
Lemma retry_loop_all_429 api max_retries batch batch_id retries :
  forall w,
    (forall k, (k < length retries)%nat ->
       is_429 (api (calls w + k)%nat batch) = true) ->
    exists w1 new,
      retry_loop api max_retries retries batch batch_id w
      = (Raise (Exn ExceptionCls
                  ("Failed after " +:+ Py.str_of_Z max_retries +:+ " retries")),
         ckpt_mark_failed batch_id
           ("Failed after " +:+ Py.str_of_Z max_retries +:+ " retries") w1)
      /\ log w1 = new ++ log w
      /\ length (post_times new) = length retries
      /\ apart 60 (post_times new)
      /\ Forall (fun t => (now w <= t)%Q) (post_times new).
Proof.
  induction retries as [|retry rest IH]; intros w Hall.
  - exists w, []. simpl. repeat split; constructor.
  - assert (H0 : is_429 (api (calls w) batch) = true).
    { specialize (Hall O). rewrite Nat.add_0_r in Hall. apply Hall. simpl. lia. }
    rewrite retry_loop_continue by (apply is_429_retryable, H0).
    destruct (IH (after_retryable api retry batch batch_id w))
      as (w1 & new & E & Hlog & Hlen & Hap & Hlb).
    { intros k Hk. rewrite calls_after_retryable.
      replace (S (calls w) + k)%nat with (calls w + S k)%nat by lia.
      apply Hall. simpl. lia. }
    destruct (log_backoff retry batch_id w) as (bnew & Hb & Hbp).
    pose proof (now_backoff retry batch_id w) as Hnow.
    unfold after_retryable, requests_post in Hlog, Hlb.
    rewrite calls_backoff, H0 in Hlog, Hlb. simpl in Hlog, Hlb.
    exists w1,
      (new ++ EvSleep 60 :: EvPost (now (backoff retry batch_id w)) batch :: bnew).
    split; [exact E|]. split.
    { rewrite Hlog, Hb, <- app_assoc. reflexivity. }
    rewrite post_times_app. simpl. rewrite Hbp. simpl.
    split; [rewrite Hlen; reflexivity|].
    split.
    + apply apart_cons; [|exact Hap].
      eapply Forall_impl; [exact Hlb|]. simpl. intros t Ht. exact Ht.
    + constructor; [exact Hnow|].
      eapply Forall_impl; [exact Hlb|]. simpl. intros t Ht. lra.
Qed.

End RetryBudget.

Lemma length_range (n : Z) : length (range n) = Z.to_nat n.
Proof. unfold range. apply length_seqZ. Qed.

(** C10.  In [embed_batch_with_retry] an answer 429 uses up one iteration of
    the [for] loop over [range(max_retries)], the budget of every retryable
    error, after a sleep of 60 seconds that precedes the next attempt; so
    when the [max_retries] attempts are all answered 429, the requests are
    at least 60 seconds apart, the budget is exhausted, the batch is marked
    [failed] and an exception is raised. *)
Theorem http_429_consumes_retry_budget {Vec : Type} (api : Api Vec)
    (batch : list string) (batch_id : string) (max_retries : Z)
    (w : World Vec) :
  (forall retry rest,
     is_429 (api (calls w) batch) = true ->
     retry_loop api max_retries (retry :: rest) batch batch_id w
     = retry_loop api max_retries rest batch batch_id
         (sleep 60 (snd (requests_post api batch (backoff retry batch_id w)))))
  /\ ((forall k, (k < Z.to_nat max_retries)%nat ->
         is_429 (api (calls w + k)%nat batch) = true) ->
      exists w',
        embed_batch_with_retry api batch batch_id max_retries w
        = (Raise (Exn ExceptionCls
                    ("Failed after " +:+ Py.str_of_Z max_retries +:+ " retries")),
           w')
        /\ calls w' = (calls w + Z.to_nat max_retries)%nat
        /\ (is_Some (db w !! batch_id) ->
            exists row,
              db w' !! batch_id = Some row
              /\ CheckpointManager.status row = CheckpointManager.failed
              /\ CheckpointManager.error_message row
                 = Some ("Failed after " +:+ Py.str_of_Z max_retries
                         +:+ " retries"))
        /\ exists new,
             log w' = new ++ log w
             /\ length (post_times new) = Z.to_nat max_retries
             /\ apart 60 (post_times new)).
Proof.
  split.
  - intros retry rest H429.
    rewrite retry_loop_continue by (apply is_429_retryable, H429).
    unfold after_retryable, requests_post. rewrite calls_backoff, H429.
    reflexivity.
  - intros Hall. unfold embed_batch_with_retry.
    rewrite <- length_range in Hall.
    destruct (retry_loop_exhausted api max_retries batch batch_id
                (range max_retries) w) as (wa & Ea & Hca & Hta).
    { intros k Hk. apply is_429_retryable, Hall, Hk. }
    destruct (retry_loop_all_429 api max_retries batch batch_id
                (range max_retries) w Hall)
      as (wb & new & Eb & Hlog & Hlen & Hap & _).
    assert (Hw : ckpt_mark_failed batch_id
                   ("Failed after " +:+ Py.str_of_Z max_retries +:+ " retries") wa
                 = ckpt_mark_failed batch_id
                   ("Failed after " +:+ Py.str_of_Z max_retries +:+ " retries") wb).
    { rewrite Ea in Eb. exact (f_equal snd Eb). }
    eexists. split; [exact Ea|].
    split; [|split].
    + simpl. rewrite Hca, length_range. reflexivity.
    + intros [r Hr].
      destruct Hta as (_ & _ & Hrow & _).
      destruct (Hrow r Hr) as (r' & Hr' & _).
      simpl. unfold CheckpointManager.mark_failed.
      rewrite lookup_alter_eq, Hr'. simpl. eexists. split; [reflexivity|].
      split; reflexivity.
    + rewrite Hw.
      exists (EvDurable (db (ckpt_mark_failed batch_id
                ("Failed after " +:+ Py.str_of_Z max_retries +:+ " retries") wb))
                (file wb) :: new).
      split; [simpl; rewrite Hlog; reflexivity|].
      simpl. rewrite Hlen, length_range. split; [reflexivity | exact Hap].
Qed.

(** ** BatchProcessor *)

(** *** Before the loop *)

Lemma startup_nonzero {Vec : Type} (texts : list string)
    (initial_batch_size : Z) (w : World Vec) :
  initial_batch_size <> 0 ->
  startup texts initial_batch_size w
  = inr (loop_variables initial_batch_size w).
Proof.
  intros Hbs. unfold startup, floordiv. cbn [batch_size loop_variables].
  destruct (Z.eqb_spec initial_batch_size 0) as [H0|_]; [contradiction|].
  destruct (file w); reflexivity.
Qed.

(** With an initial batch size of 0 the second division, at the latest,
    raises. *)
Lemma startup_zero {Vec : Type} (texts : list string) (w : World Vec) :
  exists e, startup texts 0 w = inl e.
Proof.
  unfold startup, floordiv. cbn [batch_size loop_variables Z.eqb].
  destruct (file w); eexists; reflexivity.
Qed.

Lemma embed_dataset_robust_nonzero {Vec : Type} (fuel : nat) (api : Api Vec)
    (dataset : list Item) (lang split : string) (initial_batch_size : Z)
    (w : World Vec) :
  initial_batch_size <> 0 ->
  embed_dataset_robust fuel api dataset lang split initial_batch_size w
  = match while_loop fuel api (fst (prepare_texts dataset)) lang split
            (loop_variables initial_batch_size w) w with
    | None => None
    | Some (Propagate e, w') => Some (Raised e, w')
    | Some (Next st, w') =>
        Some (Returned (Z.of_nat (length (embeddings st))),
              np_save (embeddings st) w')
    end.
Proof.
  intros Hbs. unfold embed_dataset_robust.
  rewrite startup_nonzero by exact Hbs. reflexivity.
Qed.

Section LoopFacts.

Context {Vec : Type}.
Implicit Types (w : World Vec) (api : Api Vec) (st : Loop Vec).

Lemma lookup_mark_in_progress batch_id lang split index size w :
  exists r,
    db (ckpt_mark_in_progress batch_id lang split index size w) !! batch_id
    = Some r
    /\ CheckpointManager.status r = CheckpointManager.in_progress.
Proof.
  simpl. unfold CheckpointManager.mark_in_progress.
  rewrite lookup_insert_eq. eexists. split; reflexivity.
Qed.

Lemma lookup_mark_failed batch_id msg w (r : CheckpointManager.Row) :
  db w !! batch_id = Some r ->
  db (ckpt_mark_failed batch_id msg w) !! batch_id
  = Some (CheckpointManager.set_failed (now w) msg r).
Proof.
  intros Hr. simpl. unfold CheckpointManager.mark_failed.
  rewrite lookup_alter_eq, Hr. reflexivity.
Qed.

Lemma status_completed_false (t : gmap string CheckpointManager.Row)
    (batch_id : string) (r : CheckpointManager.Row) :
  t !! batch_id = Some r ->
  CheckpointManager.status r <> CheckpointManager.completed ->
  status_completed (CheckpointManager.get_batch_status batch_id t) = false.
Proof.
  intros Hr Hs. unfold CheckpointManager.get_batch_status. rewrite Hr. simpl.
  destruct (CheckpointManager.status r); congruence.
Qed.

(** The [try] block never changes [batch_size], and leaves the loop
    variables alone when it raises. *)
Lemma try_block_state api lang split batch batch_id batch_start batch_end st w :
  let '(raised, st1, _) :=
    try_block api lang split batch batch_id batch_start batch_end st w in
  batch_size st1 = batch_size st
  /\ (raised <> None -> st1 = st)
  /\ (raised = None -> current_index st1 = batch_end).
Proof.
  unfold try_block.
  destruct (embed_batch_with_retry _ _ _ _ _) as [[v|e] w2].
  - destruct (negb _); simpl; repeat split; congruence.
  - simpl. repeat split; congruence.
Qed.

(** An iteration leaves [batch_size] as it is or halves it. *)
Lemma loop_body_batch_size api texts lang split st w st' w' :
  loop_body api texts lang split st w = (Next st', w') ->
  batch_size st' = batch_size st \/ batch_size st' = batch_size st / 2.
Proof.
  unfold loop_body.
  destruct (status_completed _); [intros [= <- _]; left; reflexivity|].
  pose proof (try_block_state api lang split
    (Py.slice (current_index st)
       (Z.min (current_index st + batch_size st) (Z.of_nat (length texts))) texts)
    (make_batch_id lang split (current_index st)) (current_index st)
    (Z.min (current_index st + batch_size st) (Z.of_nat (length texts))) st w)
    as H.
  destruct (try_block _ _ _ _ _ _ _ _ _) as [[raised st1] w1].
  destruct H as (Hbs & _ & _).
  destruct raised as [e|]; [|intros [= <- _]; left; exact Hbs].
  destruct (exn_class e).
  - intros [= <- _]. left. exact Hbs.
  - intros [= <- _]. left. exact Hbs.
  - destruct (Py.contains _ _); [|discriminate].
    destruct (batch_size st1 / 2 <? 4); intros [= <- _]; right; simpl;
      rewrite Hbs; reflexivity.
  - intros [= <- _]. left. exact Hbs.
Qed.

(** The [try] block writes to no row but the one of its batch. *)
Lemma try_block_others api lang split batch batch_id batch_start batch_end st w k :
  k <> batch_id ->
  db (snd (try_block api lang split batch batch_id batch_start batch_end st w))
    !! k = db w !! k.
Proof.
  intros Hk. unfold try_block, embed_batch_with_retry.
  set (w0 := ckpt_mark_in_progress batch_id lang split batch_start
               (batch_size st) w).
  pose proof (touches_only_retry_loop api 5 (range 5) batch batch_id w0)
    as (_ & Hothers & _).
  specialize (Hothers k Hk).
  assert (H0 : db w0 !! k = db w !! k).
  { simpl. unfold CheckpointManager.mark_in_progress.
    apply lookup_insert_ne. congruence. }
  destruct (retry_loop api 5 (range 5) batch batch_id w0) as [[v|e] w2];
    cbn [snd] in Hothers.
  - destruct (negb _); cbn [snd].
    + rewrite Hothers. exact H0.
    + unfold sleep, np_save, ckpt_mark_completed, commit,
        CheckpointManager.mark_completed. cbn [db].
      rewrite lookup_alter_ne by congruence. rewrite Hothers. exact H0.
  - cbn [snd]. rewrite Hothers. exact H0.
Qed.

(** An iteration writes to no row but the one of its batch. *)
Lemma loop_body_others api texts lang split st w k :
  k <> make_batch_id lang split (current_index st) ->
  db (snd (loop_body api texts lang split st w)) !! k = db w !! k.
Proof.
  intros Hk. unfold loop_body.
  destruct (status_completed _); [reflexivity|].
  pose proof (try_block_others api lang split
    (Py.slice (current_index st)
       (Z.min (current_index st + batch_size st) (Z.of_nat (length texts))) texts)
    (make_batch_id lang split (current_index st)) (current_index st)
    (Z.min (current_index st + batch_size st) (Z.of_nat (length texts))) st w
    k Hk) as H.
  destruct (try_block _ _ _ _ _ _ _ _ _) as [[raised st1] w1]. simpl in H.
  assert (Hfail : forall msg,
            db (ckpt_mark_failed (make_batch_id lang split (current_index st))
                  msg w1) !! k = db w !! k).
  { intros msg. simpl. unfold CheckpointManager.mark_failed.
    rewrite lookup_alter_ne by congruence. exact H. }
  destruct raised as [e|]; [|exact H].
  destruct (exn_class e); try apply Hfail.
  destruct (Py.contains _ _); [|exact H].
  destruct (_ <? 4); [apply Hfail | exact H].
Qed.

(** With a batch size that is not negative, an iteration never moves
    [current_index] backwards. *)
Lemma loop_body_progress api texts lang split st w st' w' :
  0 <= batch_size st ->
  current_index st < Z.of_nat (length texts) ->
  loop_body api texts lang split st w = (Next st', w') ->
  current_index st <= current_index st' /\ 0 <= batch_size st'.
Proof.
  intros Hbs Hin. unfold loop_body.
  destruct (status_completed _); [intros [= <- _]; simpl; lia|].
  pose proof (try_block_state api lang split
    (Py.slice (current_index st)
       (Z.min (current_index st + batch_size st) (Z.of_nat (length texts))) texts)
    (make_batch_id lang split (current_index st)) (current_index st)
    (Z.min (current_index st + batch_size st) (Z.of_nat (length texts))) st w)
    as H.
  destruct (try_block _ _ _ _ _ _ _ _ _) as [[raised st1] w1].
  destruct H as (Hbs1 & Hsame & Hend).
  destruct raised as [e|].
  - rewrite (Hsame ltac:(discriminate)).
    assert (0 <= batch_size st / 2) by (apply Z.div_pos; lia).
    destruct (exn_class e); try (intros [= <- _]; simpl; lia).
    destruct (Py.contains _ _); [|discriminate].
    destruct (_ <? 4); intros [= <- _]; simpl; lia.
  - intros [= <- _]. rewrite Hend by reflexivity. lia.
Qed.

(** The row of a batch that lies before [current_index] is never written
    again. *)
Lemma earlier_row_stays api texts lang split (a : Z)
    (row : CheckpointManager.Row) (x y : Loop Vec * World Vec) :
  rtc (loop_step api texts lang split) x y ->
  0 <= a < current_index (fst x) ->
  0 <= batch_size (fst x) ->
  db (snd x) !! make_batch_id lang split a = Some row ->
  db (snd y) !! make_batch_id lang split a = Some row.
Proof.
  induction 1 as [x|x y z [Hin Hstep] _ IH]; intros Ha Hbs Hrow; [exact Hrow|].
  destruct (loop_body_progress api texts lang split _ _ _ _ Hbs Hin Hstep)
    as (Hci & Hbs').
  apply IH; [lia | exact Hbs' |].
  pose proof (loop_body_others api texts lang split (fst x) (snd x)
                (make_batch_id lang split a)) as Ho.
  rewrite Hstep in Ho. simpl in Ho. rewrite Ho; [exact Hrow|].
  intros Heq. apply make_batch_id_inj in Heq; lia.
Qed.

End LoopFacts.

(** *** Messages that do not report a token limit *)

Lemma occurs_append (c : ascii) (a b : string) :
  occurs c (a +:+ b) = occurs c a || occurs c b.
Proof.
  induction a as [|x a IH]; [reflexivity|].
  change (String x a +:+ b) with (String x (a +:+ b)). simpl.
  destruct (Ascii.eqb c x); [reflexivity | exact IH].
Qed.

Lemma prefix_first (c : ascii) (needle hay : string) :
  String.prefix (String c needle) hay = true -> occurs c hay = true.
Proof.
  destruct hay as [|x hay]; simpl; [discriminate|].
  destruct (ascii_dec c x) as [->|Hne]; [|discriminate].
  rewrite Ascii.eqb_refl. reflexivity.
Qed.

(** A string that contains a needle contains its first character. *)
Lemma contains_occurs (c : ascii) (needle hay : string) :
  Py.contains (String c needle) hay = true -> occurs c hay = true.
Proof.
  induction hay as [|x hay IH].
  - simpl. discriminate.
  - intros H.
    change (Py.contains (String c needle) (String x hay))
      with (if String.prefix (String c needle) (String x hay) then true
            else Py.contains (String c needle) hay) in H.
    destruct (String.prefix (String c needle) (String x hay)) eqn:Hp.
    + apply (prefix_first c needle), Hp.
    + simpl. destruct (Ascii.eqb c x); [reflexivity | apply IH, H].
Qed.

Lemma occurs_T_uint (d : Decimal.uint) :
  occurs "T" (NilEmpty.string_of_uint d) = false.
Proof. induction d; simpl; auto. Qed.

Lemma occurs_T_str_of_nat (n : nat) :
  occurs "T" (Py.str_of_Z (Z.of_nat n)) = false.
Proof.
  unfold Py.str_of_Z. destruct (Z.ltb_spec (Z.of_nat n) 0); [lia|].
  unfold NilZero.string_of_uint.
  destruct (N.to_uint (Z.to_N (Z.of_nat n))) eqn:E;
    try reflexivity; rewrite <- E; apply occurs_T_uint.
Qed.

(** The message of a count mismatch never reads as a token-limit error. *)
Lemma count_mismatch_not_token_limit (expected got : nat) :
  Py.contains "Token limit exceeded" (exn_str (count_mismatch expected got))
  = false.
Proof.
  destruct (Py.contains _ _) eqn:H; [|reflexivity].
  apply contains_occurs in H. unfold count_mismatch in H. simpl exn_str in H.
  rewrite !occurs_append, !occurs_T_str_of_nat in H. discriminate H.
Qed.

(** *** Batches that are left failed *)

Section FailedBatches.

Context {Vec : Type}.
Implicit Types (w : World Vec) (api : Api Vec) (st : Loop Vec).

(** When the retry loop is left by a [ValueError], the row of the batch
    has the status it had: only exhaustion marks it failed. *)
Lemma retry_loop_value_error_status api max_retries batch batch_id :
  forall retries w e w2 r,
    retry_loop api max_retries retries batch batch_id w = (Raise e, w2) ->
    exn_class e = ValueErrorCls ->
    db w !! batch_id = Some r ->
    exists r2,
      db w2 !! batch_id = Some r2
      /\ CheckpointManager.status r2 = CheckpointManager.status r.
Proof.
  induction retries as [|retry rest IH]; intros w e w2 r Hrun Hcls Hrow.
  - simpl in Hrun. injection Hrun as <- _. discriminate Hcls.
  - assert (Hback : exists r1,
              db (backoff retry batch_id w) !! batch_id = Some r1
              /\ CheckpointManager.status r1 = CheckpointManager.status r).
    { unfold backoff. destruct (retry >? 0); [|eauto].
      simpl. unfold CheckpointManager.increment_retry.
      rewrite lookup_alter_eq, Hrow. simpl. eauto. }
    destruct Hback as (r1 & Hr1 & Hs1).
    set (w1 := backoff retry batch_id w) in *.
    assert (Hnext : forall w3,
              db w3 = db w1 ->
              retry_loop api max_retries rest batch batch_id w3
              = (Raise e, w2) ->
              exists r2,
                db w2 !! batch_id = Some r2
                /\ CheckpointManager.status r2 = CheckpointManager.status r).
    { intros w3 Hdb Hrun3.
      destruct (IH w3 e w2 r1 Hrun3 Hcls) as (r2 & Hr2 & Hs2).
      - rewrite Hdb. exact Hr1.
      - exists r2. split; [exact Hr2|congruence]. }
    assert (Hhere : forall e', (Raise (Vec:=Vec) e',
                                snd (requests_post api batch w1))
                               = (Raise e, w2) ->
              exists r2,
                db w2 !! batch_id = Some r2
                /\ CheckpointManager.status r2 = CheckpointManager.status r).
    { intros e' [= _ <-]. exists r1. split; [exact Hr1|exact Hs1]. }
    revert Hrun. simpl. fold w1. unfold requests_post in *. cbn [snd] in Hhere.
    destruct (api (calls w1) batch) as [response|e0].
    + destruct (status_code response =? 400).
      { destruct (Py.contains _ _); [apply Hhere | apply Hnext; reflexivity]. }
      destruct (status_code response =? 429); [apply Hnext; reflexivity|].
      destruct (status_code response =? 503); [apply Hnext; reflexivity|].
      destruct (status_code response =? 200); simpl;
        [|apply Hnext; reflexivity].
      destruct (json response) as [v|e1]; [discriminate|].
      destruct (exn_class e1); try (apply Hnext; reflexivity); apply Hhere.
    + destruct (exn_class e0); try (apply Hnext; reflexivity); apply Hhere.
Qed.

(** An iteration that falls through and leaves the row of its batch with
    status [failed] has stored no vector: the vectors held and the array
    file are as they were, and the offset is the end of the batch. *)
Lemma loop_body_failed_is_skipped api texts lang split st w st' w' row :
  loop_body api texts lang split st w = (Next st', w') ->
  db w' !! make_batch_id lang split (current_index st) = Some row ->
  CheckpointManager.status row = CheckpointManager.failed ->
  embeddings st' = embeddings st
  /\ file w' = file w
  /\ current_index st'
     = Z.min (current_index st + batch_size st) (Z.of_nat (length texts)).
Proof.
  set (batch_end :=
         Z.min (current_index st + batch_size st) (Z.of_nat (length texts))).
  set (batch := Py.slice (current_index st) batch_end texts).
  set (batch_id := make_batch_id lang split (current_index st)).
  unfold loop_body. fold batch_end batch batch_id.
  destruct (status_completed _).
  { intros [= <- <-] _ _. auto. }
  unfold try_block, embed_batch_with_retry.
  set (w0 := ckpt_mark_in_progress batch_id lang split (current_index st)
               (batch_size st) w).
  destruct (lookup_mark_in_progress batch_id lang split (current_index st)
              (batch_size st) w) as (r0 & Hr0 & Hs0).
  fold w0 in Hr0.
  pose proof (touches_only_retry_loop api 5 (range 5) batch batch_id w0)
    as (Hfile & _).
  assert (Hfile0 : file w0 = file w) by reflexivity.
  destruct (retry_loop api 5 (range 5) batch batch_id w0) as [[v|e] w2] eqn:E;
    cbn [snd] in Hfile.
  - destruct (negb _).
    + cbn [exn_class].
      fold (count_mismatch (length batch) (length v)).
      rewrite count_mismatch_not_token_limit. discriminate.
    + intros [= <- <-] Hrow Hst. exfalso. revert Hrow.
      simpl. unfold CheckpointManager.mark_completed.
      rewrite lookup_alter_eq. destruct (db w2 !! batch_id) as [r2|];
        [|discriminate].
      intros [= <-]. discriminate Hst.
  - destruct (exn_class e) eqn:Hcls.
    + intros [= <- <-] _ _. simpl. split; [reflexivity|]. split; [congruence|].
      reflexivity.
    + intros [= <- <-] _ _. simpl. split; [reflexivity|]. split; [congruence|].
      reflexivity.
    + destruct (Py.contains _ _); [|discriminate].
      destruct (_ <? 4).
      * intros [= <- <-] _ _. simpl. split; [reflexivity|].
        split; [congruence|]. reflexivity.
      * intros [= <- <-] Hrow Hst. exfalso.
        destruct (retry_loop_value_error_status api 5 batch batch_id
                    (range 5) w0 e w2 r0 E Hcls Hr0) as (r2 & Hr2 & Hs2).
        rewrite Hr2 in Hrow. injection Hrow as <-.
        rewrite Hs2, Hs0 in Hst. discriminate Hst.
    + intros [= <- <-] _ _. simpl. split; [reflexivity|]. split; [congruence|].
      reflexivity.
Qed.

End FailedBatches.

(** C9.  Within one partition run the working batch size is only ever kept
    or halved by an iteration of the loop, so from any point of the run on,
    and in particular once a size-limit error has halved it, every later
    iteration works with a batch size that is at most the one of that
    point: it is never put back towards the initial batch size, also not
    after batches succeed at the reduced size. *)
Theorem batch_size_never_restored {Vec : Type} (api : Api Vec)
    (texts : list string) (lang split : string)
    (x y : Loop Vec * World Vec) :
  0 <= batch_size (fst x) ->
  rtc (loop_step api texts lang split) x y ->
  0 <= batch_size (fst y) <= batch_size (fst x)
  /\ forall z, loop_step api texts lang split y z ->
       batch_size (fst z) = batch_size (fst y)
       \/ batch_size (fst z) = batch_size (fst y) / 2.
Proof.
  intros H0 Hrun. split.
  - induction Hrun as [x|x y z [_ Hstep] Hrun IH]; [lia|].
    apply loop_body_batch_size in Hstep.
    assert (0 <= batch_size (fst y) <= batch_size (fst x)).
    { destruct Hstep as [-> | ->]; [lia|].
      split; [apply Z.div_pos; lia | apply Z.div_le_upper_bound; lia]. }
    specialize (IH ltac:(lia)). lia.
  - intros z [_ Hstep]. apply loop_body_batch_size in Hstep. exact Hstep.
Qed.

(** C4 fails on the code: the message of the last error is not stored.  The
    five attempts of the first batch are all answered by the connection
    error "Connection refused"; the iteration falls through to the next
    offset and the row of the batch is [failed], as claimed, but the
    message stored with it is "Failed after 5 retries": the errors of the
    attempts are printed and dropped, where the table is documented to
    hold the last error. *)
Theorem exhausted_batch_loses_last_error :
  (forall n batch,
     Sample.api_refused n batch
     = PostRaises (Exn ConnectionErrorCls "Connection refused"))
  /\ fst (loop_body Sample.api_refused Fixture.texts3 "python" "train"
            (loop_variables 2 Fixture.world0) Fixture.world0)
     = Next {| embeddings := []; batch_size := 2; current_index := 2 |}
  /\ (CheckpointManager.status
        <$> db (snd (loop_body Sample.api_refused Fixture.texts3 "python"
                       "train" (loop_variables 2 Fixture.world0)
                       Fixture.world0))
            !! "python_train_batch_000000")
     = Some CheckpointManager.failed
  /\ (CheckpointManager.error_message
        <$> db (snd (loop_body Sample.api_refused Fixture.texts3 "python"
                       "train" (loop_variables 2 Fixture.world0)
                       Fixture.world0))
            !! "python_train_batch_000000")
     = Some (Some "Failed after 5 retries")
  /\ Some "Failed after 5 retries" <> Some "Connection refused".
Proof.
  split; [reflexivity|].
  split; [vm_compute; reflexivity|].
  split; [vm_compute; reflexivity|].
  split; [vm_compute; reflexivity|discriminate].
Qed.

(** X27.  For every batch whose 5 attempts ([max_retries], left at its
    default by the loop) are all answered by retryable errors, the
    batch is marked [failed] in the checkpoint table with the message
    "Failed after 5 retries", the message of the exception that
    [embed_batch_with_retry] raises on exhaustion, whatever the errors
    were; no vector is appended, and the iteration falls through with
    [current_index] at the end of the batch: the [while] loop goes on with
    the next offset instead of leaving the function, and returns normally
    when the batch was the last one. *)
Theorem exhausted_batch_is_failed_and_skipped {Vec : Type} (api : Api Vec)
    (texts : list string) (lang split : string) (st : Loop Vec)
    (w : World Vec) :
  let batch_end :=
    Z.min (current_index st + batch_size st) (Z.of_nat (length texts)) in
  let batch := Py.slice (current_index st) batch_end texts in
  let batch_id := make_batch_id lang split (current_index st) in
  status_completed (CheckpointManager.get_batch_status batch_id (db w)) = false ->
  (forall k, (k < 5)%nat -> retryable (api (calls w + k)%nat batch) = true) ->
  exists w',
    loop_body api texts lang split st w
    = (Next {| embeddings := embeddings st; batch_size := batch_size st;
               current_index := batch_end |}, w')
    /\ calls w' = (calls w + 5)%nat
    /\ (exists row e,
          db w' !! batch_id = Some row
          /\ CheckpointManager.status row = CheckpointManager.failed
          /\ fst (embed_batch_with_retry api batch batch_id 5
                    (ckpt_mark_in_progress batch_id lang split
                       (current_index st) (batch_size st) w))
             = Raise e
          /\ CheckpointManager.error_message row = Some (exn_str e)
          /\ exn_str e = "Failed after 5 retries")
    /\ file w' = file w
    /\ (current_index st < Z.of_nat (length texts) ->
        (1 <= batch_size st -> current_index st < batch_end)
        /\ (forall fuel,
              while_loop (S fuel) api texts lang split st w
              = while_loop fuel api texts lang split
                  {| embeddings := embeddings st;
                     batch_size := batch_size st;
                     current_index := batch_end |} w')
        /\ (batch_end = Z.of_nat (length texts) ->
            forall fuel,
              while_loop (S fuel) api texts lang split st w
              = Some (Next {| embeddings := embeddings st;
                              batch_size := batch_size st;
                              current_index := batch_end |}, w'))).
Proof.
  intros batch_end batch batch_id Hstatus Hall.
  set (w0 := ckpt_mark_in_progress batch_id lang split (current_index st)
               (batch_size st) w).
  destruct (retry_loop_exhausted api 5 batch batch_id (range 5) w0)
    as (w1 & E & Hc & Ht).
  { intros k Hk. apply Hall. exact Hk. }
  destruct (lookup_mark_in_progress batch_id lang split (current_index st)
              (batch_size st) w) as (r0 & Hr0 & _).
  destruct Ht as (Hfile1 & _ & Hrow & _).
  destruct (Hrow r0 Hr0) as (r1 & Hr1 & _).
  assert (Hbody : loop_body api texts lang split st w
            = (Next {| embeddings := embeddings st; batch_size := batch_size st;
                       current_index := batch_end |},
               ckpt_mark_failed batch_id "Failed after 5 retries"
                 (ckpt_mark_failed batch_id "Failed after 5 retries" w1))).
  { unfold loop_body. fold batch_end. fold batch. fold batch_id.
    rewrite Hstatus. unfold try_block, embed_batch_with_retry.
    fold w0. rewrite E. reflexivity. }
  eexists. split; [exact Hbody|].
  split; [simpl; rewrite Hc; reflexivity|].
  split.
  - simpl. unfold CheckpointManager.mark_failed.
    rewrite !lookup_alter_eq, Hr1. simpl.
    eexists. exists (Exn ExceptionCls "Failed after 5 retries").
    split; [reflexivity|]. split; [reflexivity|].
    split; [|split; reflexivity].
    unfold embed_batch_with_retry. fold w0. rewrite E. reflexivity.
  - split; [simpl; rewrite Hfile1; reflexivity|].
    intros Hin. split; [lia|].
    assert (Hstep : forall fuel,
              while_loop (S fuel) api texts lang split st w
              = while_loop fuel api texts lang split
                  {| embeddings := embeddings st;
                     batch_size := batch_size st;
                     current_index := batch_end |}
                  (ckpt_mark_failed batch_id "Failed after 5 retries"
                     (ckpt_mark_failed batch_id "Failed after 5 retries"
                        w1))).
    { intros fuel. simpl.
      destruct (Z.ltb_spec (current_index st) (Z.of_nat (length texts)));
        [|lia].
      rewrite Hbody. reflexivity. }
    split; [exact Hstep|].
    intros Hlast fuel. rewrite Hstep.
    destruct fuel; cbn [while_loop current_index];
      destruct (Z.ltb_spec batch_end (Z.of_nat (length texts)));
      try lia; reflexivity.
Qed.

(** C5.  Whenever the embedding call of a batch ends with an HTTP 400
    token-limit answer (on its first attempt or after retryable errors),
    the iteration halves [batch_size]; when the halved size is at least 4
    it leaves [current_index] where it is, with the batch not completed in
    the table, so that the next iteration submits the same start offset
    again; when the halved size is below 4 the batch is marked [failed] in
    the table and [current_index] moves to the end of the batch, past it,
    after which no later iteration of the run writes to its row again. *)
Theorem token_limit_halves_batch {Vec : Type} (api : Api Vec)
    (texts : list string) (lang split : string) (st : Loop Vec)
    (w : World Vec) (j : nat) :
  let batch_end :=
    Z.min (current_index st + batch_size st) (Z.of_nat (length texts)) in
  let batch := Py.slice (current_index st) batch_end texts in
  let batch_id := make_batch_id lang split (current_index st) in
  status_completed (CheckpointManager.get_batch_status batch_id (db w)) = false ->
  (j < 5)%nat ->
  (forall k, (k < j)%nat -> retryable (api (calls w + k)%nat batch) = true) ->
  token_limit_400 (api (calls w + j)%nat batch) = true ->
  exists w',
    loop_body api texts lang split st w
    = (Next {| embeddings := embeddings st;
               batch_size := batch_size st / 2;
               current_index :=
                 if batch_size st / 2 <? 4 then batch_end
                 else current_index st |}, w')
    /\ (4 <= batch_size st / 2 ->
        status_completed
          (CheckpointManager.get_batch_status batch_id (db w')) = false)
    /\ (batch_size st / 2 < 4 ->
        exists row,
          db w' !! batch_id = Some row
          /\ CheckpointManager.status row = CheckpointManager.failed
          /\ CheckpointManager.error_message row
             = Some "Batch size reduction failed"
          /\ (0 <= current_index st < Z.of_nat (length texts) ->
              1 <= batch_size st ->
              current_index st < batch_end
              /\ forall y,
                   rtc (loop_step api texts lang split)
                     ({| embeddings := embeddings st;
                         batch_size := batch_size st / 2;
                         current_index := batch_end |}, w') y ->
                   db (snd y) !! batch_id = Some row)).
Proof.
  intros batch_end batch batch_id Hstatus Hj Hall Htok.
  set (w0 := ckpt_mark_in_progress batch_id lang split (current_index st)
               (batch_size st) w).
  destruct (retry_loop_prefix api 5 batch batch_id j (range 5) w0)
    as (w1 & E & Hc & Ht).
  { rewrite length_range. lia. }
  { intros k Hk. apply Hall. exact Hk. }
  destruct (drop j (range 5)) as [|retry rest] eqn:Hdrop.
  { apply (f_equal length) in Hdrop. rewrite length_drop, length_range in Hdrop.
    simpl in Hdrop. lia. }
  destruct (retry_loop_token_limit api 5 retry rest batch batch_id w1)
    as (body & Etok).
  { rewrite Hc. exact Htok. }
  set (w2 := snd (requests_post api batch (backoff retry batch_id w1))) in *.
  assert (Ht2 : touches_only batch_id w0 w2).
  { eapply touches_only_trans; [exact Ht|].
    eapply touches_only_trans;
      [apply touches_only_backoff | apply touches_only_post]. }
  destruct (lookup_mark_in_progress batch_id lang split (current_index st)
              (batch_size st) w) as (r0 & Hr0 & Hs0).
  destruct Ht2 as (_ & _ & Hrow & _).
  destruct (Hrow r0 Hr0) as (r2 & Hr2 & Hs2).
  assert (Hbody : loop_body api texts lang split st w
            = (Next {| embeddings := embeddings st;
                       batch_size := batch_size st / 2;
                       current_index :=
                         if batch_size st / 2 <? 4 then batch_end
                         else current_index st |},
               if batch_size st / 2 <? 4
               then ckpt_mark_failed batch_id "Batch size reduction failed" w2
               else w2)).
  { unfold loop_body. fold batch_end. fold batch. fold batch_id.
    rewrite Hstatus. unfold try_block, embed_batch_with_retry.
    fold w0. rewrite E, Etok. cbn [exn_class exn_str].
    change ("Token limit exceeded: " +:+ body)
      with ("Token limit exceeded" +:+ (": " +:+ body)).
    rewrite contains_append.
    destruct (batch_size st / 2 <? 4); reflexivity. }
  eexists. split; [exact Hbody|]. split.
  - intros Hbig. destruct (Z.ltb_spec (batch_size st / 2) 4); [lia|].
    apply (status_completed_false _ _ r2 Hr2).
    destruct Hs2 as [Hs2|Hs2]; rewrite Hs2; [rewrite Hs0|]; discriminate.
  - intros Hsmall. destruct (Z.ltb_spec (batch_size st / 2) 4); [|lia].
    unfold ckpt_mark_failed, commit, CheckpointManager.mark_failed.
    cbn [db]. rewrite lookup_alter_eq, Hr2. simpl.
    eexists. split; [reflexivity|]. split; [reflexivity|].
    split; [reflexivity|].
    intros Hci Hbs. split; [unfold batch_end; lia|].
    intros y Hrun.
    apply (earlier_row_stays api texts lang split (current_index st) _ _ y Hrun).
    + simpl. unfold batch_end. lia.
    + simpl. apply Z.div_pos; lia.
    + cbn [snd]. apply lookup_mark_failed, Hr2.
Qed.

(** *** Runs in which every request is answered with the vectors *)

Lemma slice_take {A} (a b : Z) (l : list A) :
  0 <= a <= b -> b <= Z.of_nat (length l) ->
  take (Z.to_nat a) l ++ Py.slice a b l = take (Z.to_nat b) l.
Proof.
  intros Hab Hb. unfold Py.slice.
  rewrite !clamp_nonneg by lia.
  rewrite !Z.min_l by lia.
  rewrite take_take_drop. f_equal. lia.
Qed.

Section GoodRuns.

Context {Vec : Type}.
Variable api : Api Vec.
Variable model : string -> Vec.
Variable texts : list string.
Variables lang split : string.

Implicit Types (w : World Vec) (st : Loop Vec).

(** The iteration of a batch whose first request is answered with the
    vectors: the table is updated to [completed] first, and the extended
    array is saved after that. *)
Lemma loop_body_good st w :
  let batch_end :=
    Z.min (current_index st + batch_size st) (Z.of_nat (length texts)) in
  let batch := Py.slice (current_index st) batch_end texts in
  let batch_id := make_batch_id lang split (current_index st) in
  let w0 := ckpt_mark_in_progress batch_id lang split (current_index st)
              (batch_size st) w in
  status_completed (CheckpointManager.get_batch_status batch_id (db w)) = false ->
  good_answer model batch (api (calls w) batch) ->
  loop_body api texts lang split st w
  = (Next {| embeddings := embeddings st ++ map model batch;
             batch_size := batch_size st;
             current_index := batch_end |},
     sleep 0.6
       (np_save (embeddings st ++ map model batch)
          (ckpt_mark_completed batch_id
             (snd (requests_post api batch w0))))).
Proof.
  intros batch_end batch batch_id w0 Hstatus Hgood.
  unfold loop_body. fold batch_end. fold batch. fold batch_id.
  rewrite Hstatus. unfold try_block, embed_batch_with_retry. fold w0.
  change (range 5) with [0; 1; 2; 3; 4].
  rewrite (retry_loop_good api 5 0 [1; 2; 3; 4] batch batch_id w0 model)
    by exact Hgood.
  change (backoff 0 batch_id w0) with w0.
  rewrite length_map, Z.eqb_refl. reflexivity.
Qed.

(** In the log of such an iteration the commit of [completed] comes
    before the save: between the two, the table reports the batch
    completed next to the array file as it was before the batch. *)
Lemma loop_body_good_log st w :
  let batch_end :=
    Z.min (current_index st + batch_size st) (Z.of_nat (length texts)) in
  let batch := Py.slice (current_index st) batch_end texts in
  let batch_id := make_batch_id lang split (current_index st) in
  status_completed (CheckpointManager.get_batch_status batch_id (db w)) = false ->
  good_answer model batch (api (calls w) batch) ->
  exists t0 t row,
    log (snd (loop_body api texts lang split st w))
    = EvSleep 0.6
        :: EvDurable t (Some (embeddings st ++ map model batch))
        :: EvDurable t (file w)
        :: EvPost (now w) batch
        :: EvDurable t0 (file w)
        :: log w
    /\ t !! batch_id = Some row
    /\ CheckpointManager.status row = CheckpointManager.completed.
Proof.
  intros batch_end batch batch_id Hstatus Hgood.
  rewrite loop_body_good by assumption. fold batch_end batch batch_id.
  do 2 eexists. eexists (CheckpointManager.set_completed _ _).
  split; [reflexivity|]. split; [|reflexivity].
  simpl. unfold CheckpointManager.mark_completed,
    CheckpointManager.mark_in_progress.
  rewrite lookup_alter_eq, lookup_insert_eq. reflexivity.
Qed.

Hypothesis api_good : forall n batch, good_answer model batch (api n batch).

Lemma while_loop_good (fuel : nat) :
  forall st w,
    1 <= batch_size st ->
    0 <= current_index st <= Z.of_nat (length texts) ->
    embeddings st = map model (take (Z.to_nat (current_index st)) texts) ->
    (forall k, current_index st <= k ->
       status_completed
         (CheckpointManager.get_batch_status (make_batch_id lang split k) (db w))
       = false) ->
    (Z.to_nat (Z.of_nat (length texts) - current_index st) <= fuel)%nat ->
    exists st' w',
      while_loop fuel api texts lang split st w = Some (Next st', w')
      /\ embeddings st' = map model texts.
Proof.
  induction fuel as [|fuel IH]; intros st w Hbs Hci Hemb Hnone Hfuel.
  - exists st, w. simpl.
    destruct (Z.ltb_spec (current_index st) (Z.of_nat (length texts))); [lia|].
    split; [reflexivity|]. rewrite Hemb, take_ge by lia. reflexivity.
  - simpl.
    destruct (Z.ltb_spec (current_index st) (Z.of_nat (length texts)))
      as [Hlt|Hge].
    2:{ exists st, w. split; [reflexivity|].
        rewrite Hemb, take_ge by lia. reflexivity. }
    rewrite loop_body_good by (auto using Z.le_refl).
    set (batch_end :=
           Z.min (current_index st + batch_size st) (Z.of_nat (length texts))).
    apply IH; simpl.
    + exact Hbs.
    + unfold batch_end. lia.
    + rewrite Hemb, <- map_app. f_equal.
      apply slice_take; unfold batch_end; lia.
    + intros k Hk. unfold CheckpointManager.get_batch_status,
        CheckpointManager.mark_completed, CheckpointManager.mark_in_progress.
      assert (Hne : make_batch_id lang split (current_index st)
                    <> make_batch_id lang split k).
      { intros Heq. apply make_batch_id_inj in Heq; unfold batch_end in Hk; lia. }
      rewrite lookup_alter_ne, lookup_insert_ne by exact Hne.
      apply Hnone. unfold batch_end in Hk. lia.
    + unfold batch_end. lia.
Qed.

End GoodRuns.

(** *** Runs with an honest endpoint *)

Section HonestRuns.

Context {Vec : Type}.
Variable api : Api Vec.
Variable model : string -> Vec.
Variable texts : list string.
Variables lang split : string.

Implicit Types (w : World Vec) (st : Loop Vec).

(** Vectors returned by the retry loop come from an answer 200. *)
Lemma retry_loop_return max_retries retries batch batch_id v :
  forall w w',
    retry_loop api max_retries retries batch batch_id w = (Return v, w') ->
    exists n response,
      api n batch = Responded response
      /\ status_code response = 200
      /\ json response = ParsedData v.
Proof.
  induction retries as [|retry rest IH]; intros w w'; [discriminate|].
  simpl. unfold requests_post.
  destruct (api (calls (backoff retry batch_id w)) batch)
    as [response|e] eqn:Eapi.
  - destruct (status_code response =? 400).
    { destruct (Py.contains _ _); [discriminate | apply IH]. }
    destruct (status_code response =? 429); [apply IH|].
    destruct (status_code response =? 503); [apply IH|].
    destruct (Z.eqb_spec (status_code response) 200) as [E200|_];
      simpl; [|apply IH].
    destruct (json response) as [v'|e] eqn:Ejson.
    + intros [= <- _]. eauto.
    + destruct (exn_class e); try apply IH; discriminate.
  - destruct (exn_class e); try apply IH; discriminate.
Qed.

Hypothesis api_honest : honest model api.

(** From aligned loop variables an iteration either keeps them aligned or
    leaves the batch it worked on marked failed. *)
Lemma loop_body_aligned st w st' w' :
  aligned model texts lang split st w ->
  current_index st < Z.of_nat (length texts) ->
  loop_body api texts lang split st w = (Next st', w') ->
  aligned model texts lang split st' w'
  \/ (0 <= batch_size st'
      /\ has_failed lang split (current_index st') (db w')).
Proof.
  intros (Hbs & Hci & Hemb & Hnone) Hin.
  set (batch_end :=
         Z.min (current_index st + batch_size st) (Z.of_nat (length texts))).
  set (batch := Py.slice (current_index st) batch_end texts).
  set (batch_id := make_batch_id lang split (current_index st)).
  assert (Hend : current_index st < batch_end) by (unfold batch_end; lia).
  intros Hbody.
  (* rows of later batches are untouched *)
  assert (Hlater : forall j, batch_end <= j ->
            status_completed
              (CheckpointManager.get_batch_status (make_batch_id lang split j)
                 (db w')) = false).
  { intros j Hj. unfold CheckpointManager.get_batch_status.
    pose proof (loop_body_others api texts lang split st w
                  (make_batch_id lang split j)) as Ho.
    rewrite Hbody in Ho. simpl in Ho. rewrite Ho.
    - apply Hnone. lia.
    - intros Heq. apply make_batch_id_inj in Heq; lia. }
  pose proof (Hnone (current_index st) ltac:(lia)) as Hnc.
  fold batch_id in Hnc.
  revert Hbody. unfold loop_body. fold batch_end batch batch_id.
  rewrite Hnc. unfold try_block, embed_batch_with_retry.
  set (w0 := ckpt_mark_in_progress batch_id lang split (current_index st)
               (batch_size st) w).
  pose proof (touches_only_retry_loop api 5 (range 5) batch batch_id w0)
    as (_ & _ & Hrow & _).
  destruct (lookup_mark_in_progress batch_id lang split (current_index st)
              (batch_size st) w) as (r0 & Hr0 & Hs0).
  destruct (Hrow r0 Hr0) as (r2 & Hr2 & Hs2). clear Hrow.
  destruct (retry_loop api 5 (range 5) batch batch_id w0) as [[v|e] w2] eqn:E;
    cbn [snd] in Hr2.
  - (* vectors returned *)
    destruct (retry_loop_return _ _ _ _ _ _ _ E) as (n & response & Ha & H200 & Hj).
    rewrite (api_honest n batch response v Ha H200 Hj).
    rewrite length_map, Z.eqb_refl. cbn [negb].
    intros [= <- <-]. left. repeat split; simpl; try lia.
    + rewrite Hemb, <- map_app. f_equal. apply slice_take; lia.
    + intros j Hj'. apply Hlater. unfold batch_end. exact Hj'.
  - (* exception *)
    assert (Hfailed : forall msg,
              has_failed lang split batch_end
                (db (ckpt_mark_failed batch_id msg w2))).
    { intros msg. exists (current_index st). eexists.
      split; [lia|]. split; [apply lookup_mark_failed, Hr2 | reflexivity]. }
    cbn [exn_class exn_str].
    destruct (exn_class e).
    + intros [= <- <-]. right. simpl. split; [lia | apply Hfailed].
    + intros [= <- <-]. right. simpl. split; [lia | apply Hfailed].
    + destruct (Py.contains _ _); [|discriminate].
      destruct (Z.ltb_spec (batch_size st / 2) 4) as [Hsmall|Hbig].
      * intros [= <- <-]. right. simpl.
        split; [apply Z.div_pos; lia | apply Hfailed].
      * intros [= <- <-]. left. repeat split; simpl; try lia.
        { exact Hemb. }
        intros j Hj'. destruct (Z.eq_dec j (current_index st)) as [->|Hne].
        { apply (status_completed_false _ _ r2 Hr2).
          destruct Hs2 as [Hs2|Hs2]; rewrite Hs2; [rewrite Hs0|]; discriminate. }
        pose proof (touches_only_retry_loop api 5 (range 5) batch batch_id w0)
          as (_ & Hothers & _).
        rewrite E in Hothers. cbn [snd] in Hothers.
        unfold CheckpointManager.get_batch_status. rewrite Hothers.
        { simpl. unfold CheckpointManager.mark_in_progress.
          rewrite lookup_insert_ne.
          - apply Hnone. exact Hj'.
          - intros Heq. apply make_batch_id_inj in Heq; lia. }
        intros Heq. apply make_batch_id_inj in Heq; lia.
    + intros [= <- <-]. right. simpl. split; [lia | apply Hfailed].
Qed.

(** A failed row below [current_index] is still there after any further
    iteration. *)
Lemma loop_body_has_failed st w st' w' :
  0 <= batch_size st ->
  has_failed lang split (current_index st) (db w) ->
  current_index st < Z.of_nat (length texts) ->
  loop_body api texts lang split st w = (Next st', w') ->
  0 <= batch_size st' /\ has_failed lang split (current_index st') (db w').
Proof.
  intros Hbs (a & row & Ha & Hrow & Hst) Hin Hbody.
  destruct (loop_body_progress api texts lang split _ _ _ _ Hbs Hin Hbody)
    as (Hci & Hbs').
  split; [exact Hbs'|]. exists a, row. split; [lia|]. split; [|exact Hst].
  pose proof (loop_body_others api texts lang split st w
                (make_batch_id lang split a)) as Ho.
  rewrite Hbody in Ho. simpl in Ho. rewrite Ho; [exact Hrow|].
  intros Heq. apply make_batch_id_inj in Heq; lia.
Qed.

Lemma sublist_take_le {A} (i j : nat) (l : list A) :
  (i <= j)%nat -> sublist (take i l) (take j l).
Proof.
  intros Hij. replace (take i l) with (take i (take j l)).
  - apply sublist_take.
  - rewrite take_take. f_equal. lia.
Qed.

(** Whatever happens to a batch, the vectors held stay those of records in
    the order of the source. *)
Lemma loop_body_in_source_order st w st' w' :
  in_source_order model texts st ->
  current_index st < Z.of_nat (length texts) ->
  loop_body api texts lang split st w = (Next st', w') ->
  in_source_order model texts st'.
Proof.
  intros (Hbs & Hci & kept & Hsub & Hemb) Hin.
  set (batch_end :=
         Z.min (current_index st + batch_size st) (Z.of_nat (length texts))).
  set (batch := Py.slice (current_index st) batch_end texts).
  set (batch_id := make_batch_id lang split (current_index st)).
  assert (Hend : current_index st <= batch_end <= Z.of_nat (length texts))
    by (unfold batch_end; lia).
  assert (Hskip : forall size, 0 <= size ->
            in_source_order model texts
              {| embeddings := embeddings st; batch_size := size;
                 current_index := batch_end |}).
  { intros size Hsize. split; [exact Hsize|]. split; [simpl; lia|].
    exists kept. split; [|exact Hemb]. simpl.
    etrans; [exact Hsub|]. apply sublist_take_le. lia. }
  assert (Hhalf : 0 <= batch_size st / 2) by (apply Z.div_pos; lia).
  unfold loop_body. fold batch_end batch batch_id.
  destruct (status_completed _).
  { intros [= <- _]. apply Hskip, Hbs. }
  unfold try_block, embed_batch_with_retry.
  set (w0 := ckpt_mark_in_progress batch_id lang split (current_index st)
               (batch_size st) w).
  destruct (retry_loop api 5 (range 5) batch batch_id w0) as [[v|e] w2] eqn:E.
  - destruct (retry_loop_return _ _ _ _ _ _ _ E)
      as (n & response & Ha & H200 & Hj).
    rewrite (api_honest n batch response v Ha H200 Hj).
    rewrite length_map, Z.eqb_refl. cbn [negb].
    intros [= <- _]. split; [exact Hbs|]. split; [simpl; lia|].
    exists (kept ++ batch). simpl. split.
    + rewrite <- (slice_take (current_index st) batch_end texts) by lia.
      apply sublist_app; [exact Hsub|reflexivity].
    + rewrite Hemb, map_app. reflexivity.
  - cbn [exn_class exn_str]. destruct (exn_class e).
    + intros [= <- _]. apply Hskip, Hbs.
    + intros [= <- _]. apply Hskip, Hbs.
    + destruct (Py.contains _ _); [|discriminate].
      destruct (_ <? 4).
      * intros [= <- _]. apply Hskip, Hhalf.
      * intros [= <- _]. split; [exact Hhalf|]. split; [exact Hci|].
        exists kept. split; [exact Hsub|exact Hemb].
    + intros [= <- _]. apply Hskip, Hbs.
Qed.

Lemma while_loop_in_source_order (fuel : nat) :
  forall st w st' w',
    in_source_order model texts st ->
    while_loop fuel api texts lang split st w = Some (Next st', w') ->
    in_source_order model texts st'.
Proof.
  induction fuel as [|fuel IH]; intros st w st' w' Hinv; simpl;
    destruct (Z.ltb_spec (current_index st) (Z.of_nat (length texts)))
      as [Hin|Hout]; try discriminate.
  - intros [= <- _]. exact Hinv.
  - destruct (loop_body api texts lang split st w) as [[st1|e] w1] eqn:Hbody;
      [|discriminate].
    apply IH. apply (loop_body_in_source_order st w st1 w1 Hinv Hin Hbody).
  - intros [= <- _]. exact Hinv.
Qed.

Lemma while_loop_aligned (fuel : nat) :
  forall st w st' w',
    aligned model texts lang split st w
    \/ (0 <= batch_size st /\ has_failed lang split (current_index st) (db w)) ->
    while_loop fuel api texts lang split st w = Some (Next st', w') ->
    embeddings st' = map model texts
    \/ has_failed lang split (current_index st') (db w').
Proof.
  induction fuel as [|fuel IH]; intros st w st' w' Hinv; simpl;
    destruct (Z.ltb_spec (current_index st) (Z.of_nat (length texts)))
      as [Hin|Hout]; try discriminate.
  - intros [= <- <-]. destruct Hinv as [(_ & Hci & Hemb & _)|[_ Hf]].
    + left. rewrite Hemb, take_ge by lia. reflexivity.
    + right. exact Hf.
  - destruct (loop_body api texts lang split st w) as [[st1|e] w1] eqn:Hbody;
      [|discriminate].
    apply IH. destruct Hinv as [Hal|[Hbs Hf]].
    + apply (loop_body_aligned st w st1 w1 Hal Hin Hbody).
    + right. apply (loop_body_has_failed st w st1 w1 Hbs Hf Hin Hbody).
  - intros [= <- <-]. destruct Hinv as [(_ & Hci & Hemb & _)|[_ Hf]].
    + left. rewrite Hemb, take_ge by lia. reflexivity.
    + right. exact Hf.
Qed.

End HonestRuns.

Lemma good_answers_honest {Vec : Type} (model : string -> Vec)
    (api : Api Vec) :
  (forall n batch, good_answer model batch (api n batch)) -> honest model api.
Proof.
  intros Hgood n batch response v Ha _ Hj.
  destruct (Hgood n batch) as [txt Hg]. rewrite Hg in Ha.
  injection Ha as <-. simpl in Hj. congruence.
Qed.

(** C2, as the spec states it, fails.  Three records, batches of two, and
    a first batch whose five attempts are all answered 503: the batch is
    marked failed and skipped, the run returns normally, and the saved
    array holds one vector, the one of the record at offset 2, at index
    0. *)
Lemma failed_batch_breaks_alignment :
  option_map (fun '(r, w) => (r, file w))
    (embed_dataset_robust 10 Fixture.api_503_then_ok Fixture.dataset3
       "python" "train" 2 Fixture.world0)
  = Some (Returned 1, Some [Fixture.model (String (ascii_of_nat 10)
                                (String (ascii_of_nat 10) EmptyString))])
  /\ option_map (fun '(r, w) => file w)
       (embed_dataset_robust 10 Fixture.api_503_then_ok Fixture.dataset3
          "python" "train" 2 Fixture.world0)
     <> Some (Some (map Fixture.model Fixture.texts3)).
Proof.
  split; [vm_compute; reflexivity|].
  vm_compute. intros H. discriminate H.
Qed.

(** C2, amended.  For every partition run over a finite source of n records
    that starts from a persisted array holding the vectors of the first k
    records (none when there is no file), with no batch at or after offset k
    reported completed: when every embedding request is answered with one
    vector per text, the run returns n and the array persisted at its end
    has exactly one vector per source record, the vector at index i being
    the embedding of the prepared text of the record at offset i; and the
    same holds of every run that returns, with an endpoint whose answers
    200 carry the embeddings of the texts sent, and leaves no batch of the
    partition marked failed.  Of a run that returns and leaves batches
    marked failed, the array holds the embeddings of some of the records,
    in the order of the source, and their number is what the run returns.
    A batch that is marked failed is skipped without a vector being stored
    for its records: an iteration of the loop that falls through and
    leaves its batch marked failed has appended nothing, has left the
    array file as it was, and has moved the offset to the end of the
    batch. *)
Theorem good_run_is_index_aligned {Vec : Type} (api : Api Vec)
    (model : string -> Vec) (dataset : list Item) (lang split : string)
    (initial_batch_size : Z) (w : World Vec) (k fuel : nat) :
  1 <= initial_batch_size ->
  (k <= length dataset)%nat ->
  default [] (file w) = map model (take k (fst (prepare_texts dataset))) ->
  (forall j, Z.of_nat k <= j ->
     status_completed
       (CheckpointManager.get_batch_status (make_batch_id lang split j) (db w))
     = false) ->
  ((forall n batch, good_answer model batch (api n batch)) ->
   (length dataset <= fuel)%nat ->
   exists w',
     embed_dataset_robust fuel api dataset lang split initial_batch_size w
     = Some (Returned (Z.of_nat (length dataset)), w')
     /\ file w'
        = Some (map (fun item =>
                       model (fst (adaptive_truncation (combine_item item))))
                  dataset))
  /\ (honest model api ->
      forall count w',
        embed_dataset_robust fuel api dataset lang split initial_batch_size w
        = Some (Returned count, w') ->
        (forall j row, 0 <= j ->
           db w' !! make_batch_id lang split j = Some row ->
           CheckpointManager.status row <> CheckpointManager.failed) ->
        count = Z.of_nat (length dataset)
        /\ file w'
           = Some (map (fun item =>
                          model (fst (adaptive_truncation (combine_item item))))
                     dataset))
  /\ (honest model api ->
      forall count w',
        embed_dataset_robust fuel api dataset lang split initial_batch_size w
        = Some (Returned count, w') ->
        exists kept,
          sublist kept (fst (prepare_texts dataset))
          /\ file w' = Some (map model kept)
          /\ count = Z.of_nat (length kept))
  /\ (forall (st st' : Loop Vec) (w1 w1' : World Vec)
             (row : CheckpointManager.Row),
        loop_body api (fst (prepare_texts dataset)) lang split st w1
        = (Next st', w1') ->
        db w1' !! make_batch_id lang split (current_index st) = Some row ->
        CheckpointManager.status row = CheckpointManager.failed ->
        embeddings st' = embeddings st
        /\ file w1' = file w1
        /\ current_index st'
           = Z.min (current_index st + batch_size st)
               (Z.of_nat (length dataset))).
Proof.
  intros Hbs Hk Hfile Hnone.
  rewrite embed_dataset_robust_nonzero by lia.
  set (texts := fst (prepare_texts dataset)) in *.
  assert (Hlen : length texts = length dataset).
  { unfold texts, prepare_texts. simpl. apply length_map. }
  assert (Htexts : map model texts
                   = map (fun item =>
                            model (fst (adaptive_truncation (combine_item item))))
                       dataset).
  { unfold texts, prepare_texts. simpl. apply map_map. }
  assert (Hemb0 : embeddings (loop_variables initial_batch_size w)
                  = map model (take k texts)).
  { unfold loop_variables. simpl. rewrite <- Hfile. destruct (file w); reflexivity. }
  assert (Hci0 : current_index (loop_variables initial_batch_size w) = Z.of_nat k).
  { unfold loop_variables. simpl.
    replace (match file w with Some e => e | None => [] end)
      with (map model (take k texts))
      by (rewrite <- Hfile; destruct (file w); reflexivity).
    rewrite length_map, length_take. lia. }
  split; [|split; [|split]].
  - intros Hapi Hfuel.
    destruct (while_loop_good api model texts lang split Hapi fuel
                (loop_variables initial_batch_size w) w)
      as (st' & w' & Erun & Hemb).
    + exact Hbs.
    + rewrite Hci0. lia.
    + rewrite Hemb0, Hci0, Nat2Z.id. reflexivity.
    + intros j Hj. apply Hnone. rewrite <- Hci0. exact Hj.
    + rewrite Hci0. lia.
    + rewrite Erun. eexists. split.
      * rewrite Hemb, length_map, Hlen. reflexivity.
      * simpl. rewrite Htexts. reflexivity.
  - intros Hhonest count w' Hrun Hnofail.
    destruct (while_loop fuel api texts lang split
                (loop_variables initial_batch_size w) w)
      as [[[st1|e] w1]|] eqn:Erun; try discriminate.
    injection Hrun as <- <-.
    destruct (while_loop_aligned api model texts lang split Hhonest fuel
                (loop_variables initial_batch_size w) w st1 w1) as [Hemb|Hfailed].
    + left. split; [exact Hbs|]. split; [rewrite Hci0; lia|].
      split; [rewrite Hemb0, Hci0, Nat2Z.id; reflexivity|].
      intros j Hj. apply Hnone. rewrite <- Hci0. exact Hj.
    + exact Erun.
    + rewrite Hemb, length_map, Hlen. split; [reflexivity|].
      simpl. rewrite Htexts. reflexivity.
    + exfalso. destruct Hfailed as (a & row & Ha & Hrow & Hst).
      apply (Hnofail a row); [lia | exact Hrow | exact Hst].
  - intros Hhonest count w' Hrun.
    destruct (while_loop fuel api texts lang split
                (loop_variables initial_batch_size w) w)
      as [[[st1|e] w1]|] eqn:Erun; try discriminate.
    injection Hrun as <- <-.
    destruct (while_loop_in_source_order api model texts lang split Hhonest
                fuel (loop_variables initial_batch_size w) w st1 w1)
      as (_ & _ & kept & Hsub & Hemb).
    + split; [simpl; lia|]. split; [rewrite Hci0; lia|].
      exists (take k texts). rewrite Hci0, Nat2Z.id.
      split; [reflexivity|exact Hemb0].
    + exact Erun.
    + exists kept. split; [etrans; [exact Hsub|apply sublist_take]|].
      rewrite Hemb, length_map. split; reflexivity.
  - intros st st' w1 w1' row Hbody Hrow Hst. rewrite <- Hlen.
    exact (loop_body_failed_is_skipped api texts lang split st w1 st' w1' row
             Hbody Hrow Hst).
Qed.

(** Two transient errors on the first batch: the third attempt succeeds
    and the array is aligned. *)
Example transient_errors_recover :
  option_map (fun '(r, w) => (r, calls w, file w))
    (embed_dataset_robust 3 Fixture.api_503_twice Fixture.dataset3
       "python" "train" 2 Fixture.world0)
  = Some (Returned 3, 4%nat, Some (map Fixture.model Fixture.texts3)).
Proof. vm_compute. reflexivity. Qed.

Lemma good_run_is_index_aligned_witness :
  exists w',
    embed_dataset_robust 3 Fixture.api_ok Fixture.dataset3 "python" "train"
      2 Fixture.world0
    = Some (Returned 3, w')
    /\ file w'
       = Some (map (fun item =>
                      Fixture.model
                        (fst (adaptive_truncation (combine_item item))))
                 Fixture.dataset3).
Proof.
  apply (good_run_is_index_aligned Fixture.api_ok Fixture.model
           Fixture.dataset3 "python" "train" 2 Fixture.world0 0 3).
  - lia.
  - simpl. lia.
  - reflexivity.
  - intros j Hj. reflexivity.
  - intros n batch. exists EmptyString. reflexivity.
  - simpl. lia.
Defined.

(** *** Startup and the first request *)

Section FirstRequest.

Context {Vec : Type}.
Implicit Types (w : World Vec) (api : Api Vec) (st : Loop Vec).

Lemma retry_loop_first_post api max_retries retry rest batch batch_id w :
  exists new,
    log (snd (retry_loop api max_retries (retry :: rest) batch batch_id w))
    = new ++ log (snd (requests_post api batch (backoff retry batch_id w))).
Proof.
  set (w2 := snd (requests_post api batch (backoff retry batch_id w))).
  assert (Hnext : forall w3,
            (exists new, log w3 = new ++ log w2) ->
            exists new,
              log (snd (retry_loop api max_retries rest batch batch_id w3))
              = new ++ log w2).
  { intros w3 [n3 H3].
    destruct (touches_only_retry_loop api max_retries rest batch batch_id w3)
      as (_ & _ & _ & n4 & H4).
    exists (n4 ++ n3). rewrite H4, H3. apply app_assoc. }
  assert (Hhere : exists new, log w2 = new ++ log w2) by (exists []; reflexivity).
  assert (Hslept : exists new, log (sleep 60 w2) = new ++ log w2)
    by (exists [EvSleep 60]; reflexivity).
  simpl. unfold requests_post in *. simpl in w2. fold w2.
  destruct (api (calls (backoff retry batch_id w)) batch) as [response|e].
  - destruct (status_code response =? 400).
    { destruct (Py.contains _ _); [exact Hhere | apply Hnext, Hhere]. }
    destruct (status_code response =? 429); [apply Hnext, Hslept|].
    destruct (status_code response =? 503); [apply Hnext, Hhere|].
    destruct (status_code response =? 200); simpl; [|apply Hnext, Hhere].
    destruct (json response) as [v|e]; [exact Hhere|].
    destruct (exn_class e); try apply Hnext, Hhere; exact Hhere.
  - destruct (exn_class e); try apply Hnext, Hhere; exact Hhere.
Qed.

(** An iteration for a batch that the table does not report completed
    records the batch as in progress and then sends the request, whatever
    else the table holds. *)
Lemma loop_body_first_request api texts lang split st w :
  let batch_end :=
    Z.min (current_index st + batch_size st) (Z.of_nat (length texts)) in
  let batch := Py.slice (current_index st) batch_end texts in
  let batch_id := make_batch_id lang split (current_index st) in
  status_completed (CheckpointManager.get_batch_status batch_id (db w)) = false ->
  exists new,
    log (snd (loop_body api texts lang split st w))
    = new ++ EvPost (now w) batch
        :: EvDurable
             (CheckpointManager.mark_in_progress (now w) batch_id lang split
                (current_index st) (batch_size st) (db w))
             (file w)
        :: log w.
Proof.
  intros batch_end batch batch_id Hstatus.
  unfold loop_body. fold batch_end. fold batch. fold batch_id.
  rewrite Hstatus. unfold try_block, embed_batch_with_retry.
  change (range 5) with [0; 1; 2; 3; 4].
  set (w0 := ckpt_mark_in_progress batch_id lang split (current_index st)
               (batch_size st) w).
  destruct (retry_loop_first_post api 5 0 [1; 2; 3; 4] batch batch_id w0)
    as (new & Hlog).
  change (log (snd (requests_post api batch (backoff 0 batch_id w0))))
    with (EvPost (now w) batch
            :: EvDurable
                 (CheckpointManager.mark_in_progress (now w) batch_id lang
                    split (current_index st) (batch_size st) (db w))
                 (file w)
            :: log w) in Hlog.
  destruct (retry_loop api 5 [0; 1; 2; 3; 4] batch batch_id w0) as [[v|e] w2];
    simpl in Hlog.
  - destruct (negb _).
    + cbn [exn_class exn_str]. destruct (Py.contains _ _).
      * destruct (_ <? 4); simpl; rewrite Hlog;
          [eexists (_ :: new) | exists new]; reflexivity.
      * simpl. exists new. exact Hlog.
    + simpl. rewrite Hlog. eexists (_ :: _ :: _ :: new). reflexivity.
  - destruct (exn_class e).
    + simpl. rewrite Hlog. eexists (_ :: new). reflexivity.
    + simpl. rewrite Hlog. eexists (_ :: new). reflexivity.
    + destruct (Py.contains _ _).
      * destruct (_ <? 4); simpl; rewrite Hlog;
          [eexists (_ :: new) | exists new]; reflexivity.
      * simpl. exists new. exact Hlog.
    + simpl. rewrite Hlog. eexists (_ :: new). reflexivity.
Qed.

End FirstRequest.

(** C3 fails on the code: nothing compares the array with the table.  The
    table reports the batch at offset 0, of size 2, completed, and the
    array file holds one vector, so the length of the array (1) differs
    from the sum of the batch sizes of the completed batches (2): no error
    is raised, the loop resumes at offset 1, a request is sent, and the run
    returns normally with three vectors. *)
Theorem length_mismatch_is_not_detected :
  CheckpointManager.completed_total "python" "train"
    (db Fixture.world_mismatch) = 2
  /\ (length <$> file Fixture.world_mismatch) = Some 1%nat
  /\ option_map (fun '(r, w) => (r, calls w, length <$> file w))
       (embed_dataset_robust 10 Fixture.api_ok Fixture.dataset3
          "python" "train" 2 Fixture.world_mismatch)
     = Some (Returned 3, 1%nat, Some 3%nat).
Proof.
  split; [vm_compute; reflexivity|].
  split; vm_compute; reflexivity.
Qed.

(** C1 fails on the code: [mark_completed] is committed before the array
    is saved.  In the run over three records in batches of two, with every
    request answered, there is a durable state in which the table reports
    the batch at offset 0 completed while no array file exists; a restart
    from that state skips the batch and ends with one vector, the one of the
    record at offset 2, instead of three. *)
Theorem completed_is_committed_before_the_save :
  exists w',
    embed_dataset_robust 10 Fixture.api_ok Fixture.dataset3 "python" "train"
      2 Fixture.world0
    = Some (Returned 3, w')
    /\ In (EvDurable FixtureStates.table_first_completed None) (log w')
    /\ (CheckpointManager.status
          <$> FixtureStates.table_first_completed !! "python_train_batch_000000")
       = Some CheckpointManager.completed
    /\ option_map (fun '(r, w) => (r, file w))
         (embed_dataset_robust 10 Fixture.api_ok Fixture.dataset3
            "python" "train" 2 FixtureStates.world_restart)
       = Some (Returned 1,
               Some [Fixture.model (String (ascii_of_nat 10)
                                      (String (ascii_of_nat 10) EmptyString))]).
Proof.
  eexists. split; [vm_compute; reflexivity|].
  split.
  - vm_compute. do 8 (try (left; reflexivity); right).
    left; reflexivity.
  - split; vm_compute; reflexivity.
Qed.

(** ** The theorems at concrete inputs *)

Lemma exhausted_batch_is_failed_and_skipped_witness :
  exists w',
    loop_body Fixture.api_503_then_ok Fixture.texts3 "python" "train"
      (loop_variables 2 Fixture.world0) Fixture.world0
    = (Next {| embeddings := []; batch_size := 2; current_index := 2 |}, w')
    /\ calls w' = 5%nat.
Proof.
  destruct (exhausted_batch_is_failed_and_skipped Fixture.api_503_then_ok
              Fixture.texts3 "python" "train" (loop_variables 2 Fixture.world0)
              Fixture.world0)
    as (w' & E & Hc & _).
  - reflexivity.
  - intros k Hk. do 5 (destruct k as [|k]; [reflexivity|]). simpl in Hk. lia.
  - exists w'. split; [exact E | exact Hc].
Defined.

Lemma token_limit_halves_batch_witness :
  exists w',
    loop_body Fixture.api_token_limit Fixture.texts3 "python" "train"
      (loop_variables 4 Fixture.world0) Fixture.world0
    = (Next {| embeddings := []; batch_size := 2; current_index := 3 |}, w')
    /\ exists row,
         db w' !! "python_train_batch_000000" = Some row
         /\ CheckpointManager.status row = CheckpointManager.failed.
Proof.
  destruct (token_limit_halves_batch Fixture.api_token_limit
              Fixture.texts3 "python" "train" (loop_variables 4 Fixture.world0)
              Fixture.world0 0)
    as (w' & E & _ & Hfail).
  - reflexivity.
  - lia.
  - intros k Hk. lia.
  - reflexivity.
  - destruct Hfail as (row & Hrow & Hst & _ & _); [reflexivity|].
    exists w'. split; [exact E|]. exists row. split; [exact Hrow | exact Hst].
Defined.

Lemma batch_size_never_restored_witness :
  0 <= batch_size (fst FixtureStates.after_token_limit) <= 8.
Proof.
  apply (batch_size_never_restored Fixture.api_token_limit Fixture.texts3
           "python" "train" (loop_variables 8 Fixture.world0, Fixture.world0)
           FixtureStates.after_token_limit).
  - simpl. lia.
  - apply rtc_once. split; [simpl; lia | vm_compute; reflexivity].
Defined.

Lemma http_429_consumes_retry_budget_witness :
  exists w',
    embed_batch_with_retry Fixture.api_429 ["def f(): pass"]
      "python_train_batch_000000" 3 Fixture.world_mismatch
    = (Raise (Exn ExceptionCls "Failed after 3 retries"), w')
    /\ calls w' = 3%nat.
Proof.
  destruct (proj2 (http_429_consumes_retry_budget Fixture.api_429
                     ["def f(): pass"] "python_train_batch_000000" 3
                     Fixture.world_mismatch))
    as (w' & E & Hc & _).
  - intros k Hk. reflexivity.
  - exists w'. split; [exact E | exact Hc].
Defined.

(* ===================================================================== *)
(** * Part III: further properties of the scripts *)
(* ===================================================================== *)

(** ** CheckpointStore: rows, lookups and counts *)

Module CheckpointLaws.
Import CheckpointManager.

Lemma count_step_comm (lang split : string) (r1 r2 : Row) (n : Z) :
  (if is_completed_of lang split r1
   then (if is_completed_of lang split r2 then n + 1 else n) + 1
   else (if is_completed_of lang split r2 then n + 1 else n))
  = (if is_completed_of lang split r2
     then (if is_completed_of lang split r1 then n + 1 else n) + 1
     else (if is_completed_of lang split r1 then n + 1 else n)).
Proof.
  destruct (is_completed_of lang split r1),
    (is_completed_of lang split r2); reflexivity.
Qed.

(** The count of a table with one more row. *)
Lemma get_completed_count_insert (lang split batch_id : string) (r : Row)
    (t : gmap string Row) :
  t !! batch_id = None ->
  get_completed_count lang split (<[batch_id := r]> t)
  = get_completed_count lang split t
    + (if is_completed_of lang split r then 1 else 0).
Proof.
  intros Hnone. unfold get_completed_count.
  rewrite map_fold_insert_L.
  - destruct (is_completed_of lang split r); lia.
  - intros j1 j2 z1 z2 y _ _ _. apply count_step_comm.
  - exact Hnone.
Qed.

(** The count of a table, split at one of its rows. *)
Lemma get_completed_count_lookup (lang split batch_id : string) (r : Row)
    (t : gmap string Row) :
  t !! batch_id = Some r ->
  get_completed_count lang split t
  = get_completed_count lang split (delete batch_id t)
    + (if is_completed_of lang split r then 1 else 0).
Proof.
  intros Hr.
  rewrite <- (insert_delete_id t batch_id r Hr) at 1.
  apply get_completed_count_insert, lookup_delete_eq.
Qed.

Lemma get_completed_count_alter (lang split batch_id : string)
    (f : Row -> Row) (r : Row) (t : gmap string Row) :
  t !! batch_id = Some r ->
  get_completed_count lang split (alter f batch_id t)
  = get_completed_count lang split t
    - (if is_completed_of lang split r then 1 else 0)
    + (if is_completed_of lang split (f r) then 1 else 0).
Proof.
  intros Hr.
  rewrite (get_completed_count_lookup lang split batch_id r t Hr).
  rewrite (get_completed_count_lookup lang split batch_id (f r)
             (alter f batch_id t))
    by (rewrite lookup_alter_eq, Hr; reflexivity).
  rewrite delete_alter_eq. lia.
Qed.

End CheckpointLaws.

(** X1.  Each of the four operations writes the row of its own [batch_id]
    only: the row of every other key, with all its columns, is the one the
    table held before, or is absent as before.  The three [UPDATE]s do
    nothing at all when the row of [batch_id] does not exist: only
    [mark_in_progress] creates rows. *)
Theorem checkpoint_ops_touch_one_row (now : Q) (batch_id : string)
    (op : CheckpointManager.Op) (t : gmap string CheckpointManager.Row) :
  (forall other, other <> batch_id ->
     CheckpointManager.apply_op now batch_id op t !! other = t !! other)
  /\ (keeps_row op = true -> t !! batch_id = None ->
      CheckpointManager.apply_op now batch_id op t = t)
  /\ (keeps_row op = false ->
      is_Some (CheckpointManager.apply_op now batch_id op t !! batch_id)).
Proof.
  split; [|split].
  - intros other Hne.
    destruct op; simpl;
      unfold CheckpointManager.mark_in_progress,
        CheckpointManager.increment_retry, CheckpointManager.mark_completed,
        CheckpointManager.mark_failed;
      [rewrite lookup_insert_ne by congruence
      |rewrite lookup_alter_ne by congruence ..]; reflexivity.
  - intros Hop Hnone. destruct op; simpl in *; try discriminate;
      unfold CheckpointManager.increment_retry,
        CheckpointManager.mark_completed, CheckpointManager.mark_failed;
      apply map_eq; intros k; rewrite lookup_alter;
      case_decide; subst; rewrite ?Hnone; reflexivity.
  - intros Hop. destruct op; simpl in *; try discriminate.
    unfold CheckpointManager.mark_in_progress. rewrite lookup_insert_eq.
    eauto.
Qed.

Lemma checkpoint_ops_touch_one_row_witness :
  CheckpointManager.apply_op 1 "python_train_batch_000032"
    (CheckpointManager.OpMarkFailed "Failed after 5 retries") Sample.table0
  = Sample.table0.
Proof.
  apply (checkpoint_ops_touch_one_row 1 "python_train_batch_000032").
  - reflexivity.
  - reflexivity.
Defined.

(** X2.  What [get_batch_status] reads back after each write to a row that
    exists: [mark_in_progress] gives ('in_progress', 0) whatever the row
    held, [mark_completed] and [mark_failed] change the status and keep
    [retry_count], [increment_retry] adds one to [retry_count] and keeps
    the status. *)
Theorem get_batch_status_after_write (now : Q) (batch_id : string)
    (t : gmap string CheckpointManager.Row) (r : CheckpointManager.Row) :
  t !! batch_id = Some r ->
  (forall lang split index size,
     CheckpointManager.get_batch_status batch_id
       (CheckpointManager.mark_in_progress now batch_id lang split index size t)
     = Some (CheckpointManager.in_progress, 0))
  /\ CheckpointManager.get_batch_status batch_id
       (CheckpointManager.mark_completed now batch_id t)
     = Some (CheckpointManager.completed, CheckpointManager.retry_count r)
  /\ (forall msg,
        CheckpointManager.get_batch_status batch_id
          (CheckpointManager.mark_failed now batch_id msg t)
        = Some (CheckpointManager.failed, CheckpointManager.retry_count r))
  /\ CheckpointManager.get_batch_status batch_id
       (CheckpointManager.increment_retry batch_id t)
     = Some (CheckpointManager.status r, CheckpointManager.retry_count r + 1).
Proof.
  intros Hr. unfold CheckpointManager.get_batch_status,
    CheckpointManager.mark_in_progress, CheckpointManager.mark_completed,
    CheckpointManager.mark_failed, CheckpointManager.increment_retry.
  repeat split; intros;
    rewrite ?lookup_insert_eq, ?lookup_alter_eq, ?Hr; reflexivity.
Qed.

Lemma get_batch_status_after_write_witness :
  CheckpointManager.get_batch_status "python_train_batch_000000"
    (CheckpointManager.increment_retry "python_train_batch_000000"
       Sample.table0)
  = Some (CheckpointManager.in_progress, 1).
Proof.
  destruct (get_batch_status_after_write 0 "python_train_batch_000000"
              Sample.table0 Sample.row0) as (_ & _ & _ & H).
  - reflexivity.
  - exact H.
Defined.

(** X3.  [get_completed_count] follows the marks: marking a row of the
    partition that is not yet completed adds exactly one to the count of
    its partition, marking a completed row again adds nothing, marking it
    failed or in progress again takes it out of the count, and the count
    of every other partition is left as it is. *)
Theorem completed_count_follows_marks (now : Q) (batch_id : string)
    (t : gmap string CheckpointManager.Row) (r : CheckpointManager.Row) :
  t !! batch_id = Some r ->
  let lang := CheckpointManager.lang_name r in
  let split := CheckpointManager.split_name r in
  let was := if decide (CheckpointManager.status r
                        = CheckpointManager.completed) then 1 else 0 in
  CheckpointManager.get_completed_count lang split
    (CheckpointManager.mark_completed now batch_id t)
  = CheckpointManager.get_completed_count lang split t + 1 - was
  /\ (forall msg,
        CheckpointManager.get_completed_count lang split
          (CheckpointManager.mark_failed now batch_id msg t)
        = CheckpointManager.get_completed_count lang split t - was)
  /\ (forall index size,
        CheckpointManager.get_completed_count lang split
          (CheckpointManager.mark_in_progress now batch_id lang split
             index size t)
        = CheckpointManager.get_completed_count lang split t - was)
  /\ (forall lang' split' op,
        (lang', split') <> (lang, split) ->
        keeps_row op = true ->
        CheckpointManager.get_completed_count lang' split'
          (CheckpointManager.apply_op now batch_id op t)
        = CheckpointManager.get_completed_count lang' split' t).
Proof.
  intros Hr lang split was.
  assert (Hwas : (if CheckpointManager.is_completed_of lang split r
                  then 1 else 0) = was).
  { unfold CheckpointManager.is_completed_of, was, lang, split.
    rewrite !bool_decide_eq_true_2 by reflexivity. simpl.
    destruct (decide _) as [E|E];
      [rewrite bool_decide_eq_true_2 | rewrite bool_decide_eq_false_2];
      auto. }
  split; [|split; [|split]].
  - unfold CheckpointManager.mark_completed.
    rewrite (CheckpointLaws.get_completed_count_alter _ _ _ _ r) by exact Hr.
    rewrite Hwas.
    unfold CheckpointManager.is_completed_of, lang, split. simpl.
    rewrite !bool_decide_eq_true_2 by reflexivity. simpl. lia.
  - intros msg. unfold CheckpointManager.mark_failed.
    rewrite (CheckpointLaws.get_completed_count_alter _ _ _ _ r) by exact Hr.
    rewrite Hwas.
    unfold CheckpointManager.is_completed_of. simpl.
    rewrite andb_false_r. lia.
  - intros index size. unfold CheckpointManager.mark_in_progress.
    rewrite <- (insert_delete_eq t).
    rewrite CheckpointLaws.get_completed_count_insert
      by apply lookup_delete_eq.
    rewrite (CheckpointLaws.get_completed_count_lookup lang split batch_id r t)
      by exact Hr.
    rewrite Hwas. unfold CheckpointManager.is_completed_of. simpl.
    rewrite andb_false_r. lia.
  - intros lang' split' op Hne Hop.
    assert (Hother : forall r', CheckpointManager.lang_name r' = lang ->
              CheckpointManager.split_name r' = split ->
              CheckpointManager.is_completed_of lang' split' r' = false).
    { intros r' Hl Hs. unfold CheckpointManager.is_completed_of.
      destruct (decide (CheckpointManager.lang_name r' = lang')) as [E1|E1];
        [|rewrite (bool_decide_eq_false_2 _ E1); reflexivity].
      destruct (decide (CheckpointManager.split_name r' = split')) as [E2|E2];
        [|rewrite (bool_decide_eq_false_2 _ E2), andb_false_r; reflexivity].
      exfalso. apply Hne. congruence. }
    destruct op; simpl in *; try discriminate;
      unfold CheckpointManager.increment_retry,
        CheckpointManager.mark_completed, CheckpointManager.mark_failed;
      rewrite (CheckpointLaws.get_completed_count_alter _ _ _ _ r) by exact Hr;
      rewrite !Hother by reflexivity; lia.
Qed.

Lemma completed_count_follows_marks_witness :
  CheckpointManager.get_completed_count "python" "train"
    (CheckpointManager.mark_completed 1 "python_train_batch_000000"
       Sample.table0)
  = CheckpointManager.get_completed_count "python" "train" Sample.table0
    + 1 - 0.
Proof.
  destruct (completed_count_follows_marks 1 "python_train_batch_000000"
              Sample.table0 Sample.row0) as (H & _).
  - reflexivity.
  - exact H.
Defined.

(** ** EmbeddingClient: budget, backoff and recorded retries *)

Section RetryLaws.

Context {Vec : Type}.
Implicit Types (w : World Vec) (api : Api Vec).

Lemma retry_loop_calls api max_retries batch batch_id retries :
  forall w,
    let w' := snd (retry_loop api max_retries retries batch batch_id w) in
    (calls w <= calls w' <= calls w + length retries)%nat
    /\ (retries <> [] -> calls w < calls w')%nat.
Proof.
  induction retries as [|retry rest IH]; intros w; cbv zeta.
  - simpl. split; [lia | congruence].
  - assert (Hnext : forall w2, calls w2 = S (calls w) ->
              (calls w
               < calls (snd (retry_loop api max_retries rest batch batch_id w2))
               <= calls w + S (length rest))%nat).
    { intros w2 H2. destruct (IH w2) as [Hb _]. cbv zeta in Hb. lia. }
    assert (Hhere :
      (calls w
       < calls (snd (requests_post api batch (backoff retry batch_id w)))
       <= calls w + S (length rest))%nat).
    { simpl. rewrite calls_backoff. lia. }
    assert (Hc2 : calls (snd (requests_post api batch
                                (backoff retry batch_id w)))
                  = S (calls w)).
    { simpl. apply f_equal, calls_backoff. }
    assert (Hc3 : calls (sleep 60 (snd (requests_post api batch
                                          (backoff retry batch_id w))))
                  = S (calls w)).
    { simpl. apply f_equal, calls_backoff. }
    assert (Hall :
      (calls w
       < calls (snd (retry_loop api max_retries (retry :: rest) batch batch_id w))
       <= calls w + S (length rest))%nat).
    { simpl. unfold requests_post in *. simpl in Hhere, Hc2, Hc3.
      destruct (api (calls (backoff retry batch_id w)) batch) as [response|e].
      - destruct (status_code response =? 400).
        { destruct (Py.contains _ _); [exact Hhere | apply Hnext, Hc2]. }
        destruct (status_code response =? 429); [apply Hnext, Hc3|].
        destruct (status_code response =? 503); [apply Hnext, Hc2|].
        destruct (status_code response =? 200); simpl; [|apply Hnext, Hc2].
        destruct (json response) as [v|e]; [exact Hhere|].
        destruct (exn_class e); try apply Hnext, Hc2; exact Hhere.
      - destruct (exn_class e); try apply Hnext, Hc2; exact Hhere. }
    simpl length. split; [lia | intros _; lia].
Qed.

(** The retry loop, after a prefix of iterations whose answers are all
    retryable, is the retry loop for the remaining values of [retry]. *)
Lemma retry_loop_retried api max_retries batch batch_id (j : nat) :
  forall retries w,
    (forall k, (k < j)%nat -> retryable (api (calls w + k)%nat batch) = true) ->
    (j <= length retries)%nat ->
    retry_loop api max_retries retries batch batch_id w
    = retry_loop api max_retries (drop j retries) batch batch_id
        (retried api batch batch_id (take j retries) w)
    /\ calls (retried api batch batch_id (take j retries) w)
       = (calls w + j)%nat.
Proof.
  induction j as [|j IH]; intros retries w Hall Hlen.
  - rewrite drop_0, take_0. simpl. split; [reflexivity | lia].
  - destruct retries as [|retry rest]; [simpl in Hlen; lia|].
    rewrite retry_loop_continue
      by (specialize (Hall O); rewrite Nat.add_0_r in Hall; apply Hall; lia).
    simpl take. simpl drop. unfold retried. simpl fold_left.
    fold (retried api batch batch_id (take j rest)
            (after_retryable api retry batch batch_id w)).
    destruct (IH rest (after_retryable api retry batch batch_id w))
      as (E & Hc).
    + intros k Hk. rewrite calls_after_retryable.
      replace (S (calls w) + k)%nat with (calls w + S k)%nat by lia.
      apply Hall. lia.
    + simpl in Hlen. lia.
    + split; [exact E|]. rewrite Hc, calls_after_retryable. lia.
Qed.

Lemma db_after_retryable api retry batch batch_id w :
  db (after_retryable api retry batch batch_id w)
  = if retry >? 0
    then CheckpointManager.increment_retry batch_id (db w)
    else db w.
Proof.
  unfold after_retryable, requests_post, backoff.
  destruct (is_429 _), (retry >? 0); reflexivity.
Qed.

(** Each value of [retry] above 0 in a retried prefix has added one to
    [retry_count] and has left the status of the row as it was. *)
Lemma status_after_retried api batch batch_id retries :
  forall w r,
    db w !! batch_id = Some r ->
    CheckpointManager.get_batch_status batch_id
      (db (retried api batch batch_id retries w))
    = Some (CheckpointManager.status r,
            CheckpointManager.retry_count r
            + Z.of_nat (length (filter (fun retry => 0 < retry) retries))).
Proof.
  induction retries as [|retry rest IH]; intros w r Hr.
  - simpl. unfold CheckpointManager.get_batch_status. rewrite Hr. simpl.
    do 2 f_equal. lia.
  - unfold retried. simpl fold_left.
    fold (retried api batch batch_id rest
            (after_retryable api retry batch batch_id w)).
    destruct (Z.gtb_spec retry 0) as [Hpos|Hnot].
    + rewrite filter_cons_True by lia.
      rewrite (IH _ (CheckpointManager.bump_retry r)).
      * simpl. do 2 f_equal. lia.
      * rewrite db_after_retryable.
        destruct (Z.gtb_spec retry 0); [|lia].
        unfold CheckpointManager.increment_retry.
        rewrite lookup_alter_eq, Hr. reflexivity.
    + rewrite filter_cons_False by lia.
      apply IH. rewrite db_after_retryable.
      destruct (Z.gtb_spec retry 0); [lia | exact Hr].
Qed.

Lemma filter_positive_all (l : list Z) :
  Forall (fun retry => 0 < retry) l ->
  filter (fun retry => 0 < retry) l = l.
Proof.
  induction 1 as [|x l Hx _ IH]; [reflexivity|].
  rewrite filter_cons_True by exact Hx. rewrite IH. reflexivity.
Qed.

Lemma positive_retries_range (n : Z) :
  1 <= n ->
  Z.of_nat (length (filter (fun retry => 0 < retry) (range n))) = n - 1.
Proof.
  intros Hn. unfold range. rewrite seqZ_cons by lia.
  rewrite filter_cons_False by lia.
  rewrite filter_positive_all.
  - rewrite length_seqZ. lia.
  - apply Forall_seqZ. intros k Hk. lia.
Qed.

End RetryLaws.

Section BackoffLaws.

Context {Vec : Type}.
Implicit Types (w : World Vec) (api : Api Vec).

Lemma sleeps_after_retryable api retry batch batch_id w :
  is_429 (api (calls w) batch) = false ->
  sleeps (log (after_retryable api retry batch batch_id w))
  = sleeps (log w)
    ++ (if retry >? 0 then [inject_Z (10 * 3 ^ (retry - 1))] else []).
Proof.
  intros H429. unfold after_retryable, requests_post.
  rewrite calls_backoff, H429. unfold backoff.
  destruct (retry >? 0); simpl; [reflexivity | rewrite app_nil_r; reflexivity].
Qed.

Lemma sleeps_retried api batch batch_id retries :
  forall w,
    (forall k, (k < length retries)%nat ->
       is_429 (api (calls w + k)%nat batch) = false) ->
    sleeps (log (retried api batch batch_id retries w))
    = sleeps (log w)
      ++ map (fun retry => inject_Z (10 * 3 ^ (retry - 1)))
           (filter (fun retry => 0 < retry) retries).
Proof.
  induction retries as [|retry rest IH]; intros w Hall.
  - simpl. rewrite app_nil_r. reflexivity.
  - unfold retried. simpl fold_left.
    fold (retried api batch batch_id rest
            (after_retryable api retry batch batch_id w)).
    rewrite IH.
    + rewrite sleeps_after_retryable
        by (specialize (Hall O); rewrite Nat.add_0_r in Hall;
            apply Hall; simpl; lia).
      destruct (Z.gtb_spec retry 0).
      * rewrite filter_cons_True by lia. rewrite <- app_assoc. reflexivity.
      * rewrite filter_cons_False by lia. rewrite app_nil_r. reflexivity.
    + intros k Hk. rewrite calls_after_retryable.
      replace (S (calls w) + k)%nat with (calls w + S k)%nat by lia.
      apply Hall. simpl. lia.
Qed.

End BackoffLaws.

(** X4.  Whatever the endpoint answers, [embed_batch_with_retry] sends at
    most [max_retries] requests for a batch, and at least one when
    [max_retries] is positive; with [max_retries] 0 or negative it sends
    none, marks the batch failed at once and raises. *)
Theorem retry_budget_bounds_requests {Vec : Type} (api : Api Vec)
    (batch : list string) (batch_id : string) (max_retries : Z)
    (w : World Vec) :
  let r := embed_batch_with_retry api batch batch_id max_retries w in
  (calls w <= calls (snd r) <= calls w + Z.to_nat max_retries)%nat
  /\ (1 <= max_retries -> (calls w < calls (snd r))%nat)
  /\ (max_retries <= 0 ->
      r = (Raise (Exn ExceptionCls
                    ("Failed after " +:+ Py.str_of_Z max_retries
                     +:+ " retries")),
           ckpt_mark_failed batch_id
             ("Failed after " +:+ Py.str_of_Z max_retries +:+ " retries") w)).
Proof.
  cbv zeta. unfold embed_batch_with_retry.
  destruct (retry_loop_calls api max_retries batch batch_id
              (range max_retries) w) as (Hb & Hpos).
  cbv zeta in Hb, Hpos. rewrite length_range in Hb.
  split; [exact Hb|]. split.
  - intros Hmr. apply Hpos. intros Hnil.
    apply (f_equal length) in Hnil. rewrite length_range in Hnil.
    simpl in Hnil. lia.
  - intros Hmr. unfold range. rewrite seqZ_nil by exact Hmr. reflexivity.
Qed.

Lemma retry_budget_bounds_requests_witness :
  (calls Fixture.world0
   < calls (snd (embed_batch_with_retry Fixture.api_429 ["def f(): pass"]
                   "python_train_batch_000000" 5 Fixture.world0)))%nat.
Proof.
  apply (retry_budget_bounds_requests Fixture.api_429 ["def f(): pass"]
           "python_train_batch_000000" 5 Fixture.world0).
  lia.
Defined.

(** X5.  When all the attempts of a batch are answered by retryable errors,
    the row of the batch ends failed with [retry_count] raised by
    [max_retries - 1]: the first attempt is not counted as a retry. *)
Theorem exhausted_batch_counts_retries {Vec : Type} (api : Api Vec)
    (batch : list string) (batch_id : string) (max_retries : Z)
    (w : World Vec) (r : CheckpointManager.Row) :
  1 <= max_retries ->
  db w !! batch_id = Some r ->
  (forall k, (k < Z.to_nat max_retries)%nat ->
     retryable (api (calls w + k)%nat batch) = true) ->
  CheckpointManager.get_batch_status batch_id
    (db (snd (embed_batch_with_retry api batch batch_id max_retries w)))
  = Some (CheckpointManager.failed,
          CheckpointManager.retry_count r + max_retries - 1).
Proof.
  intros Hmr Hr Hall. unfold embed_batch_with_retry.
  destruct (retry_loop_retried api max_retries batch batch_id
              (length (range max_retries)) (range max_retries) w)
    as (E & _).
  { rewrite length_range. exact Hall. }
  { lia. }
  rewrite E, drop_all, firstn_all. simpl.
  pose proof (status_after_retried api batch batch_id (range max_retries)
                w r Hr) as Hs.
  unfold CheckpointManager.get_batch_status in *.
  unfold CheckpointManager.mark_failed. rewrite lookup_alter_eq.
  destruct (db (retried api batch batch_id (range max_retries) w)
              !! batch_id) as [r'|]; [|discriminate].
  simpl in *. injection Hs as _ Hc. rewrite Hc.
  rewrite positive_retries_range by exact Hmr. do 2 f_equal. lia.
Qed.

Lemma exhausted_batch_counts_retries_witness :
  CheckpointManager.get_batch_status "python_train_batch_000000"
    (db (snd (embed_batch_with_retry Fixture.api_429 ["def f(): pass"]
                "python_train_batch_000000" 5 Sample.world1)))
  = Some (CheckpointManager.failed, 0 + 5 - 1).
Proof.
  apply (exhausted_batch_counts_retries Fixture.api_429 ["def f(): pass"]
           "python_train_batch_000000" 5 Sample.world1 Sample.row0).
  - lia.
  - reflexivity.
  - intros k Hk. reflexivity.
Defined.

Lemma range_split (j : nat) (n : Z) :
  Z.of_nat j < n ->
  range n
  = range (Z.of_nat j)
    ++ Z.of_nat j :: seqZ (Z.of_nat j + 1) (n - Z.of_nat j - 1).
Proof.
  intros Hj. unfold range.
  replace n with (Z.of_nat j + (n - Z.of_nat j)) at 1 by lia.
  rewrite seqZ_app by lia. f_equal.
  rewrite seqZ_cons by lia.
  replace (Z.succ (0 + Z.of_nat j)) with (Z.of_nat j + 1) by lia.
  replace (Z.pred (n - Z.of_nat j)) with (n - Z.of_nat j - 1) by lia.
  reflexivity.
Qed.

(** X6.  When all the attempts of a batch are answered by retryable errors
    other than 429, the sleeps of [embed_batch_with_retry] are, in order,
    10 * 3^(k-1) seconds before retry k, for k from 1 to
    [max_retries - 1]; with the 5 attempts of the loop these are 10, 30, 90
    and 270 seconds, and the 810 seconds of the comment in the code are
    never slept. *)
Theorem backoff_schedule {Vec : Type} (api : Api Vec)
    (batch : list string) (batch_id : string) (max_retries : Z)
    (w : World Vec) :
  1 <= max_retries ->
  (forall k, (k < Z.to_nat max_retries)%nat ->
     retryable (api (calls w + k)%nat batch) = true
     /\ is_429 (api (calls w + k)%nat batch) = false) ->
  sleeps (log (snd (embed_batch_with_retry api batch batch_id max_retries w)))
  = sleeps (log w)
    ++ map (fun k => inject_Z (10 * 3 ^ (k - 1))) (seqZ 1 (max_retries - 1))
  /\ (max_retries = 5 ->
      sleeps (log (snd (embed_batch_with_retry api batch batch_id 5 w)))
      = sleeps (log w) ++ [10; 30; 90; 270]%Q).
Proof.
  intros Hmr Hall.
  assert (Hgen : sleeps (log (snd (embed_batch_with_retry api batch batch_id
                                     max_retries w)))
                 = sleeps (log w)
                   ++ map (fun k => inject_Z (10 * 3 ^ (k - 1)))
                        (seqZ 1 (max_retries - 1))).
  { unfold embed_batch_with_retry.
    destruct (retry_loop_retried api max_retries batch batch_id
                (length (range max_retries)) (range max_retries) w)
      as (E & _).
    { rewrite length_range. intros k Hk. apply Hall, Hk. }
    { lia. }
    rewrite E, drop_all, firstn_all. simpl.
    rewrite sleeps_retried
      by (rewrite length_range; intros k Hk; apply Hall, Hk).
    do 2 f_equal. unfold range. rewrite seqZ_cons by lia.
    rewrite filter_cons_False by lia.
    apply filter_positive_all, Forall_seqZ. intros k Hk. lia. }
  split; [exact Hgen|].
  intros ->. rewrite Hgen. reflexivity.
Qed.

Lemma backoff_schedule_witness :
  sleeps (log (snd (embed_batch_with_retry Fixture.api_503_then_ok
                      ["def f(): pass"] "python_train_batch_000000" 5
                      Sample.world1)))
  = sleeps (log Sample.world1) ++ [10; 30; 90; 270]%Q.
Proof.
  apply (backoff_schedule Fixture.api_503_then_ok ["def f(): pass"]
           "python_train_batch_000000" 5 Sample.world1).
  - lia.
  - intros k Hk. do 5 (destruct k as [|k]; [split; reflexivity|]).
    simpl in Hk. lia.
  - reflexivity.
Defined.

Section AbsorbedErrors.

Context {Vec : Type}.
Implicit Types (w : World Vec) (api : Api Vec).

(** An answer 200 with vectors ends the loop at once with the vectors. *)
Lemma retry_loop_answers api max_retries retry rest batch batch_id w v :
  answers_with v (api (calls w) batch) ->
  retry_loop api max_retries (retry :: rest) batch batch_id w
  = (Return v, snd (requests_post api batch (backoff retry batch_id w))).
Proof.
  intros (response & Ha & H200 & Hj). simpl. unfold requests_post.
  rewrite calls_backoff, Ha, H200, Hj. reflexivity.
Qed.

End AbsorbedErrors.

(** The retry loop after [j] retryable answers and an answer 200 with
    vectors. *)
Lemma embed_batch_after_errors {Vec : Type} (api : Api Vec)
    (batch : list string) (batch_id : string) (max_retries : Z)
    (w : World Vec) (r : CheckpointManager.Row) (v : list Vec) (j : nat) :
  Z.of_nat j < max_retries ->
  db w !! batch_id = Some r ->
  (forall k, (k < j)%nat -> retryable (api (calls w + k)%nat batch) = true) ->
  answers_with v (api (calls w + j)%nat batch) ->
  exists w',
    embed_batch_with_retry api batch batch_id max_retries w = (Return v, w')
    /\ calls w' = (calls w + j + 1)%nat
    /\ file w' = file w
    /\ CheckpointManager.get_batch_status batch_id (db w')
       = Some (CheckpointManager.status r,
               CheckpointManager.retry_count r + Z.of_nat j).
Proof.
  intros Hj Hr Hall Hans. unfold embed_batch_with_retry.
  rewrite (range_split j max_retries Hj).
  set (rest := seqZ (Z.of_nat j + 1) (max_retries - Z.of_nat j - 1)).
  assert (Hlenj : length (range (Z.of_nat j)) = j)
    by (rewrite length_range; lia).
  destruct (retry_loop_retried api max_retries batch batch_id
              (length (range (Z.of_nat j)))
              (range (Z.of_nat j) ++ Z.of_nat j :: rest) w)
    as (E & Hc).
  { rewrite Hlenj. exact Hall. }
  { rewrite length_app. lia. }
  rewrite drop_app_length, take_app_length in E.
  rewrite take_app_length, Hlenj in Hc.
  set (w1 := retried api batch batch_id (range (Z.of_nat j)) w) in *.
  rewrite E.
  rewrite (retry_loop_answers api max_retries (Z.of_nat j) rest batch
             batch_id w1 v) by (rewrite Hc; exact Hans).
  eexists. split; [reflexivity|].
  pose proof (status_after_retried api batch batch_id (range (Z.of_nat j))
                w r Hr) as Hs. fold w1 in Hs.
  assert (Hf1 : file w1 = file w).
  { unfold w1. clear. generalize (range (Z.of_nat j)) w.
    intros l. induction l as [|x l IH]; intros w0; [reflexivity|].
    unfold retried in *. simpl. rewrite IH.
    apply (touches_only_after_retryable api x batch batch_id w0). }
  split; [|split].
  - simpl. rewrite calls_backoff, Hc. lia.
  - simpl. unfold backoff. destruct (_ >? 0); simpl; exact Hf1.
  - unfold CheckpointManager.get_batch_status in *.
    destruct (db w1 !! batch_id) as [r1|] eqn:Hr1; [|discriminate].
    simpl in Hs. injection Hs as Hst Hrc.
    simpl. unfold backoff.
    destruct (Z.gtb_spec (Z.of_nat j) 0) as [Hpos|Hzero]; simpl.
    + unfold CheckpointManager.increment_retry.
      rewrite lookup_alter_eq, Hr1. simpl. rewrite Hst, Hrc.
      rewrite positive_retries_range by lia. f_equal; f_equal; lia.
    + rewrite Hr1. simpl. rewrite Hst, Hrc.
      replace j with O by lia. simpl. f_equal; f_equal; lia.
Qed.


(** X7.  Retryable errors followed, within the budget, by an answer 200
    with vectors are absorbed: after j errors [embed_batch_with_retry]
    returns the vectors of the answer to request j+1, sends nothing more,
    leaves the status of the row and the array file as they were, and has
    raised [retry_count] by j. *)
Theorem transient_errors_are_absorbed {Vec : Type} (api : Api Vec)
    (batch : list string) (batch_id : string) (max_retries : Z)
    (w : World Vec) (r : CheckpointManager.Row) (v : list Vec) (j : nat) :
  Z.of_nat j < max_retries ->
  db w !! batch_id = Some r ->
  (forall k, (k < j)%nat -> retryable (api (calls w + k)%nat batch) = true) ->
  answers_with v (api (calls w + j)%nat batch) ->
  exists w',
    embed_batch_with_retry api batch batch_id max_retries w = (Return v, w')
    /\ calls w' = (calls w + j + 1)%nat
    /\ file w' = file w
    /\ CheckpointManager.get_batch_status batch_id (db w')
       = Some (CheckpointManager.status r,
               CheckpointManager.retry_count r + Z.of_nat j).
Proof.
  apply embed_batch_after_errors.
Qed.

Lemma transient_errors_are_absorbed_witness :
  exists w',
    embed_batch_with_retry Fixture.api_503_twice ["def f(): pass"]
      "python_train_batch_000000" 5 Sample.world1
    = (Return (map Fixture.model ["def f(): pass"]), w')
    /\ calls w' = 3%nat
    /\ file w' = None
    /\ CheckpointManager.get_batch_status "python_train_batch_000000" (db w')
       = Some (CheckpointManager.in_progress, 0 + 2).
Proof.
  apply (transient_errors_are_absorbed Fixture.api_503_twice
           ["def f(): pass"] "python_train_batch_000000" 5 Sample.world1
           Sample.row0 (map Fixture.model ["def f(): pass"]) 2).
  - lia.
  - reflexivity.
  - intros k Hk. do 2 (destruct k as [|k]; [reflexivity|]). lia.
  - eexists. split; [reflexivity|]. split; reflexivity.
Defined.

(** ** BatchProcessor: errors that leave the function *)

Section AbortedRuns.

Context {Vec : Type}.
Implicit Types (w : World Vec) (api : Api Vec) (st : Loop Vec).

(** A [ValueError] ends the retry loop at once and is raised again. *)
Lemma retry_loop_value_error api max_retries retry rest batch batch_id w e :
  raises_value_error e (api (calls w) batch) ->
  retry_loop api max_retries (retry :: rest) batch batch_id w
  = (Raise e, snd (requests_post api batch (backoff retry batch_id w))).
Proof.
  intros (Hcls & [Ha|(response & Ha & H200 & Hj)]); simpl;
    unfold requests_post; rewrite calls_backoff, Ha.
  - rewrite Hcls. reflexivity.
  - rewrite H200, Hj. simpl. rewrite Hcls. reflexivity.
Qed.

(** The retry loop after [j] retryable answers and a [ValueError]. *)
Lemma embed_batch_value_error api batch batch_id max_retries w
    (r : CheckpointManager.Row) (e : PyExn) (j : nat) :
  Z.of_nat j < max_retries ->
  db w !! batch_id = Some r ->
  (forall k, (k < j)%nat -> retryable (api (calls w + k)%nat batch) = true) ->
  raises_value_error e (api (calls w + j)%nat batch) ->
  exists w',
    embed_batch_with_retry api batch batch_id max_retries w = (Raise e, w')
    /\ calls w' = (calls w + j + 1)%nat
    /\ file w' = file w
    /\ CheckpointManager.get_batch_status batch_id (db w')
       = Some (CheckpointManager.status r,
               CheckpointManager.retry_count r + Z.of_nat j).
Proof.
  intros Hj Hr Hall Hans. unfold embed_batch_with_retry.
  rewrite (range_split j max_retries Hj).
  set (rest := seqZ (Z.of_nat j + 1) (max_retries - Z.of_nat j - 1)).
  assert (Hlenj : length (range (Z.of_nat j)) = j)
    by (rewrite length_range; lia).
  destruct (retry_loop_retried api max_retries batch batch_id
              (length (range (Z.of_nat j)))
              (range (Z.of_nat j) ++ Z.of_nat j :: rest) w)
    as (E & Hc).
  { rewrite Hlenj. exact Hall. }
  { rewrite length_app. lia. }
  rewrite drop_app_length, take_app_length in E.
  rewrite take_app_length, Hlenj in Hc.
  set (w1 := retried api batch batch_id (range (Z.of_nat j)) w) in *.
  rewrite E.
  rewrite (retry_loop_value_error api max_retries (Z.of_nat j) rest batch
             batch_id w1 e) by (rewrite Hc; exact Hans).
  eexists. split; [reflexivity|].
  pose proof (status_after_retried api batch batch_id (range (Z.of_nat j))
                w r Hr) as Hs. fold w1 in Hs.
  assert (Hf1 : file w1 = file w).
  { unfold w1. clear. generalize (range (Z.of_nat j)) w.
    intros l. induction l as [|x l IH]; intros w0; [reflexivity|].
    unfold retried in *. simpl. rewrite IH.
    apply (touches_only_after_retryable api x batch batch_id w0). }
  split; [|split].
  - simpl. rewrite calls_backoff, Hc. lia.
  - simpl. unfold backoff. destruct (_ >? 0); simpl; exact Hf1.
  - unfold CheckpointManager.get_batch_status in *.
    destruct (db w1 !! batch_id) as [r1|] eqn:Hr1; [|discriminate].
    simpl in Hs. injection Hs as Hst Hrc.
    simpl. unfold backoff.
    destruct (Z.gtb_spec (Z.of_nat j) 0) as [Hpos|Hzero]; simpl.
    + unfold CheckpointManager.increment_retry.
      rewrite lookup_alter_eq, Hr1. simpl. rewrite Hst, Hrc.
      rewrite positive_retries_range by lia. f_equal; f_equal; lia.
    + rewrite Hr1. simpl. rewrite Hst, Hrc.
      replace j with O by lia. simpl. f_equal; f_equal; lia.
Qed.

Lemma while_loop_propagates api texts lang split st w e w' :
  current_index st < Z.of_nat (length texts) ->
  loop_body api texts lang split st w = (Propagate e, w') ->
  forall fuel,
    while_loop (S fuel) api texts lang split st w = Some (Propagate e, w').
Proof.
  intros Hin Hbody fuel. simpl.
  destruct (Z.ltb_spec (current_index st) (Z.of_nat (length texts))); [|lia].
  rewrite Hbody. reflexivity.
Qed.

End AbortedRuns.

(** X8.  A [ValueError] that does not mention "Token limit exceeded",
    raised by a request or by the parsing of the body of an answer 200
    (invalid JSON), is not retried and not caught: the iteration lets it
    leave [embed_dataset_robust], the batch stays in progress in the
    table, nothing is appended or saved, and the [while] loop ends with
    the exception instead of going on to the next batch. *)
Theorem value_error_aborts_partition {Vec : Type} (api : Api Vec)
    (texts : list string) (lang split : string) (st : Loop Vec)
    (w : World Vec) (e : PyExn) (j : nat) :
  let batch_end :=
    Z.min (current_index st + batch_size st) (Z.of_nat (length texts)) in
  let batch := Py.slice (current_index st) batch_end texts in
  let batch_id := make_batch_id lang split (current_index st) in
  status_completed (CheckpointManager.get_batch_status batch_id (db w)) = false ->
  (j < 5)%nat ->
  (forall k, (k < j)%nat -> retryable (api (calls w + k)%nat batch) = true) ->
  raises_value_error e (api (calls w + j)%nat batch) ->
  Py.contains "Token limit exceeded" (exn_str e) = false ->
  exists w',
    loop_body api texts lang split st w = (Propagate e, w')
    /\ file w' = file w
    /\ CheckpointManager.get_batch_status batch_id (db w')
       = Some (CheckpointManager.in_progress, Z.of_nat j)
    /\ (current_index st < Z.of_nat (length texts) ->
        forall fuel,
          while_loop (S fuel) api texts lang split st w
          = Some (Propagate e, w')).
Proof.
  intros batch_end batch batch_id Hstatus Hj Hall Hans Hmsg.
  set (w0 := ckpt_mark_in_progress batch_id lang split (current_index st)
               (batch_size st) w).
  destruct (lookup_mark_in_progress batch_id lang split (current_index st)
              (batch_size st) w) as (r0 & Hr0 & Hs0).
  destruct (embed_batch_value_error api batch batch_id 5 w0 r0 e j)
    as (w' & E & _ & Hfile & Hst); try assumption; [lia|].
  assert (Hrc0 : CheckpointManager.retry_count r0 = 0).
  { simpl in Hr0. unfold CheckpointManager.mark_in_progress in Hr0.
    rewrite lookup_insert_eq in Hr0. injection Hr0 as <-. reflexivity. }
  assert (Hbody : loop_body api texts lang split st w = (Propagate e, w')).
  { unfold loop_body. fold batch_end batch batch_id. rewrite Hstatus.
    unfold try_block. fold w0. rewrite E.
    destruct Hans as (Hcls & _). rewrite Hcls, Hmsg. reflexivity. }
  exists w'. split; [exact Hbody|]. split; [exact Hfile|]. split.
  - rewrite Hst, Hs0, Hrc0. reflexivity.
  - intros Hin. apply while_loop_propagates; assumption.
Qed.

(** X9.  An answer 200 that carries a number of vectors other than the
    number of texts of the batch raises the [ValueError] "Expected n
    embeddings, got m", which no handler of the loop absorbs: nothing is
    appended, padded or saved, the batch stays in progress, and the
    exception leaves [embed_dataset_robust]. *)
Theorem count_mismatch_aborts_partition {Vec : Type} (api : Api Vec)
    (texts : list string) (lang split : string) (st : Loop Vec)
    (w : World Vec) (v : list Vec) (j : nat) :
  let batch_end :=
    Z.min (current_index st + batch_size st) (Z.of_nat (length texts)) in
  let batch := Py.slice (current_index st) batch_end texts in
  let batch_id := make_batch_id lang split (current_index st) in
  status_completed (CheckpointManager.get_batch_status batch_id (db w)) = false ->
  (j < 5)%nat ->
  (forall k, (k < j)%nat -> retryable (api (calls w + k)%nat batch) = true) ->
  answers_with v (api (calls w + j)%nat batch) ->
  length v <> length batch ->
  exists w',
    loop_body api texts lang split st w
    = (Propagate (count_mismatch (length batch) (length v)), w')
    /\ file w' = file w
    /\ CheckpointManager.get_batch_status batch_id (db w')
       = Some (CheckpointManager.in_progress, Z.of_nat j)
    /\ (current_index st < Z.of_nat (length texts) ->
        forall fuel,
          while_loop (S fuel) api texts lang split st w
          = Some (Propagate (count_mismatch (length batch) (length v)), w')).
Proof.
  intros batch_end batch batch_id Hstatus Hj Hall Hans Hlen.
  set (w0 := ckpt_mark_in_progress batch_id lang split (current_index st)
               (batch_size st) w).
  destruct (lookup_mark_in_progress batch_id lang split (current_index st)
              (batch_size st) w) as (r0 & Hr0 & Hs0).
  destruct (embed_batch_after_errors api batch batch_id 5 w0 r0 v j)
    as (w' & E & _ & Hfile & Hst); try assumption; [lia|].
  assert (Hrc0 : CheckpointManager.retry_count r0 = 0).
  { simpl in Hr0. unfold CheckpointManager.mark_in_progress in Hr0.
    rewrite lookup_insert_eq in Hr0. injection Hr0 as <-. reflexivity. }
  assert (Hbody : loop_body api texts lang split st w
            = (Propagate (count_mismatch (length batch) (length v)), w')).
  { unfold loop_body. fold batch_end batch batch_id. rewrite Hstatus.
    unfold try_block. fold w0. rewrite E.
    destruct (Z.eqb_spec (Z.of_nat (length v)) (Z.of_nat (length batch)));
      [lia|]. cbn [negb].
    fold (count_mismatch (length batch) (length v)).
    cbn [exn_class count_mismatch].
    fold (count_mismatch (length batch) (length v)).
    rewrite count_mismatch_not_token_limit. reflexivity. }
  exists w'. split; [exact Hbody|]. split; [exact Hfile|]. split.
  - rewrite Hst, Hs0, Hrc0. reflexivity.
  - intros Hin. apply while_loop_propagates; assumption.
Qed.

Lemma value_error_aborts_partition_witness :
  exists w',
    loop_body Sample.api_not_json Fixture.texts3 "python" "train"
      (loop_variables 2 Fixture.world0) Fixture.world0
    = (Propagate
         (Exn ValueErrorCls "Expecting value: line 1 column 1 (char 0)"),
       w')
    /\ file w' = None.
Proof.
  destruct (value_error_aborts_partition Sample.api_not_json Fixture.texts3
              "python" "train" (loop_variables 2 Fixture.world0) Fixture.world0
              (Exn ValueErrorCls "Expecting value: line 1 column 1 (char 0)")
              0)
    as (w' & E & Hf & _).
  - reflexivity.
  - lia.
  - intros k Hk. lia.
  - split; [reflexivity|]. right. eexists.
    split; [reflexivity|]. split; reflexivity.
  - reflexivity.
  - exists w'. split; [exact E | exact Hf].
Defined.

Lemma count_mismatch_aborts_partition_witness :
  exists w',
    loop_body Sample.api_one_short Fixture.texts3 "python" "train"
      (loop_variables 2 Fixture.world0) Fixture.world0
    = (Propagate (count_mismatch 2 1), w')
    /\ file w' = None.
Proof.
  destruct (count_mismatch_aborts_partition Sample.api_one_short
              Fixture.texts3 "python" "train" (loop_variables 2 Fixture.world0)
              Fixture.world0
              (map Fixture.model (tail (Py.slice 0 2 Fixture.texts3))) 0)
    as (w' & E & Hf & _).
  - reflexivity.
  - lia.
  - intros k Hk. lia.
  - eexists. split; [reflexivity|]. split; reflexivity.
  - simpl. lia.
  - exists w'. split; [exact E | exact Hf].
Defined.

(** ** BatchProcessor: termination *)

Section LoopTermination.

Context {Vec : Type}.
Implicit Types (w : World Vec) (api : Api Vec) (st : Loop Vec).

(** Where an iteration leaves [current_index]. *)
Lemma loop_body_index api texts lang split st w st' w' :
  loop_body api texts lang split st w = (Next st', w') ->
  current_index st'
  = Z.min (current_index st + batch_size st) (Z.of_nat (length texts))
  \/ (current_index st' = current_index st
      /\ batch_size st' = batch_size st / 2 /\ 4 <= batch_size st / 2).
Proof.
  unfold loop_body.
  destruct (status_completed _); [intros [= <- _]; left; reflexivity|].
  pose proof (try_block_state api lang split
    (Py.slice (current_index st)
       (Z.min (current_index st + batch_size st) (Z.of_nat (length texts))) texts)
    (make_batch_id lang split (current_index st)) (current_index st)
    (Z.min (current_index st + batch_size st) (Z.of_nat (length texts))) st w)
    as H.
  destruct (try_block _ _ _ _ _ _ _ _ _) as [[raised st1] w1].
  destruct H as (Hbs & Hsame & Hend).
  destruct raised as [e|].
  - rewrite (Hsame ltac:(discriminate)).
    destruct (exn_class e); try (intros [= <- _]; left; reflexivity).
    destruct (Py.contains _ _); [|discriminate].
    destruct (Z.ltb_spec (batch_size st / 2) 4); intros [= <- _];
      [left; reflexivity | right; simpl; auto].
  - intros [= <- _]. left. apply Hend. reflexivity.
Qed.

(** With a batch size of 0 the loop never gets past its batch. *)
Lemma while_loop_zero_batch api texts lang split (fuel : nat) :
  forall st w,
    batch_size st = 0 ->
    0 <= current_index st < Z.of_nat (length texts) ->
    while_loop fuel api texts lang split st w = None
    \/ exists e w',
         while_loop fuel api texts lang split st w = Some (Propagate e, w').
Proof.
  induction fuel as [|fuel IH]; intros st w Hbs Hci; simpl;
    destruct (Z.ltb_spec (current_index st) (Z.of_nat (length texts)));
    try lia; [left; reflexivity|].
  destruct (loop_body api texts lang split st w) as [[st'|e] w'] eqn:Hbody;
    [|right; eauto].
  apply IH.
  - destruct (loop_body_batch_size api texts lang split st w st' w' Hbody)
      as [->| ->]; rewrite Hbs; reflexivity.
  - destruct (loop_body_index api texts lang split st w st' w' Hbody)
      as [->|(-> & _)]; [rewrite Hbs|]; lia.
Qed.

(** A [ValueError] raised by the retry loop comes from a token-limit answer
    or from the endpoint. *)
Lemma retry_loop_raises_value_error api max_retries batch batch_id retries :
  forall w w' e,
    retry_loop api max_retries retries batch batch_id w = (Raise e, w') ->
    exn_class e = ValueErrorCls ->
    exists n,
      token_limit_400 (api n batch) = true
      \/ api n batch = PostRaises e
      \/ exists response,
           api n batch = Responded response
           /\ json response = ParseRaises e.
Proof.
  induction retries as [|retry rest IH]; intros w w' e.
  - simpl. intros [= <- _]. discriminate.
  - simpl. unfold requests_post.
    destruct (api (calls (backoff retry batch_id w)) batch)
      as [response|e0] eqn:Eapi.
    + destruct (Z.eqb_spec (status_code response) 400) as [E400|_].
      { destruct (Py.contains _ _) eqn:Hc; [|apply IH].
        intros _ _. exists (calls (backoff retry batch_id w)). left.
        rewrite Eapi. simpl. rewrite E400, Hc. reflexivity. }
      destruct (status_code response =? 429); [apply IH|].
      destruct (status_code response =? 503); [apply IH|].
      destruct (status_code response =? 200); simpl; [|apply IH].
      destruct (json response) as [v|e1] eqn:Ej; [discriminate|].
      destruct (exn_class e1) eqn:Hcls; try apply IH.
      intros [= <- _] _. exists (calls (backoff retry batch_id w)).
      right. right. eauto.
    + destruct (exn_class e0) eqn:Hcls; try apply IH.
      intros [= <- _] _. exists (calls (backoff retry batch_id w)).
      right. left. exact Eapi.
Qed.

(** Without token-limit answers an iteration with a positive batch size
    moves [current_index] to the end of the batch, or ends the loop with
    an exception. *)
Lemma loop_body_advances api texts lang split st w :
  no_token_limit api ->
  match loop_body api texts lang split st w with
  | (Next st', _) =>
      current_index st'
      = Z.min (current_index st + batch_size st) (Z.of_nat (length texts))
      /\ batch_size st' = batch_size st
  | (Propagate _, _) => True
  end.
Proof.
  intros Hapi. unfold loop_body.
  destruct (status_completed _); [split; reflexivity|].
  unfold try_block, embed_batch_with_retry.
  set (batch := Py.slice _ _ _). set (batch_id := make_batch_id _ _ _).
  set (w0 := ckpt_mark_in_progress _ _ _ _ _ _).
  destruct (retry_loop api 5 (range 5) batch batch_id w0) as [[v|e] w2] eqn:E.
  - destruct (negb _).
    + cbn [exn_class].
      fold (count_mismatch (length batch) (length v)).
      rewrite count_mismatch_not_token_limit. exact I.
    + split; reflexivity.
  - destruct (exn_class e) eqn:Hcls; try (split; reflexivity).
    destruct (Py.contains _ _) eqn:Hc; [|exact I].
    exfalso.
    destruct (retry_loop_raises_value_error _ _ _ _ _ _ _ _ E Hcls)
      as (n & [Ht|Hr]).
    + destruct (Hapi n batch) as (Hno & _). congruence.
    + destruct (Hapi n batch) as (_ & Hmsg).
      rewrite (Hmsg e Hr Hcls) in Hc. discriminate.
Qed.

Lemma while_loop_terminates api texts lang split (fuel : nat) :
  no_token_limit api ->
  forall st w,
    1 <= batch_size st ->
    (Z.to_nat (Z.of_nat (length texts) - current_index st) <= fuel)%nat ->
    exists r w',
      while_loop fuel api texts lang split st w = Some (r, w')
      /\ match r with
         | Next st' => Z.of_nat (length texts) <= current_index st'
                       /\ batch_size st' = batch_size st
         | Propagate _ => True
         end.
Proof.
  intros Hapi. induction fuel as [|fuel IH]; intros st w Hbs Hfuel; simpl;
    destruct (Z.ltb_spec (current_index st) (Z.of_nat (length texts)));
    try lia; try (exists (Next st), w; split; [reflexivity | split; [lia|reflexivity]]).
  pose proof (loop_body_advances api texts lang split st w Hapi) as Hadv.
  destruct (loop_body api texts lang split st w) as [[st'|e] w'];
    [|exists (Propagate e), w'; split; [reflexivity | exact I]].
  destruct Hadv as (Hci & Hbs').
  destruct (IH st' w') as (r & w'' & E & Hr); [lia | lia |].
  exists r, w''. split; [exact E|].
  destruct r; [|exact I]. rewrite <- Hbs'. exact Hr.
Qed.

End LoopTermination.

(** X10.  With a batch size of 0 the loop never gets past a source that
    has records left: every iteration takes the empty batch at the same
    offset, so [embed_dataset_robust] either loops for ever or is left by
    an exception; it never returns.  This is the state that halvings down
    from 1 reach. *)
Theorem zero_batch_size_never_returns {Vec : Type} (api : Api Vec)
    (texts : list string) (lang split : string) (st : Loop Vec)
    (w : World Vec) (fuel : nat) :
  batch_size st = 0 ->
  0 <= current_index st < Z.of_nat (length texts) ->
  forall r w',
    while_loop fuel api texts lang split st w = Some (r, w') ->
    exists e, r = Propagate e.
Proof.
  intros Hbs Hci r w' Hrun.
  destruct (while_loop_zero_batch api texts lang split fuel st w Hbs Hci)
    as [Hnone|(e & w'' & Hsome)].
  - rewrite Hnone in Hrun. discriminate.
  - rewrite Hsome in Hrun. injection Hrun as <- _. eauto.
Qed.

Lemma zero_batch_size_never_returns_witness :
  exists e, Sample.zero_batch_step = Propagate e.
Proof.
  apply (zero_batch_size_never_returns Sample.api_not_json Fixture.texts3
           "python" "train" Sample.halved_to_zero Fixture.world0 5
           ltac:(reflexivity) ltac:(simpl; lia)
           Sample.zero_batch_step Sample.zero_batch_world).
  vm_compute. reflexivity.
Defined.

(** X11.  When no answer of the endpoint reports a token limit,
    [embed_dataset_robust] with a positive initial batch size ends, by a
    return or by an exception, within as many iterations of its loop as
    the dataset has records, whatever else the endpoint answers: errors,
    timeouts, malformed bodies or wrong counts. *)
Theorem run_ends_without_token_limit {Vec : Type} (api : Api Vec)
    (dataset : list Item) (lang split : string) (initial_batch_size : Z)
    (w : World Vec) (fuel : nat) :
  no_token_limit api ->
  1 <= initial_batch_size ->
  (length dataset <= fuel)%nat ->
  exists r w',
    embed_dataset_robust fuel api dataset lang split initial_batch_size w
    = Some (r, w').
Proof.
  intros Hapi Hbs Hfuel. rewrite embed_dataset_robust_nonzero by lia.
  set (texts := fst (prepare_texts dataset)).
  assert (Hlen : length texts = length dataset).
  { unfold texts, prepare_texts. simpl. apply length_map. }
  destruct (while_loop_terminates api texts lang split fuel Hapi
              (loop_variables initial_batch_size w) w) as (r & w' & E & _).
  - exact Hbs.
  - unfold loop_variables. simpl. lia.
  - rewrite E. destruct r; eauto.
Qed.

Lemma run_ends_without_token_limit_witness :
  exists r w',
    embed_dataset_robust 3 Fixture.api_503_then_ok Fixture.dataset3
      "python" "train" 2 Fixture.world0
    = Some (r, w').
Proof.
  apply (run_ends_without_token_limit Fixture.api_503_then_ok
           Fixture.dataset3 "python" "train" 2 Fixture.world0 3).
  - intros n batch. unfold Fixture.api_503_then_ok.
    destruct (n <? 5)%nat.
    + split; [reflexivity|].
      intros e [H|(response & H & Hj)] _; [discriminate|].
      injection H as <-. simpl in Hj. injection Hj as <-. reflexivity.
    + split; [reflexivity|].
      intros e [H|(response & H & Hj)] _; [discriminate|].
      injection H as <-. simpl in Hj. discriminate.
  - lia.
  - simpl. lia.
Defined.

(** A partition whose array file is complete: the loop is not entered. *)
Lemma embed_dataset_robust_complete {Vec : Type} (api : Api Vec)
    (dataset : list Item) (lang split : string) (initial_batch_size : Z)
    (w : World Vec) (arr : list Vec) (fuel : nat) :
  initial_batch_size <> 0 ->
  file w = Some arr ->
  (length dataset <= length arr)%nat ->
  embed_dataset_robust fuel api dataset lang split initial_batch_size w
  = Some (Returned (Z.of_nat (length arr)), np_save arr w).
Proof.
  intros Hbs Hfile Hlen. rewrite embed_dataset_robust_nonzero by exact Hbs.
  set (texts := fst (prepare_texts dataset)).
  assert (Htexts : length texts = length dataset).
  { unfold texts, prepare_texts. simpl. apply length_map. }
  assert (Hst : loop_variables initial_batch_size w
                = {| embeddings := arr; batch_size := initial_batch_size;
                     current_index := Z.of_nat (length arr) |}).
  { unfold loop_variables. rewrite Hfile. reflexivity. }
  rewrite Hst.
  assert (Hloop : while_loop fuel api texts lang split
                    {| embeddings := arr; batch_size := initial_batch_size;
                       current_index := Z.of_nat (length arr) |} w
                  = Some (Next {| embeddings := arr;
                                  batch_size := initial_batch_size;
                                  current_index := Z.of_nat (length arr) |},
                          w)).
  { destruct fuel; cbn [while_loop current_index];
      destruct (Z.ltb_spec (Z.of_nat (length arr)) (Z.of_nat (length texts)));
      try lia; reflexivity. }
  rewrite Hloop. reflexivity.
Qed.

(** X12.  When the array file already holds at least as many vectors as
    the dataset has records (a finished partition, or a stale longer
    file), [embed_dataset_robust] with an initial batch size other than 0
    sends no request and writes nothing to the table: it saves the array
    it loaded and returns its length, also when that is more than the
    number of records.  With an initial batch size of 0 the division of
    line 316 raises and nothing is saved. *)
Theorem complete_array_sends_nothing {Vec : Type} (api : Api Vec)
    (dataset : list Item) (lang split : string) (initial_batch_size : Z)
    (w : World Vec) (arr : list Vec) (fuel : nat) :
  file w = Some arr ->
  (length dataset <= length arr)%nat ->
  (initial_batch_size <> 0 ->
   embed_dataset_robust fuel api dataset lang split initial_batch_size w
   = Some (Returned (Z.of_nat (length arr)), np_save arr w))
  /\ (initial_batch_size = 0 ->
      exists e,
        embed_dataset_robust fuel api dataset lang split initial_batch_size w
        = Some (Raised e, w)).
Proof.
  intros Hfile Hlen. split.
  - intros Hbs. apply embed_dataset_robust_complete; assumption.
  - intros ->. unfold embed_dataset_robust.
    destruct (startup_zero (fst (prepare_texts dataset)) w) as (e & ->).
    exists e. reflexivity.
Qed.

Lemma complete_array_sends_nothing_witness :
  embed_dataset_robust 0 Fixture.api_429 Fixture.dataset3 "python" "train"
    32 (np_save (map Fixture.model Fixture.texts3) Fixture.world0)
  = Some (Returned 3,
          np_save (map Fixture.model Fixture.texts3)
            (np_save (map Fixture.model Fixture.texts3) Fixture.world0))
  /\ exists e,
       embed_dataset_robust 0 Fixture.api_429 Fixture.dataset3 "python"
         "train" 0 (np_save (map Fixture.model Fixture.texts3) Fixture.world0)
       = Some (Raised e,
               np_save (map Fixture.model Fixture.texts3) Fixture.world0).
Proof.
  split.
  - apply (complete_array_sends_nothing Fixture.api_429 Fixture.dataset3
             "python" "train" 32
             (np_save (map Fixture.model Fixture.texts3) Fixture.world0)
             (map Fixture.model Fixture.texts3) 0);
      [reflexivity | simpl; lia | lia].
  - apply (complete_array_sends_nothing Fixture.api_429 Fixture.dataset3
             "python" "train" 0
             (np_save (map Fixture.model Fixture.texts3) Fixture.world0)
             (map Fixture.model Fixture.texts3) 0);
      [reflexivity | simpl; lia | reflexivity].
Defined.

(** ** TextPreparer: the prepared texts *)

Lemma adaptive_truncation_cases (text : string) :
  exists k,
    0 <= k <= 30000
    /\ fst (adaptive_truncation text) = Py.str_upto k text
    /\ (Py.len text <= 30000 -> k = 30000).
Proof.
  unfold adaptive_truncation.
  destruct (Z.gtb_spec (Py.len text) 50000);
    [exists 15000; simpl; repeat split; lia|].
  destruct (Z.gtb_spec (Py.len text) 30000);
    [exists 20000 | exists 30000]; simpl; repeat split; lia.
Qed.

(** X13.  The preparation loop yields one text and one token estimate per
    record, in order; every text is a prefix of the record's
    "docstring, two newlines, code" of at most 30,000 characters, every
    estimate is 4000, 5000 or 8000, and truncating a prepared text again
    returns it unchanged. *)
Theorem prepared_texts_are_bounded (dataset : list Item) :
  let texts := fst (prepare_texts dataset) in
  let estimates := snd (prepare_texts dataset) in
  length texts = length dataset
  /\ length estimates = length dataset
  /\ Forall2 (fun item text =>
                Py.len text <= 30000
                /\ exists rest, combine_item item = text +:+ rest)
       dataset texts
  /\ Forall (fun tokens => tokens = 4000 \/ tokens = 5000 \/ tokens = 8000)
       estimates
  /\ map (fun text => fst (adaptive_truncation text)) texts = texts.
Proof.
  cbv zeta. unfold prepare_texts. simpl.
  split; [apply length_map|]. split; [apply length_map|].
  split; [|split].
  - induction dataset as [|item dataset IH]; simpl; constructor; [|exact IH].
    destruct (adaptive_truncation_cases (combine_item item))
      as (k & Hk & -> & _).
    split.
    + rewrite str_upto_len by lia. lia.
    + rewrite str_upto_take by lia.
      exists (Py.drop_str (Z.to_nat k) (combine_item item)).
      symmetry. apply take_drop_str.
  - induction dataset as [|item dataset IH]; simpl; constructor;
      [|exact IH].
    unfold adaptive_truncation.
    destruct (_ >? 50000); [simpl; auto|].
    destruct (_ >? 30000); simpl; auto.
  - induction dataset as [|item dataset IH]; simpl; [reflexivity|].
    f_equal; [|exact IH].
    destruct (adaptive_truncation_cases (combine_item item))
      as (k & Hk & -> & _).
    set (t := Py.str_upto k (combine_item item)).
    assert (Ht : Py.len t <= 30000)
      by (unfold t; rewrite str_upto_len by lia; lia).
    destruct (adaptive_truncation_cases t) as (k' & Hk' & -> & Hk30).
    rewrite (Hk30 Ht). rewrite str_upto_take by lia.
    apply take_str_all. unfold Py.len in Ht. lia.
Qed.

(** ** BatchProcessor: requests and completed batches of a run *)

Section CountedRuns.

Context {Vec : Type}.
Variable api : Api Vec.
Variable model : string -> Vec.
Variable texts : list string.
Variables lang split : string.

Implicit Types (w : World Vec) (st : Loop Vec).

Hypothesis api_good : forall n batch, good_answer model batch (api n batch).

Lemma batches_left (n ci b : Z) :
  1 <= b -> ci < n ->
  (n - ci + b - 1) / b = (n - Z.min (ci + b) n + b - 1) / b + 1.
Proof.
  intros Hb Hci.
  replace (n - ci + b - 1) with (n - ci - 1 + 1 * b) by lia.
  rewrite Z.div_add by lia.
  destruct (Z.le_gt_cases (ci + b) n) as [Hle|Hgt].
  - rewrite Z.min_l by lia. do 2 f_equal. lia.
  - rewrite Z.min_r by lia.
    rewrite (Z.div_small (n - ci - 1)) by lia.
    rewrite (Z.div_small (n - n + b - 1)) by lia. reflexivity.
Qed.

Lemma while_loop_good_counts (fuel : nat) :
  forall st w,
    1 <= batch_size st ->
    0 <= current_index st <= Z.of_nat (length texts) ->
    (forall j, current_index st <= j ->
       db w !! make_batch_id lang split j = None) ->
    (Z.to_nat (Z.of_nat (length texts) - current_index st) <= fuel)%nat ->
    exists st' w',
      while_loop fuel api texts lang split st w = Some (Next st', w')
      /\ Z.of_nat (calls w')
         = Z.of_nat (calls w)
           + (Z.of_nat (length texts) - current_index st + batch_size st - 1)
             / batch_size st
      /\ CheckpointManager.get_completed_count lang split (db w')
         = CheckpointManager.get_completed_count lang split (db w)
           + (Z.of_nat (length texts) - current_index st + batch_size st - 1)
             / batch_size st.
Proof.
  induction fuel as [|fuel IH]; intros st w Hbs Hci Hnone Hfuel.
  - exists st, w. simpl.
    destruct (Z.ltb_spec (current_index st) (Z.of_nat (length texts))); [lia|].
    split; [reflexivity|].
    replace (Z.of_nat (length texts) - current_index st) with 0 by lia.
    rewrite Z.div_small by lia. split; lia.
  - simpl.
    destruct (Z.ltb_spec (current_index st) (Z.of_nat (length texts)))
      as [Hlt|Hge].
    2:{ exists st, w. split; [reflexivity|].
        replace (Z.of_nat (length texts) - current_index st) with 0 by lia.
        rewrite Z.div_small by lia. split; lia. }
    assert (Hfresh : db w !! make_batch_id lang split (current_index st)
                     = None) by (apply Hnone; lia).
    rewrite (loop_body_good api model texts lang split)
      by (auto; unfold CheckpointManager.get_batch_status;
          rewrite Hfresh; reflexivity).
    set (batch_end :=
           Z.min (current_index st + batch_size st) (Z.of_nat (length texts))).
    set (batch_id := make_batch_id lang split (current_index st)).
    match goal with
    | |- exists st' w', while_loop fuel _ _ _ _ ?s ?x = _ /\ _ =>
        destruct (IH s x) as (st' & w' & E & Hcalls & Hcount)
    end.
    + exact Hbs.
    + simpl. unfold batch_end. lia.
    + intros j Hj. simpl in Hj. simpl.
      unfold CheckpointManager.mark_completed,
        CheckpointManager.mark_in_progress.
      assert (Hne : batch_id <> make_batch_id lang split j).
      { intros Heq. apply make_batch_id_inj in Heq; unfold batch_end in Hj; lia. }
      rewrite lookup_alter_ne, lookup_insert_ne by exact Hne.
      apply Hnone. unfold batch_end in Hj. lia.
    + simpl. unfold batch_end. lia.
    + exists st', w'. split; [exact E|].
      simpl in Hcalls, Hcount.
      rewrite (batches_left (Z.of_nat (length texts)) (current_index st)
                 (batch_size st)) by lia.
      fold batch_end. split; [lia|].
      rewrite Hcount.
      unfold CheckpointManager.mark_completed,
        CheckpointManager.mark_in_progress.
      rewrite (CheckpointLaws.get_completed_count_alter lang split batch_id _
                 {| CheckpointManager.lang_name := lang;
                    CheckpointManager.split_name := split;
                    CheckpointManager.batch_index := current_index st;
                    CheckpointManager.status := CheckpointManager.in_progress;
                    CheckpointManager.start_time := Some (now w);
                    CheckpointManager.end_time := None;
                    CheckpointManager.retry_count := 0;
                    CheckpointManager.error_message := None;
                    CheckpointManager.batch_size := Some (batch_size st);
                    CheckpointManager.tokens_estimated := None |})
        by apply lookup_insert_eq.
      rewrite CheckpointLaws.get_completed_count_insert by exact Hfresh.
      unfold CheckpointManager.is_completed_of. simpl.
      rewrite !bool_decide_eq_true_2 by reflexivity. simpl. lia.
Qed.

End CountedRuns.

(** X14.  A run over n records from no array file, with no row yet for the
    batches of the partition and every request answered with one vector per
    text, sends exactly one request per batch and raises
    [get_completed_count] of the partition by the number of batches,
    ceil(n / initial_batch_size). *)
Theorem good_run_counts_batches {Vec : Type} (api : Api Vec)
    (model : string -> Vec) (dataset : list Item) (lang split : string)
    (initial_batch_size : Z) (w : World Vec) (fuel : nat) :
  (forall n batch, good_answer model batch (api n batch)) ->
  1 <= initial_batch_size ->
  file w = None ->
  (forall j, 0 <= j -> db w !! make_batch_id lang split j = None) ->
  (length dataset <= fuel)%nat ->
  exists w',
    embed_dataset_robust fuel api dataset lang split initial_batch_size w
    = Some (Returned (Z.of_nat (length dataset)), w')
    /\ Z.of_nat (calls w')
       = Z.of_nat (calls w)
         + (Z.of_nat (length dataset) + initial_batch_size - 1)
           / initial_batch_size
    /\ CheckpointManager.get_completed_count lang split (db w')
       = CheckpointManager.get_completed_count lang split (db w)
         + (Z.of_nat (length dataset) + initial_batch_size - 1)
           / initial_batch_size.
Proof.
  intros Hapi Hbs Hfile Hnone Hfuel.
  rewrite embed_dataset_robust_nonzero by lia.
  set (texts := fst (prepare_texts dataset)).
  assert (Hlen : length texts = length dataset).
  { unfold texts, prepare_texts. simpl. apply length_map. }
  assert (Hst : loop_variables initial_batch_size w
                = {| embeddings := []; batch_size := initial_batch_size;
                     current_index := 0 |}).
  { unfold loop_variables. rewrite Hfile. reflexivity. }
  rewrite Hst.
  destruct (while_loop_good_counts api model texts lang split Hapi fuel
              {| embeddings := []; batch_size := initial_batch_size;
                 current_index := 0 |} w)
    as (st' & w' & E & Hcalls & Hcount); simpl; try lia.
  { intros j Hj. apply Hnone. exact Hj. }
  destruct (while_loop_good api model texts lang split Hapi fuel
              {| embeddings := []; batch_size := initial_batch_size;
                 current_index := 0 |} w)
    as (st2 & w2 & E2 & Hemb); simpl; try lia; try reflexivity.
  { intros j Hj. unfold CheckpointManager.get_batch_status.
    rewrite Hnone by exact Hj. reflexivity. }
  rewrite E in E2. injection E2 as <- <-.
  rewrite E. eexists. split.
  - rewrite Hemb, length_map, Hlen. reflexivity.
  - simpl in *. rewrite Z.sub_0_r, Hlen in Hcalls, Hcount.
    split; assumption.
Qed.

Lemma good_run_counts_batches_witness :
  exists w',
    embed_dataset_robust 3 Fixture.api_ok Fixture.dataset3 "python" "train"
      2 Fixture.world0
    = Some (Returned 3, w')
    /\ Z.of_nat (calls w') = 0 + (3 + 2 - 1) / 2
    /\ CheckpointManager.get_completed_count "python" "train" (db w')
       = 0 + (3 + 2 - 1) / 2.
Proof.
  apply (good_run_counts_batches Fixture.api_ok Fixture.model
           Fixture.dataset3 "python" "train" 2 Fixture.world0 3).
  - intros n batch. exists EmptyString. reflexivity.
  - lia.
  - reflexivity.
  - intros j Hj. reflexivity.
  - simpl. lia.
Defined.

(** ** The parallel script *)

Lemma slice_drop {A} (a b : Z) (l : list A) :
  0 <= a <= b ->
  Py.slice a b l = take (Z.to_nat (b - a)) (drop (Z.to_nat a) l).
Proof.
  intros Hab. unfold Py.slice. rewrite !clamp_nonneg by lia.
  destruct (Z.le_gt_cases a (Z.of_nat (length l))) as [Ha|Ha].
  - rewrite (Z.min_l a) by lia.
    destruct (Z.le_gt_cases b (Z.of_nat (length l))) as [Hb|Hb].
    + rewrite Z.min_l by lia. reflexivity.
    + rewrite Z.min_r by lia.
      rewrite !take_ge; [reflexivity| |]; rewrite length_drop; lia.
  - rewrite !Z.min_r by lia.
    rewrite (drop_ge l (Z.to_nat a)) by lia.
    rewrite (drop_ge l (Z.to_nat (Z.of_nat (length l)))) by lia.
    rewrite !take_nil. reflexivity.
Qed.

Module PyRangeFacts.
Import PyRange.

Lemma range_from_enough (step stop : Z) (f1 f2 : nat) :
  1 <= step ->
  forall start,
    stop - start <= Z.of_nat f1 -> stop - start <= Z.of_nat f2 ->
    range_from f1 start stop step = range_from f2 start stop step.
Proof.
  intros Hstep. revert f2.
  induction f1 as [|f1 IH]; intros [|f2] start H1 H2; simpl;
    destruct (Z.ltb_spec start stop); try reflexivity; try lia.
  f_equal. apply IH; lia.
Qed.

Lemma range_step_nil (start stop step : Z) :
  stop <= start -> range_step start stop step = [].
Proof.
  intros H. unfold range_step.
  replace (Z.to_nat (stop - start)) with 0%nat by lia. reflexivity.
Qed.

Lemma range_step_cons (start stop step : Z) :
  1 <= step -> start < stop ->
  range_step start stop step = start :: range_step (start + step) stop step.
Proof.
  intros Hstep H. unfold range_step.
  destruct (Z.to_nat (stop - start)) as [|f] eqn:E; [lia|].
  simpl. destruct (Z.ltb_spec start stop); [|lia].
  f_equal. apply range_from_enough; lia.
Qed.

Lemma length_range_step (step stop : Z) (fuel : nat) :
  1 <= step ->
  forall start,
    stop - start <= Z.of_nat fuel ->
    Z.of_nat (length (range_step start stop step))
    = Z.max 0 ((stop - start + step - 1) / step).
Proof.
  intros Hstep. induction fuel as [|fuel IH]; intros start Hfuel.
  - rewrite range_step_nil by lia. simpl.
    assert ((stop - start + step - 1) / step <= 0); [|lia].
    apply Z.lt_succ_r. apply Z.div_lt_upper_bound; lia.
  - destruct (Z.le_gt_cases stop start) as [Hle|Hlt].
    + rewrite range_step_nil by lia. simpl.
      assert ((stop - start + step - 1) / step <= 0); [|lia].
      apply Z.lt_succ_r. apply Z.div_lt_upper_bound; lia.
    + rewrite range_step_cons by lia. simpl length.
      rewrite Nat2Z.inj_succ, IH by lia.
      replace (stop - start + step - 1)
        with ((stop - (start + step) + step - 1) + 1 * step) by lia.
      rewrite Z.div_add by lia.
      assert (0 <= (stop - (start + step) + step - 1) / step); [|lia].
      apply Z.div_pos; lia.
Qed.

Lemma batches_range_step (size : Z) (texts : list string) (fuel : nat) :
  1 <= size ->
  forall i,
    0 <= i -> Z.of_nat (length texts) - i <= Z.of_nat fuel ->
    batches size (range_step i (Z.of_nat (length texts)) size) texts
    = drop (Z.to_nat i) texts.
Proof.
  intros Hsize. unfold batches.
  induction fuel as [|fuel IH]; intros i Hi Hfuel.
  - rewrite range_step_nil by lia. simpl.
    rewrite drop_ge by lia. reflexivity.
  - destruct (Z.le_gt_cases (Z.of_nat (length texts)) i) as [Hle|Hlt].
    + rewrite range_step_nil by lia. simpl.
      rewrite drop_ge by lia. reflexivity.
    + rewrite range_step_cons by lia. simpl.
      rewrite IH by lia. rewrite slice_drop by lia.
      replace (Z.to_nat (i + size - i)) with (Z.to_nat size) by lia.
      replace (Z.to_nat (i + size))
        with (Z.to_nat i + Z.to_nat size)%nat by lia.
      rewrite <- drop_drop. apply take_drop.
Qed.

End PyRangeFacts.

(** Two spaced lists of timestamps, the second wholly later than the first
    by the interval, make a spaced list. *)
Lemma spaced_app (u : Q) (a b : list Q) :
  RateLimiter.spaced a -> RateLimiter.spaced b ->
  Forall (fun x => (x <= u)%Q) a ->
  Forall (fun y => (u + RateLimiter.min_interval <= y)%Q) b ->
  RateLimiter.spaced (a ++ b).
Proof.
  intros Ha Hb Hua Hub. induction a as [|x a IH]; [exact Hb|].
  inversion Hua as [|? ? Hx Hua']; subst.
  destruct a as [|x' a].
  - simpl. destruct b as [|y b]; [exact I|].
    inversion Hub; subst. split; [|exact Hb].
    unfold RateLimiter.min_interval in *. lra.
  - destruct Ha as [Hxx Ha]. split; [exact Hxx|]. apply IH; assumption.
Qed.

(** The same with a slack. *)
Lemma spaced_within_app (slack u : Q) (a b : list Q) :
  RateLimiter.spaced_within slack a -> RateLimiter.spaced_within slack b ->
  Forall (fun x => (x <= u)%Q) a ->
  Forall (fun y => (u + RateLimiter.min_interval - slack <= y)%Q) b ->
  RateLimiter.spaced_within slack (a ++ b).
Proof.
  intros Ha Hb Hua Hub. induction a as [|x a IH]; [exact Hb|].
  inversion Hua as [|? ? Hx Hua']; subst.
  destruct a as [|x' a].
  - simpl. destruct b as [|y b]; [exact I|].
    inversion Hub; subst. split; [|exact Hb].
    unfold RateLimiter.min_interval in *. lra.
  - destruct Ha as [Hxx Ha]. split; [exact Hxx|]. apply IH; assumption.
Qed.

Module ParallelFacts.
Import RateLimiter Parallel.

Section Facts.

Context {Vec : Type}.

Implicit Types (w : World Vec) (env : Env Vec).

Local Abbreviation last w := (last_request_time (limiter w)).

Lemma paced_refl w : rate_lock (limiter w) = false -> paced w w.
Proof.
  intros Hfree. split; [exact Hfree|]. split; [lra|].
  exists []. split; [reflexivity|]. intros Hr _.
  split; [exact Hr|]. split; [lra|]. split; [constructor|exact I].
Qed.

Lemma paced_trans w1 w2 w3 : paced w1 w2 -> paced w2 w3 -> paced w1 w3.
Proof.
  intros (_ & H12 & new1 & E1 & P1) (Hfree & H23 & new2 & E2 & P2).
  split; [exact Hfree|]. split; [lra|].
  exists (new2 ++ new1). split; [rewrite E2, E1, app_assoc; reflexivity|].
  intros Hr Hh.
  destruct (P1 Hr ltac:(lra)) as (Hr2 & L1 & F1 & S1).
  destruct (P2 Hr2 Hh) as (Hr3 & L2 & F2 & S2).
  split; [exact Hr3|]. split; [lra|]. split.
  - apply Forall_app. split.
    + eapply Forall_impl; [exact F2|]. simpl. intros p [Hp1 Hp2].
      split; lra.
    + eapply Forall_impl; [exact F1|]. simpl. intros p [Hp1 Hp2].
      split; lra.
  - rewrite map_app, rev_app_distr.
    apply (spaced_within_app _ (last w2)); [exact S1|exact S2| |].
    + apply Forall_rev. apply Forall_map.
      eapply Forall_impl; [exact F1|]. simpl. intros p [_ Hp]. exact Hp.
    + apply Forall_rev. apply Forall_map.
      eapply Forall_impl; [exact F2|]. simpl. intros p [Hp _]. exact Hp.
Qed.

(** [time.sleep] between two requests. *)
Lemma paced_sleep (seconds : Q) w :
  (0 <= seconds)%Q -> rate_lock (limiter w) = false ->
  paced w (sleep seconds w).
Proof.
  intros Hs Hfree. split; [exact Hfree|]. split; [simpl; lra|].
  exists []. split; [reflexivity|]. intros (Hc & Hl) _.
  split; [split; [simpl; lra|exact Hl]|].
  split; [simpl; lra|]. split; [constructor|exact I].
Qed.

(** A request from a state in which the lock is free is sent, after a
    granted call of the rate limiter. *)
Lemma limited_post_sent env (batch : list string) w :
  nonneg (delays env (calls w)) -> rate_lock (limiter w) = false ->
  exists w1,
    limited_post env batch w = Some (api env (calls w) batch, w1)
    /\ paced w w1 /\ calls w1 = S (calls w) /\ files w1 = files w
    /\ (clock (limiter w) <= clock (limiter w1))%Q.
Proof.
  intros Henv Hfree.
  destruct (RateLimiterFacts.rate_limited_sleep_granted _ _ Henv Hfree)
    as (s1 & E & Hclock & _ & Hfree1 & _ & Hgap).
  unfold limited_post. rewrite E. eexists. split; [reflexivity|].
  cbn [limiter calls files posts]. split; [|auto].
  split; [exact Hfree1|]. split; [exact Hclock|].
  exists [(last_request_time s1, batch)]. split; [reflexivity|].
  cbn [limiter]. intros Hr Hh. destruct (Hgap Hr Hh) as (Hg & Hr1).
  split; [exact Hr1|].
  assert (Hpos : (0 <= min_interval - rounding_slack)%Q).
  { unfold min_interval, rounding_slack, Float64.eps. lra. }
  split; [lra|]. split; [|exact I].
  constructor; [|constructor]. cbn [fst]. split; [exact Hg|lra].
Qed.

Lemma limited_post_files env (batch : list string) w r w1 :
  limited_post env batch w = Some (r, w1) ->
  files w1 = files w /\ calls w1 = S (calls w)
  /\ r = api env (calls w) batch.
Proof.
  unfold limited_post.
  destruct (rate_limited_sleep (delays env (calls w)) (limiter w));
    [|discriminate].
  intros [= <- <-]. auto.
Qed.

(** The retry loop saves nothing, whatever the answers are. *)
Lemma retry_loop_files env (max_retries : Z) (batch : list string) :
  forall (retries : list Z) (embeddings : list Vec) w r w',
    retry_loop env max_retries retries batch embeddings w = Some (r, w') ->
    files w' = files w /\ (calls w <= calls w')%nat.
Proof.
  induction retries as [|retry rest IH]; intros embeddings w r w' E.
  - injection E as <- <-. auto.
  - cbn [retry_loop] in E.
    destruct (limited_post env batch w) as [[result w1]|] eqn:E1;
      [|discriminate].
    apply limited_post_files in E1 as (Hf & Hc & _).
    assert (Hagain : forall r w',
      retry_loop env max_retries rest batch embeddings (sleep 10 w1)
      = Some (r, w') -> files w' = files w /\ (calls w <= calls w')%nat).
    { intros r0 w0 E0. apply IH in E0 as [E0 E0']. simpl in E0, E0'.
      split; [congruence|lia]. }
    assert (Hhere : files w1 = files w /\ (calls w <= calls w1)%nat).
    { split; [exact Hf|lia]. }
    destruct result as [response|e].
    + destruct (negb (status_code response =? 200)).
      * destruct (retry <? max_retries - 1); [exact (Hagain _ _ E)|].
        injection E as <- <-. exact Hhere.
      * destruct (json response) as [v|e].
        -- injection E as <- <-. exact Hhere.
        -- destruct (exn_class e), (retry <? max_retries - 1);
             first [exact (Hagain _ _ E)|injection E as <- <-; exact Hhere].
    + destruct (exn_class e), (retry <? max_retries - 1);
        first [exact (Hagain _ _ E)|injection E as <- <-; exact Hhere].
Qed.

Section Paced.

Variable env : Env Vec.
Hypothesis Hdelays : forall n, nonneg (delays env n).

(** With the lock free the retry loop always ends, and its requests are
    paced. *)
Lemma retry_loop_paced (max_retries : Z) (batch : list string) :
  forall (retries : list Z) (embeddings : list Vec) w,
    rate_lock (limiter w) = false ->
    exists r w',
      retry_loop env max_retries retries batch embeddings w = Some (r, w')
      /\ paced w w'.
Proof.
  induction retries as [|retry rest IH]; intros embeddings w Hfree.
  - exists (Extended embeddings), w. split; [reflexivity|].
    apply paced_refl, Hfree.
  - destruct (limited_post_sent env batch w (Hdelays _) Hfree)
      as (w1 & E1 & Hp1 & _).
    destruct (IH embeddings (sleep 10 w1)) as (r2 & w2 & E2 & Hp2);
      [exact (proj1 Hp1)|].
    assert (Hagain : paced w w2).
    { eapply paced_trans; [exact Hp1|].
      eapply paced_trans; [|exact Hp2].
      apply paced_sleep; [lra|exact (proj1 Hp1)]. }
    cbn [retry_loop]. rewrite E1.
    destruct (api env (calls w) batch) as [response|e].
    + destruct (negb (status_code response =? 200)).
      * destruct (retry <? max_retries - 1); eauto.
      * destruct (json response) as [v|e]; [eauto|].
        destruct (exn_class e), (retry <? max_retries - 1); eauto.
    + destruct (exn_class e), (retry <? max_retries - 1); eauto.
Qed.

Lemma batch_loop_paced (texts : list string) :
  forall (offsets : list Z) (embeddings : list Vec) w,
    rate_lock (limiter w) = false ->
    exists r w',
      batch_loop env offsets texts embeddings w = Some (r, w')
      /\ paced w w'.
Proof.
  induction offsets as [|i rest IH]; intros embeddings w Hfree.
  - exists (Extended embeddings), w. split; [reflexivity|].
    apply paced_refl, Hfree.
  - destruct (retry_loop_paced 3 (Py.slice i (i + 64) texts) (range 3)
                embeddings w Hfree) as (r1 & w1 & E1 & Hp1).
    cbn [batch_loop]. rewrite E1. destruct r1 as [embeddings'|e]; [|eauto].
    destruct (IH embeddings' w1 (proj1 Hp1)) as (r2 & w2 & E2 & Hp2).
    exists r2, w2. split; [exact E2|]. eapply paced_trans; eassumption.
Qed.

Lemma embed_dataset_paced (dataset : list Item) (output_path lang : string) w :
  rate_lock (limiter w) = false ->
  exists r w',
    embed_dataset env dataset output_path lang w = Some (r, w')
    /\ paced w w'.
Proof.
  intros Hfree. unfold embed_dataset.
  destruct (index_of lang LANGUAGES) as [e|position].
  { exists (Raised e), w. split; [reflexivity|]. apply paced_refl, Hfree. }
  destruct (batch_loop_paced (prepare dataset)
              (PyRange.range_step 0 (Z.of_nat (length (prepare dataset))) 64)
              [] w Hfree) as (r1 & w1 & E1 & Hp1).
  rewrite E1. destruct r1 as [embeddings|e]; eauto.
Qed.

Lemma splits_loop_paced (datasets : gmap string (list Item)) (lang : string) :
  forall (splits : list string) (total_embedded : Z) w,
    rate_lock (limiter w) = false ->
    exists r w',
      splits_loop env datasets lang splits total_embedded w = Some (r, w')
      /\ paced w w'.
Proof.
  induction splits as [|split rest IH]; intros total_embedded w Hfree.
  - exists (Returned total_embedded), w. split; [reflexivity|].
    apply paced_refl, Hfree.
  - cbn [splits_loop].
    destruct (datasets !! dataset_path lang split) as [dataset|]; [|eauto].
    destruct (files w !! embeddings_path lang split); [eauto|].
    destruct (embed_dataset_paced dataset (embeddings_path lang split) lang
                w Hfree) as (r1 & w1 & E1 & Hp1).
    rewrite E1. destruct r1 as [count|e]; [|eauto].
    destruct (IH (total_embedded + count) w1 (proj1 Hp1))
      as (r2 & w2 & E2 & Hp2).
    exists r2, w2. split; [exact E2|]. eapply paced_trans; eassumption.
Qed.

End Paced.

Lemma batch_loop_files env (texts : list string) :
  forall (offsets : list Z) (embeddings : list Vec) w r w',
    batch_loop env offsets texts embeddings w = Some (r, w') ->
    files w' = files w /\ (calls w <= calls w')%nat.
Proof.
  induction offsets as [|i rest IH]; intros embeddings w r w' E.
  - injection E as <- <-. auto.
  - cbn [batch_loop] in E.
    destruct (retry_loop env 3 (range 3) (Py.slice i (i + 64) texts)
                embeddings w) as [[[embeddings'|e] w1]|] eqn:E1;
      [| |discriminate]; apply retry_loop_files in E1 as [Hf Hc].
    + apply IH in E as [Hf' Hc']. split; [congruence|lia].
    + injection E as <- <-. auto.
Qed.

(** What [embed_dataset] does to the files: nothing when it raises, one
    write of the vectors it counted when it returns. *)
Lemma embed_dataset_files env (dataset : list Item)
    (output_path lang : string) w r w' :
  embed_dataset env dataset output_path lang w = Some (r, w') ->
  match r with
  | Raised _ => files w' = files w
  | Returned count =>
      files w !! output_path = None ->
      files w ⊆ files w'
  end.
Proof.
  unfold embed_dataset.
  destruct (index_of lang LANGUAGES) as [e|position].
  { intros [= <- <-]. reflexivity. }
  destruct (batch_loop env _ (prepare dataset) [] w)
    as [[[embeddings|e] w1]|] eqn:E1; [| |discriminate];
    apply batch_loop_files in E1 as [Hf Hc]; intros [= <- <-].
  - simpl. intros Hnone. rewrite Hf. apply insert_subseteq, Hnone.
  - exact Hf.
Qed.

Lemma splits_loop_files env (datasets : gmap string (list Item))
    (lang : string) :
  forall (splits : list string) (total_embedded : Z) w r w',
    splits_loop env datasets lang splits total_embedded w = Some (r, w') ->
    files w ⊆ files w'.
Proof.
  induction splits as [|split rest IH]; intros total_embedded w r w' E.
  - injection E as <- <-. reflexivity.
  - cbn [splits_loop] in E.
    destruct (datasets !! dataset_path lang split) as [dataset|];
      [|exact (IH _ _ _ _ E)].
    destruct (files w !! embeddings_path lang split) eqn:Hfile;
      [exact (IH _ _ _ _ E)|].
    destruct (embed_dataset env dataset (embeddings_path lang split) lang w)
      as [[[count|e] w1]|] eqn:E1; [| |discriminate];
      apply embed_dataset_files in E1.
    + etrans; [exact (E1 Hfile)|exact (IH _ _ _ _ E)].
    + injection E as <- <-. rewrite E1. reflexivity.
Qed.

Lemma index_of_known (lang : string) (keys : list string) :
  In lang keys -> exists position, index_of lang keys = inr position.
Proof.
  induction keys as [|key keys IH]; intros Hin; [destruct Hin|].
  simpl. destruct (String.eqb_spec key lang) as [_|Hne]; [eauto|].
  destruct Hin as [Heq|Hin]; [contradiction|].
  destruct (IH Hin) as (position & ->). eauto.
Qed.

Lemma index_of_unknown (lang : string) (keys : list string) :
  ~ In lang keys ->
  index_of lang keys
  = inl (Exn ValueErrorCls (String "'"%char lang +:+ "' is not in list")).
Proof.
  induction keys as [|key keys IH]; intros Hin; [reflexivity|].
  simpl. destruct (String.eqb_spec key lang) as [Heq|Hne].
  - exfalso. apply Hin. left. exact Heq.
  - rewrite IH; [reflexivity|]. intros H. apply Hin. right. exact H.
Qed.

Section Runs.

Variable env : Env Vec.
Variable model : string -> Vec.
Hypothesis Hdelays : forall n, nonneg (delays env n).

(** A request that is answered with the vectors ends the retry loop. *)
Lemma retry_loop_first_good (batch : list string) (embeddings : list Vec) w :
  rate_lock (limiter w) = false ->
  good_answer model batch (api env (calls w) batch) ->
  exists w',
    retry_loop env 3 (range 3) batch embeddings w
    = Some (Extended (embeddings ++ map model batch), w')
    /\ calls w' = S (calls w) /\ files w' = files w
    /\ rate_lock (limiter w') = false.
Proof.
  intros Hfree (txt & Hgood).
  destruct (limited_post_sent env batch w (Hdelays _) Hfree)
    as (w1 & E1 & Hp1 & Hc1 & Hf1 & _).
  exists w1. change (range 3) with [0; 1; 2]. cbn [retry_loop].
  rewrite E1, Hgood. simpl. split; [reflexivity|].
  split; [exact Hc1|]. split; [exact Hf1|exact (proj1 Hp1)].
Qed.

(** Three answers other than 200 to the same batch: the retry loop gives up
    after the third request and two sleeps of ten seconds. *)
Lemma retry_loop_refused (batch : list string) (embeddings : list Vec) w :
  rate_lock (limiter w) = false ->
  (forall k, (k < 3)%nat -> refused (api env (calls w + k)%nat batch)) ->
  exists w',
    retry_loop env 3 (range 3) batch embeddings w
    = Some (Failed (Exn ExceptionCls "API error after 3 retries"), w')
    /\ calls w' = (calls w + 3)%nat /\ files w' = files w
    /\ (clock (limiter w) + 20 <= clock (limiter w'))%Q.
Proof.
  intros Hfree Hrefused.
  destruct (Hrefused 0%nat) as (r0 & E0 & Hs0); [lia|].
  destruct (Hrefused 1%nat) as (r1 & Er1 & Hs1); [lia|].
  destruct (Hrefused 2%nat) as (r2 & Er2 & Hs2); [lia|].
  rewrite Nat.add_0_r in E0.
  destruct (limited_post_sent env batch w (Hdelays _) Hfree)
    as (w1 & E1 & Hp1 & Hc1 & Hf1 & Hk1).
  destruct (limited_post_sent env batch (sleep 10 w1) (Hdelays _)
              (proj1 Hp1)) as (w2 & E2 & Hp2 & Hc2 & Hf2 & Hk2).
  destruct (limited_post_sent env batch (sleep 10 w2) (Hdelays _)
              (proj1 Hp2)) as (w3 & E3 & Hp3 & Hc3 & Hf3 & Hk3).
  simpl in Hc2, Hc3, Hf2, Hf3, Hk2, Hk3, E2, E3.
  replace (calls w1) with (calls w + 1)%nat in E2 by lia.
  replace (calls w2) with (calls w + 2)%nat in E3 by lia.
  apply Z.eqb_neq in Hs0, Hs1, Hs2.
  exists w3. change (range 3) with [0; 1; 2]. cbn [retry_loop].
  rewrite E1, E0, Hs0. cbn [negb Z.ltb Z.sub Z.compare Z.add Z.opp
    Z.pos_sub Pos.compare Pos.compare_cont Pos.pred_double].
  rewrite E2, Er1, Hs1. cbn [negb Z.ltb Z.sub Z.compare Z.add Z.opp
    Z.pos_sub Pos.compare Pos.compare_cont Pos.pred_double].
  rewrite E3, Er2, Hs2. cbn [negb Z.ltb Z.sub Z.compare Z.add Z.opp
    Z.pos_sub Pos.compare Pos.compare_cont Pos.pred_double exn_class].
  split; [reflexivity|]. split; [lia|]. split; [congruence|]. lra.
Qed.

Lemma batch_loop_app (texts : list string) (offsets1 offsets2 : list Z) :
  forall (embeddings : list Vec) w,
    batch_loop env (offsets1 ++ offsets2) texts embeddings w
    = match batch_loop env offsets1 texts embeddings w with
      | Some (Extended embeddings', w1) =>
          batch_loop env offsets2 texts embeddings' w1
      | other => other
      end.
Proof.
  induction offsets1 as [|i rest IH]; intros embeddings w; [reflexivity|].
  cbn [app batch_loop].
  destruct (retry_loop env 3 (range 3) (Py.slice i (i + 64) texts)
              embeddings w) as [[[embeddings'|e] w1]|]; auto.
Qed.

(** As long as every request is answered with the vectors, every batch
    takes one request. *)
Lemma batch_loop_good (texts : list string) :
  forall (offsets : list Z) (embeddings : list Vec) w,
    rate_lock (limiter w) = false ->
    (forall n batch,
       (calls w <= n < calls w + length offsets)%nat ->
       good_answer model batch (api env n batch)) ->
    exists w',
      batch_loop env offsets texts embeddings w
      = Some (Extended (embeddings ++ map model (batches 64 offsets texts)), w')
      /\ calls w' = (calls w + length offsets)%nat
      /\ files w' = files w
      /\ rate_lock (limiter w') = false.
Proof.
  induction offsets as [|i rest IH]; intros embeddings w Hfree Hgood.
  - exists w. unfold batches. simpl. rewrite app_nil_r, Nat.add_0_r. auto.
  - destruct (retry_loop_first_good (Py.slice i (i + 64) texts) embeddings w
                Hfree) as (w1 & E1 & Hc1 & Hf1 & Hfree1).
    { apply Hgood. simpl. lia. }
    destruct (IH (embeddings ++ map model (Py.slice i (i + 64) texts)) w1
                Hfree1) as (w2 & E2 & Hc2 & Hf2 & Hfree2).
    { intros n batch Hn. apply Hgood. simpl. lia. }
    exists w2. cbn [batch_loop]. rewrite E1, E2.
    unfold batches. simpl. rewrite map_app, app_assoc.
    split; [reflexivity|]. split; [lia|]. split; [congruence|exact Hfree2].
Qed.

End Runs.

End Facts.
End ParallelFacts.

(** X15.  A worker of the parallel script that runs alone, with the lock
    free when it starts, no negative delay and sleeps that last at least
    the time asked for: [process_language] always returns, whatever the
    endpoint answers, it leaves the lock free, and, while the clock reads
    at most 4,000,000,000 s, the timestamp stored for each request it
    sends is at least 0.6 s less 5 * 2 ** -21 s (the rounding of the
    floats) after the one of the request before it and after the shared
    timestamp it found. *)
Theorem parallel_worker_paces_requests {Vec : Type} (env : Parallel.Env Vec)
    (datasets : gmap string (list Item)) (lang : string)
    (w : Parallel.World Vec) :
  (forall n, RateLimiter.nonneg (Parallel.delays env n)) ->
  RateLimiter.rate_lock (Parallel.limiter w) = false ->
  exists r w',
    Parallel.process_language env datasets lang w = Some (r, w')
    /\ paced w w'.
Proof.
  intros Hdelays Hfree. unfold Parallel.process_language.
  destruct (ParallelFacts.splits_loop_paced env Hdelays datasets lang
              Parallel.SPLITS 0 w Hfree) as (r & w' & E & Hp).
  rewrite E. destruct r as [total_embedded|e]; eauto.
Qed.

Lemma parallel_worker_paces_requests_witness :
  exists r w' new,
    Parallel.process_language ParallelSample.env_ok ParallelSample.datasets
      "python" ParallelSample.world0 = Some (r, w')
    /\ paced ParallelSample.world0 w'
    /\ Parallel.posts w' = new ++ Parallel.posts ParallelSample.world0
    /\ (0 < length new)%nat
    /\ RateLimiter.spaced_within RateLimiter.rounding_slack
         (rev (map fst new)).
Proof.
  destruct (parallel_worker_paces_requests ParallelSample.env_ok
              ParallelSample.datasets "python" ParallelSample.world0)
    as (r & w' & E & Hp).
  - intros n. unfold RateLimiter.nonneg. simpl. repeat split; lra.
  - reflexivity.
  - assert (Hp' := Hp). destruct Hp' as (_ & _ & new & Hnew & Hsp).
    exists r, w', new. split; [exact E|]. split; [exact Hp|].
    split; [exact Hnew|].
    assert (E' := E). vm_compute in E'. injection E' as <- <-.
    split.
    + apply (f_equal length) in Hnew. rewrite length_app in Hnew.
      simpl in Hnew. lia.
    + apply Hsp.
      * split; [|split]; vm_compute; discriminate.
      * vm_compute. discriminate.
Defined.

(** X16.  When every request is answered 200 with the vectors of its
    texts, [embed_dataset] of the parallel script returns the number of
    records, saves at [output_path] the vectors of the prepared texts in the
    order of the records, and sends one request per batch of 64. *)
Theorem parallel_good_run_is_aligned {Vec : Type} (env : Parallel.Env Vec)
    (model : string -> Vec) (dataset : list Item)
    (output_path lang : string) (w : Parallel.World Vec) :
  (forall n, RateLimiter.nonneg (Parallel.delays env n)) ->
  RateLimiter.rate_lock (Parallel.limiter w) = false ->
  In lang Parallel.LANGUAGES ->
  (forall n batch, good_answer model batch (Parallel.api env n batch)) ->
  exists w',
    Parallel.embed_dataset env dataset output_path lang w
    = Some (Returned (Z.of_nat (length dataset)), w')
    /\ Parallel.files w'
       = <[output_path := map model (Parallel.prepare dataset)]>
           (Parallel.files w)
    /\ Z.of_nat (Parallel.calls w')
       = Z.of_nat (Parallel.calls w) + (Z.of_nat (length dataset) + 63) / 64.
Proof.
  intros Hdelays Hfree Hlang Hgood. unfold Parallel.embed_dataset.
  destruct (ParallelFacts.index_of_known lang _ Hlang) as (position & ->).
  destruct (ParallelFacts.batch_loop_good env model Hdelays
              (Parallel.prepare dataset)
              (PyRange.range_step 0
                 (Z.of_nat (length (Parallel.prepare dataset))) 64) [] w
              Hfree) as (w1 & E & Hc & Hf & _).
  { intros n batch _. apply Hgood. }
  rewrite E.
  rewrite (PyRangeFacts.batches_range_step 64 (Parallel.prepare dataset)
             (length (Parallel.prepare dataset)) ltac:(lia) 0) by lia.
  change (Z.to_nat 0) with 0%nat. rewrite drop_0, app_nil_l.
  assert (Hlen : length (Parallel.prepare dataset) = length dataset).
  { unfold Parallel.prepare. apply length_map. }
  eexists. split; [|split].
  - rewrite length_map, Hlen. reflexivity.
  - cbn [Parallel.files]. rewrite Hf. reflexivity.
  - cbn [Parallel.calls]. rewrite Hc, Nat2Z.inj_add.
    rewrite (PyRangeFacts.length_range_step 64 _
               (length (Parallel.prepare dataset))) by lia.
    rewrite Hlen, Z.sub_0_r.
    replace (Z.of_nat (length dataset) + 64 - 1)
      with (Z.of_nat (length dataset) + 63) by lia.
    assert (0 <= (Z.of_nat (length dataset) + 63) / 64)
      by (apply Z.div_pos; lia).
    lia.
Qed.

Lemma parallel_good_run_is_aligned_witness :
  exists w',
    Parallel.embed_dataset ParallelSample.env_ok Fixture.dataset3
      "python_train_embeddings.npy" "python" ParallelSample.world0
    = Some (Returned (Z.of_nat (length Fixture.dataset3)), w')
    /\ Parallel.files w'
       = <["python_train_embeddings.npy"
           := map Fixture.model (Parallel.prepare Fixture.dataset3)]>
           (Parallel.files ParallelSample.world0)
    /\ Z.of_nat (Parallel.calls w')
       = Z.of_nat (Parallel.calls ParallelSample.world0)
         + (Z.of_nat (length Fixture.dataset3) + 63) / 64.
Proof.
  apply parallel_good_run_is_aligned.
  - intros n. unfold RateLimiter.nonneg. simpl. repeat split; lra.
  - reflexivity.
  - simpl. auto.
  - intros n batch. eexists. reflexivity.
Defined.

(** X17.  In [embed_dataset] of the parallel script, when the first [k]
    batches are answered with their vectors and the next batch is answered
    three times with a status other than 200, the call raises
    "API error after 3 retries" after [k + 3] requests and saves nothing:
    the vectors received for the first [k] batches are lost. *)
Theorem parallel_failure_saves_nothing {Vec : Type} (env : Parallel.Env Vec)
    (model : string -> Vec) (dataset : list Item)
    (output_path lang : string) (w : Parallel.World Vec) (k : nat) :
  (forall n, RateLimiter.nonneg (Parallel.delays env n)) ->
  RateLimiter.rate_lock (Parallel.limiter w) = false ->
  In lang Parallel.LANGUAGES ->
  Z.of_nat k * 64 < Z.of_nat (length dataset) ->
  (forall n batch,
     (Parallel.calls w <= n < Parallel.calls w + k)%nat ->
     good_answer model batch (Parallel.api env n batch)) ->
  (forall j batch,
     (j < 3)%nat ->
     refused (Parallel.api env (Parallel.calls w + k + j)%nat batch)) ->
  exists w',
    Parallel.embed_dataset env dataset output_path lang w
    = Some (Raised (Exn ExceptionCls "API error after 3 retries"), w')
    /\ Parallel.calls w' = (Parallel.calls w + k + 3)%nat
    /\ Parallel.files w' = Parallel.files w.
Proof.
  intros Hdelays Hfree Hlang Hk Hgood Hrefused.
  unfold Parallel.embed_dataset.
  destruct (ParallelFacts.index_of_known lang _ Hlang) as (position & ->).
  assert (Hlen : length (Parallel.prepare dataset) = length dataset).
  { unfold Parallel.prepare. apply length_map. }
  set (texts := Parallel.prepare dataset) in *.
  set (offsets := PyRange.range_step 0 (Z.of_nat (length texts)) 64).
  assert (Hoff : (k < length offsets)%nat).
  { apply Nat2Z.inj_lt. unfold offsets.
    rewrite (PyRangeFacts.length_range_step 64 _ (length texts)) by lia.
    rewrite Hlen, Z.sub_0_r.
    assert (Z.of_nat k + 1 <= (Z.of_nat (length dataset) + 64 - 1) / 64);
      [|lia].
    apply Z.div_le_lower_bound; lia. }
  rewrite <- (take_drop k offsets).
  destruct (drop k offsets) as [|i rest] eqn:Hdrop.
  { apply (f_equal length) in Hdrop. rewrite length_drop in Hdrop.
    simpl in Hdrop. lia. }
  rewrite ParallelFacts.batch_loop_app.
  destruct (ParallelFacts.batch_loop_good env model Hdelays texts
              (take k offsets) [] w Hfree) as (w1 & E1 & Hc1 & Hf1 & Hfree1).
  { intros n batch Hn. apply Hgood. rewrite length_take in Hn. lia. }
  rewrite E1. rewrite length_take, Nat.min_l in Hc1 by lia.
  destruct (ParallelFacts.retry_loop_refused env Hdelays
              (Py.slice i (i + 64) texts)
              ([] ++ map model (batches 64 (take k offsets) texts)) w1 Hfree1)
    as (w2 & E2 & Hc2 & Hf2 & _).
  { intros j Hj. rewrite Hc1. apply Hrefused, Hj. }
  cbn [Parallel.batch_loop]. rewrite E2.
  exists w2. split; [reflexivity|]. split; [lia|congruence].
Qed.

Lemma parallel_failure_saves_nothing_witness :
  exists w',
    Parallel.embed_dataset ParallelSample.env_ok_then_503
      ParallelSample.dataset65 "python_train_embeddings.npy" "python"
      ParallelSample.world0
    = Some (Raised (Exn ExceptionCls "API error after 3 retries"), w')
    /\ Parallel.calls w' = (Parallel.calls ParallelSample.world0 + 1 + 3)%nat
    /\ Parallel.files w' = Parallel.files ParallelSample.world0.
Proof.
  apply (parallel_failure_saves_nothing ParallelSample.env_ok_then_503
           Fixture.model).
  - intros n. unfold RateLimiter.nonneg. simpl. repeat split; lra.
  - reflexivity.
  - simpl. auto.
  - vm_compute. reflexivity.
  - intros n batch Hn. simpl in Hn. assert (n = 0%nat) as -> by lia.
    eexists. reflexivity.
  - intros j batch Hj. simpl. eexists. split; [reflexivity|]. simpl. lia.
Defined.

(** X18.  A worker of the parallel script never deletes or overwrites a
    file: every embeddings file that exists when [process_language] starts
    exists with the same content when it ends, whether it succeeds or
    fails. *)
Theorem parallel_worker_keeps_files {Vec : Type} (env : Parallel.Env Vec)
    (datasets : gmap string (list Item)) (lang : string)
    (w w' : Parallel.World Vec) (r : string * Z * bool) :
  Parallel.process_language env datasets lang w = Some (r, w') ->
  Parallel.files w ⊆ Parallel.files w'.
Proof.
  unfold Parallel.process_language.
  destruct (Parallel.splits_loop env datasets lang Parallel.SPLITS 0 w)
    as [[[total_embedded|e] w1]|] eqn:E; [| |discriminate];
    apply ParallelFacts.splits_loop_files in E; intros [= <- <-]; exact E.
Qed.

Lemma parallel_worker_keeps_files_witness :
  Parallel.files ParallelSample.world_train_saved
  ⊆ Parallel.files ParallelSample.world_after_validation.
Proof.
  apply (parallel_worker_keeps_files ParallelSample.env_ok
           ParallelSample.datasets "python" _ _
           ParallelSample.result_after_validation).
  vm_compute. reflexivity.
Defined.

(** X19.  [embed_dataset] of the parallel script, called for a language
    that is not a key of [LANGUAGES], raises a [ValueError] before it sends
    any request, and saves nothing, whatever the dataset holds. *)
Theorem parallel_unknown_language_sends_nothing {Vec : Type}
    (env : Parallel.Env Vec) (dataset : list Item)
    (output_path lang : string) (w : Parallel.World Vec) :
  ~ In lang Parallel.LANGUAGES ->
  exists e,
    Parallel.embed_dataset env dataset output_path lang w
    = Some (Raised e, w)
    /\ exn_class e = ValueErrorCls.
Proof.
  intros Hlang. unfold Parallel.embed_dataset.
  rewrite (ParallelFacts.index_of_unknown lang _ Hlang).
  eexists. split; reflexivity.
Qed.

Lemma parallel_unknown_language_sends_nothing_witness :
  exists e,
    Parallel.embed_dataset ParallelSample.env_ok Fixture.dataset3
      "rust_train_embeddings.npy" "rust" ParallelSample.world0
    = Some (Raised e, ParallelSample.world0)
    /\ exn_class e = ValueErrorCls.
Proof.
  apply parallel_unknown_language_sends_nothing.
  simpl. intros H. repeat (destruct H as [H|H]; [discriminate H|]). exact H.
Defined.

Lemma collect_loop_spec (results : list (string * Z * bool)) :
  forall (total_embedded : Z) (successes failures : list string),
    Parallel.collect_loop results total_embedded successes failures
    = (total_embedded + sum_counts results,
       successes ++ names_with true results,
       failures ++ names_with false results).
Proof.
  unfold names_with.
  induction results as [|[[lang_name count] success] rest IH];
    intros total_embedded successes failures.
  - simpl. rewrite Z.add_0_r, !app_nil_r. reflexivity.
  - cbn [Parallel.collect_loop]. destruct success; rewrite IH; simpl;
      rewrite <- ?app_assoc; simpl;
      replace (total_embedded + count + sum_counts rest)
        with (total_embedded + (count + sum_counts rest)) by lia;
      reflexivity.
Qed.

(** X20.  The summary of [main] in the parallel script: the total is the
    sum of the counts of all workers, and the successes and the failures
    are the names of the workers that reported success and failure, each in
    the order of the results. *)
Theorem collect_summary (results : list (string * Z * bool)) :
  Parallel.collect results
  = (sum_counts results, names_with true results, names_with false results).
Proof.
  unfold Parallel.collect. rewrite collect_loop_spec. reflexivity.
Qed.

(** ** The sequential script *)

Module FullFacts.
Import RateLimiter Full.

Section Facts.

Context {Vec : Type}.

Implicit Types (w : World Vec) (api : Api Vec).

Lemma rested_sleep (seconds : Q) w :
  (min_interval <= seconds)%Q -> tidy w -> tidy (sleep seconds w)
  /\ rested (sleep seconds w).
Proof.
  intros Hs [Hsp Hle]. unfold tidy, rested, request_stamps. simpl.
  split; [split; [exact Hsp|]|];
    (eapply Forall_impl; [exact Hle|]); simpl; intros p Hp;
    unfold min_interval in *; lra.
Qed.

Lemma post_tidy api (batch : list string) w :
  tidy w -> rested w -> tidy (snd (post api batch w)).
Proof.
  intros [Hsp Hle] Hrest. unfold tidy, request_stamps. simpl. split.
  - apply (spaced_app (slept w - min_interval));
      [exact Hsp|exact I| |].
    + apply Forall_rev, Forall_map.
      eapply Forall_impl; [exact Hrest|]. simpl. intros p Hp. lra.
    + constructor; [lra|constructor].
  - constructor; [simpl; lra|exact Hle].
Qed.

Lemma retry_loop_tidy api (max_retries : Z) (batch : list string) :
  forall (retries : list Z) (embeddings : list Vec) w,
    tidy w -> rested w ->
    tidy (snd (retry_loop api max_retries retries batch embeddings w))
    /\ forall embeddings',
         fst (retry_loop api max_retries retries batch embeddings w)
         = Extended embeddings' ->
         rested (sleep 0.6
                   (snd (retry_loop api max_retries retries batch
                           embeddings w))).
Proof.
  induction retries as [|retry rest IH]; intros embeddings w Ht Hr.
  - simpl. split; [exact Ht|]. intros _ _.
    apply rested_sleep; [unfold min_interval; lra|exact Ht].
  - pose proof (post_tidy api batch w Ht Hr) as Ht1.
    assert (Hnow : tidy (snd (post api batch w))
      /\ rested (sleep 0.6 (snd (post api batch w)))).
    { split; [exact Ht1|].
      apply rested_sleep; [unfold min_interval; lra|exact Ht1]. }
    destruct (rested_sleep 10 _ ltac:(unfold min_interval; lra) Ht1)
      as [Ht2 Hr2].
    specialize (IH embeddings _ Ht2 Hr2).
    cbn [retry_loop]. unfold post in *. cbn [fst snd] in *.
    destruct (api (calls w) batch) as [response|e].
    + destruct (negb (status_code response =? 200)).
      * destruct (retry <? max_retries - 1); [exact IH|].
        split; [exact (proj1 Hnow)|]. intros ? [=].
      * destruct (json response) as [v|e].
        -- split; [exact (proj1 Hnow)|]. intros _ _. exact (proj2 Hnow).
        -- destruct (retry <? max_retries - 1); [exact IH|].
           split; [exact (proj1 Hnow)|]. intros ? [=].
    + destruct (retry <? max_retries - 1); [exact IH|].
      split; [exact (proj1 Hnow)|]. intros ? [=].
Qed.

Lemma batch_loop_tidy api (texts : list string) :
  forall (offsets : list Z) (embeddings : list Vec) w,
    tidy w -> rested w ->
    tidy (snd (batch_loop api offsets texts embeddings w))
    /\ forall embeddings',
         fst (batch_loop api offsets texts embeddings w)
         = Extended embeddings' ->
         rested (snd (batch_loop api offsets texts embeddings w)).
Proof.
  induction offsets as [|i rest IH]; intros embeddings w Ht Hr.
  - simpl. auto.
  - cbn [batch_loop].
    destruct (retry_loop_tidy api 3 (Py.slice i (i + 32) texts) (range 3)
                embeddings w Ht Hr) as [Ht1 Hr1].
    destruct (retry_loop api 3 (range 3) (Py.slice i (i + 32) texts)
                embeddings w) as [[embeddings1|code] w1]; cbn [fst snd] in *.
    + apply IH; [|exact (Hr1 _ eq_refl)].
      apply rested_sleep; [unfold min_interval; lra|exact Ht1].
    + split; [exact Ht1|]. intros ? [=].
Qed.

Lemma embed_dataset_tidy api (dataset : list Item) (output_path : string) w :
  tidy w -> rested w ->
  tidy (snd (embed_dataset api dataset output_path w))
  /\ forall count,
       fst (embed_dataset api dataset output_path w) = Finished count ->
       rested (snd (embed_dataset api dataset output_path w)).
Proof.
  intros Ht Hr. unfold embed_dataset.
  destruct (batch_loop_tidy api (prepare dataset)
              (PyRange.range_step 0 (Z.of_nat (length (prepare dataset))) 32)
              [] w Ht Hr) as [Ht1 Hr1].
  destruct (batch_loop api _ (prepare dataset) [] w)
    as [[embeddings|code] w1]; cbn [fst snd] in *.
  - split; [exact Ht1|]. intros _ _. exact (Hr1 _ eq_refl).
  - split; [exact Ht1|]. intros ? [=].
Qed.

Lemma splits_loop_tidy api (datasets : gmap string (list Item))
    (lang_name : string) :
  forall (splits : list string) (total_embedded : Z) w,
    tidy w -> rested w ->
    tidy (snd (splits_loop api datasets lang_name splits total_embedded w))
    /\ forall count,
         fst (splits_loop api datasets lang_name splits total_embedded w)
         = Finished count ->
         rested
           (snd (splits_loop api datasets lang_name splits total_embedded w)).
Proof.
  induction splits as [|split_name rest IH]; intros total_embedded w Ht Hr.
  - simpl. auto.
  - cbn [splits_loop].
    destruct (datasets !! Parallel.dataset_path lang_name split_name)
      as [dataset|]; [|apply IH; assumption].
    destruct (files w !! Parallel.embeddings_path lang_name split_name);
      [apply IH; assumption|].
    destruct (embed_dataset_tidy api dataset
                (Parallel.embeddings_path lang_name split_name) w Ht Hr)
      as [Ht1 Hr1].
    destruct (embed_dataset api dataset _ w) as [[count|code] w1];
      cbn [fst snd] in *.
    + apply IH; [exact Ht1|exact (Hr1 _ eq_refl)].
    + split; [exact Ht1|]. intros ? [=].
Qed.

Lemma languages_loop_tidy api (datasets : gmap string (list Item)) :
  forall (languages : list string) (total_embedded : Z) w,
    tidy w -> rested w ->
    tidy (snd (languages_loop api datasets languages total_embedded w)).
Proof.
  induction languages as [|lang_name rest IH]; intros total_embedded w Ht Hr.
  - exact Ht.
  - cbn [languages_loop].
    destruct (splits_loop_tidy api datasets lang_name Parallel.SPLITS
                total_embedded w Ht Hr) as [Ht1 Hr1].
    destruct (splits_loop api datasets lang_name Parallel.SPLITS
                total_embedded w) as [[count|code] w1]; cbn [fst snd] in *.
    + apply IH; [exact Ht1|exact (Hr1 _ eq_refl)].
    + exact Ht1.
Qed.

(** *** What the loops do to the files *)

Lemma full_retry_loop_files api (max_retries : Z) (batch : list string) :
  forall (retries : list Z) (embeddings : list Vec) w,
    files (snd (retry_loop api max_retries retries batch embeddings w))
    = files w.
Proof.
  induction retries as [|retry rest IH]; intros embeddings w; [reflexivity|].
  specialize (IH embeddings (sleep 10 (snd (post api batch w)))).
  cbn [retry_loop]. unfold post in *. cbn [fst snd] in *.
  destruct (api (calls w) batch) as [response|e].
  - destruct (negb (status_code response =? 200)).
    + destruct (retry <? max_retries - 1); [exact IH|reflexivity].
    + destruct (json response) as [v|e]; [reflexivity|].
      destruct (retry <? max_retries - 1); [exact IH|reflexivity].
  - destruct (retry <? max_retries - 1); [exact IH|reflexivity].
Qed.

Lemma full_batch_loop_files api (texts : list string) :
  forall (offsets : list Z) (embeddings : list Vec) w,
    files (snd (batch_loop api offsets texts embeddings w)) = files w.
Proof.
  induction offsets as [|i rest IH]; intros embeddings w; [reflexivity|].
  cbn [batch_loop].
  pose proof (full_retry_loop_files api 3 (Py.slice i (i + 32) texts) (range 3)
                embeddings w) as Hf.
  destruct (retry_loop api 3 (range 3) (Py.slice i (i + 32) texts)
              embeddings w) as [[embeddings1|code] w1]; cbn [fst snd] in *.
  - rewrite IH. exact Hf.
  - exact Hf.
Qed.

Lemma full_embed_dataset_files api (dataset : list Item) (output_path : string) w :
  files w !! output_path = None ->
  files w ⊆ files (snd (embed_dataset api dataset output_path w)).
Proof.
  intros Hnone. unfold embed_dataset.
  pose proof (full_batch_loop_files api (prepare dataset)
                (PyRange.range_step 0
                   (Z.of_nat (length (prepare dataset))) 32) [] w) as Hf.
  destruct (batch_loop api _ (prepare dataset) [] w)
    as [[embeddings|code] w1]; cbn [fst snd] in *.
  - simpl. rewrite Hf. apply insert_subseteq, Hnone.
  - rewrite Hf. reflexivity.
Qed.

Lemma full_splits_loop_files api (datasets : gmap string (list Item))
    (lang_name : string) :
  forall (splits : list string) (total_embedded : Z) w,
    files w
    ⊆ files
        (snd (splits_loop api datasets lang_name splits total_embedded w)).
Proof.
  induction splits as [|split_name rest IH]; intros total_embedded w.
  - reflexivity.
  - cbn [splits_loop].
    destruct (datasets !! Parallel.dataset_path lang_name split_name)
      as [dataset|]; [|apply IH].
    destruct (files w !! Parallel.embeddings_path lang_name split_name)
      eqn:Hfile; [apply IH|].
    pose proof (full_embed_dataset_files api dataset _ w Hfile) as Hf.
    destruct (embed_dataset api dataset _ w) as [[count|code] w1];
      cbn [fst snd] in *.
    + etrans; [exact Hf|apply IH].
    + exact Hf.
Qed.

Lemma languages_loop_files api (datasets : gmap string (list Item)) :
  forall (languages : list string) (total_embedded : Z) w,
    files w
    ⊆ files (snd (languages_loop api datasets languages total_embedded w)).
Proof.
  induction languages as [|lang_name rest IH]; intros total_embedded w.
  - reflexivity.
  - cbn [languages_loop].
    pose proof (full_splits_loop_files api datasets lang_name Parallel.SPLITS
                  total_embedded w) as Hf.
    destruct (splits_loop api datasets lang_name Parallel.SPLITS
                total_embedded w) as [[count|code] w1]; cbn [fst snd] in *.
    + etrans; [exact Hf|apply IH].
    + exact Hf.
Qed.

(** *** Runs *)

Section Runs.

Variable api : Api Vec.
Variable model : string -> Vec.

Lemma full_retry_loop_first_good (batch : list string) (embeddings : list Vec) w :
  good_answer model batch (api (calls w) batch) ->
  retry_loop api 3 (range 3) batch embeddings w
  = (Extended (embeddings ++ map model batch), snd (post api batch w)).
Proof.
  intros (txt & Hgood). change (range 3) with [0; 1; 2].
  cbn [retry_loop]. unfold post. rewrite Hgood. reflexivity.
Qed.

(** One turn of the retry loop for a request that brings no vectors. *)
Lemma retry_loop_unanswered (max_retries retry : Z) (rest : list Z)
    (batch : list string) (embeddings : list Vec) w :
  answered (api (calls w) batch) = false ->
  retry_loop api max_retries (retry :: rest) batch embeddings w
  = if retry <? max_retries - 1
    then retry_loop api max_retries rest batch embeddings
           (sleep 10 (snd (post api batch w)))
    else (Exits 1, snd (post api batch w)).
Proof.
  intros Hun. cbn [retry_loop]. unfold post. cbn [fst snd].
  unfold answered in Hun.
  destruct (api (calls w) batch) as [response|e]; [|reflexivity].
  destruct (status_code response =? 200); simpl in *.
  - destruct (json response); [discriminate|reflexivity].
  - destruct (retry <? max_retries - 1); reflexivity.
Qed.

(** Three requests for the same batch that bring no vectors: the process
    exits with code 1 after the third, having slept twice ten seconds. *)
Lemma retry_loop_gives_up (batch : list string) (embeddings : list Vec) w :
  (forall j, (j < 3)%nat -> answered (api (calls w + j)%nat batch) = false) ->
  exists w',
    retry_loop api 3 (range 3) batch embeddings w = (Exits 1, w')
    /\ calls w' = (calls w + 3)%nat /\ files w' = files w
    /\ slept w' = (slept w + 10 + 10)%Q.
Proof.
  intros Hun. change (range 3) with [0; 1; 2].
  rewrite retry_loop_unanswered
    by (rewrite <- (Nat.add_0_r (calls w)); apply Hun; lia).
  change (0 <? 3 - 1) with true. cbn iota.
  rewrite retry_loop_unanswered
    by (simpl; rewrite <- Nat.add_1_r; apply Hun; lia).
  change (1 <? 3 - 1) with true. cbn iota.
  rewrite retry_loop_unanswered
    by (simpl; replace (S (S (calls w))) with (calls w + 2)%nat by lia;
        apply Hun; lia).
  change (2 <? 3 - 1) with false. cbn iota.
  eexists. split; [reflexivity|]. simpl. split; [lia|]. split; reflexivity.
Qed.

Lemma full_batch_loop_app (texts : list string) (offsets1 offsets2 : list Z) :
  forall (embeddings : list Vec) w,
    batch_loop api (offsets1 ++ offsets2) texts embeddings w
    = match batch_loop api offsets1 texts embeddings w with
      | (Extended embeddings', w1) =>
          batch_loop api offsets2 texts embeddings' w1
      | other => other
      end.
Proof.
  induction offsets1 as [|i rest IH]; intros embeddings w; [reflexivity|].
  cbn [app batch_loop].
  destruct (retry_loop api 3 (range 3) (Py.slice i (i + 32) texts)
              embeddings w) as [[embeddings'|code] w1]; auto.
Qed.

Lemma full_batch_loop_good (texts : list string) :
  forall (offsets : list Z) (embeddings : list Vec) w,
    (forall n batch,
       (calls w <= n < calls w + length offsets)%nat ->
       good_answer model batch (api n batch)) ->
    exists w',
      batch_loop api offsets texts embeddings w
      = (Extended (embeddings ++ map model (batches 32 offsets texts)), w')
      /\ calls w' = (calls w + length offsets)%nat
      /\ files w' = files w
      /\ (slept w' == slept w + 0.6 * inject_Z (Z.of_nat (length offsets)))%Q.
Proof.
  induction offsets as [|i rest IH]; intros embeddings w Hgood.
  - exists w. unfold batches. simpl. rewrite app_nil_r, Nat.add_0_r.
    split; [reflexivity|]. split; [reflexivity|]. split; [reflexivity|].
    change (inject_Z (Z.of_nat 0)) with 0%Q. ring.
  - cbn [batch_loop]. rewrite full_retry_loop_first_good
      by (apply Hgood; simpl; lia).
    destruct (IH (embeddings ++ map model (Py.slice i (i + 32) texts))
                (sleep 0.6 (snd (post api (Py.slice i (i + 32) texts) w))))
      as (w2 & E2 & Hc2 & Hf2 & Hs2).
    { intros n batch Hn. apply Hgood. simpl in *. lia. }
    exists w2. rewrite E2. unfold batches. simpl concat.
    rewrite map_app, app_assoc. split; [reflexivity|].
    simpl in Hc2, Hf2, Hs2. split; [simpl; lia|]. split; [exact Hf2|].
    rewrite Hs2. simpl length. rewrite Nat2Z.inj_succ, <- Z.add_1_r.
    rewrite inject_Z_plus. change (inject_Z 1) with 1%Q. ring.
Qed.

End Runs.

End Facts.
End FullFacts.

(** X21.  In the sequential script, between any two consecutive requests
    of a run of [main] the process sleeps at least 0.6 s, whatever the
    endpoint answers and wherever the run ends: ten seconds before a retry,
    0.6 s after a batch. *)
Theorem full_requests_are_spaced {Vec : Type} (api : Api Vec)
    (datasets : gmap string (list Item)) (w : Full.World Vec) :
  tidy w -> rested w ->
  RateLimiter.spaced (request_stamps (snd (Full.main api datasets w))).
Proof.
  intros Ht Hr. unfold Full.main.
  exact (proj1 (FullFacts.languages_loop_tidy api datasets
                  Parallel.LANGUAGES 0 w Ht Hr)).
Qed.

Lemma full_requests_are_spaced_witness :
  RateLimiter.spaced
    (request_stamps
       (snd (Full.main Fixture.api_503_twice ParallelSample.datasets
               FullSample.world0))).
Proof.
  apply full_requests_are_spaced.
  - split; [exact I|constructor].
  - constructor.
Defined.

(** X22.  When every request is answered 200 with the vectors of its
    texts, [embed_dataset] of the sequential script returns the number of
    records, saves at [output_path] the vectors of the prepared texts in the
    order of the records, sends one request per batch of 32 and sleeps
    0.6 s per batch. *)
Theorem full_good_run_is_aligned {Vec : Type} (api : Api Vec)
    (model : string -> Vec) (dataset : list Item) (output_path : string)
    (w : Full.World Vec) :
  (forall n batch, good_answer model batch (api n batch)) ->
  exists w',
    Full.embed_dataset api dataset output_path w
    = (Full.Finished (Z.of_nat (length dataset)), w')
    /\ Full.files w'
       = <[output_path := map model (Full.prepare dataset)]> (Full.files w)
    /\ Z.of_nat (Full.calls w')
       = Z.of_nat (Full.calls w) + (Z.of_nat (length dataset) + 31) / 32
    /\ (Full.slept w'
        == Full.slept w
           + 0.6 * inject_Z ((Z.of_nat (length dataset) + 31) / 32))%Q.
Proof.
  intros Hgood. unfold Full.embed_dataset.
  assert (Hlen : length (Full.prepare dataset) = length dataset).
  { unfold Full.prepare. apply length_map. }
  destruct (FullFacts.full_batch_loop_good api model (Full.prepare dataset)
              (PyRange.range_step 0
                 (Z.of_nat (length (Full.prepare dataset))) 32) [] w)
    as (w1 & E & Hc & Hf & Hs).
  { intros n batch _. apply Hgood. }
  rewrite E.
  rewrite (PyRangeFacts.batches_range_step 32 (Full.prepare dataset)
             (length (Full.prepare dataset)) ltac:(lia) 0) by lia.
  change (Z.to_nat 0) with 0%nat. rewrite drop_0, app_nil_l.
  assert (Hcount :
    Z.of_nat (length (PyRange.range_step 0
                        (Z.of_nat (length (Full.prepare dataset))) 32))
    = (Z.of_nat (length dataset) + 31) / 32).
  { rewrite (PyRangeFacts.length_range_step 32 _
               (length (Full.prepare dataset))) by lia.
    rewrite Hlen, Z.sub_0_r.
    replace (Z.of_nat (length dataset) + 32 - 1)
      with (Z.of_nat (length dataset) + 31) by lia.
    assert (0 <= (Z.of_nat (length dataset) + 31) / 32)
      by (apply Z.div_pos; lia).
    lia. }
  eexists. split; [|split; [|split]].
  - rewrite length_map, Hlen. reflexivity.
  - cbn [Full.files]. rewrite Hf. reflexivity.
  - cbn [Full.calls]. rewrite Hc, Nat2Z.inj_add, Hcount. reflexivity.
  - cbn [Full.slept]. rewrite Hs, Hcount. reflexivity.
Qed.

Lemma full_good_run_is_aligned_witness :
  exists w',
    Full.embed_dataset Fixture.api_ok Fixture.dataset3
      "python_train_embeddings.npy" FullSample.world0
    = (Full.Finished (Z.of_nat (length Fixture.dataset3)), w')
    /\ Full.files w'
       = <["python_train_embeddings.npy"
           := map Fixture.model (Full.prepare Fixture.dataset3)]>
           (Full.files FullSample.world0)
    /\ Z.of_nat (Full.calls w')
       = Z.of_nat (Full.calls FullSample.world0)
         + (Z.of_nat (length Fixture.dataset3) + 31) / 32
    /\ (Full.slept w'
        == Full.slept FullSample.world0
           + 0.6 * inject_Z ((Z.of_nat (length Fixture.dataset3) + 31) / 32))%Q.
Proof.
  apply full_good_run_is_aligned.
  intros n batch. eexists. reflexivity.
Defined.

(** X23.  In [embed_dataset] of the sequential script, when the first [k]
    batches are answered with their vectors and the three requests for the
    next batch bring no vectors (a status other than 200, an exception, or
    a body that does not parse), the process exits with code 1 after
    [k + 3] requests and saves nothing. *)
Theorem full_failure_exits {Vec : Type} (api : Api Vec)
    (model : string -> Vec) (dataset : list Item) (output_path : string)
    (w : Full.World Vec) (k : nat) :
  Z.of_nat k * 32 < Z.of_nat (length dataset) ->
  (forall n batch,
     (Full.calls w <= n < Full.calls w + k)%nat ->
     good_answer model batch (api n batch)) ->
  (forall j batch,
     (j < 3)%nat ->
     answered (api (Full.calls w + k + j)%nat batch) = false) ->
  exists w',
    Full.embed_dataset api dataset output_path w = (Full.Exited 1, w')
    /\ Full.calls w' = (Full.calls w + k + 3)%nat
    /\ Full.files w' = Full.files w.
Proof.
  intros Hk Hgood Hun. unfold Full.embed_dataset.
  assert (Hlen : length (Full.prepare dataset) = length dataset).
  { unfold Full.prepare. apply length_map. }
  set (texts := Full.prepare dataset) in *.
  set (offsets := PyRange.range_step 0 (Z.of_nat (length texts)) 32).
  assert (Hoff : (k < length offsets)%nat).
  { apply Nat2Z.inj_lt. unfold offsets.
    rewrite (PyRangeFacts.length_range_step 32 _ (length texts)) by lia.
    rewrite Hlen, Z.sub_0_r.
    assert (Z.of_nat k + 1 <= (Z.of_nat (length dataset) + 32 - 1) / 32);
      [|lia].
    apply Z.div_le_lower_bound; lia. }
  rewrite <- (take_drop k offsets).
  destruct (drop k offsets) as [|i rest] eqn:Hdrop.
  { apply (f_equal length) in Hdrop. rewrite length_drop in Hdrop.
    simpl in Hdrop. lia. }
  rewrite FullFacts.full_batch_loop_app.
  destruct (FullFacts.full_batch_loop_good api model texts (take k offsets) [] w)
    as (w1 & E1 & Hc1 & Hf1 & _).
  { intros n batch Hn. apply Hgood. rewrite length_take in Hn. lia. }
  rewrite E1. rewrite length_take, Nat.min_l in Hc1 by lia.
  destruct (FullFacts.retry_loop_gives_up api (Py.slice i (i + 32) texts)
              ([] ++ map model (batches 32 (take k offsets) texts)) w1)
    as (w2 & E2 & Hc2 & Hf2 & _).
  { intros j Hj. rewrite Hc1. apply Hun, Hj. }
  cbn [Full.batch_loop]. rewrite E2.
  exists w2. split; [reflexivity|]. split; [lia|congruence].
Qed.

Lemma full_failure_exits_witness :
  exists w',
    Full.embed_dataset FullSample.api_ok_then_timeout FullSample.dataset33
      "python_train_embeddings.npy" FullSample.world0 = (Full.Exited 1, w')
    /\ Full.calls w' = (Full.calls FullSample.world0 + 1 + 3)%nat
    /\ Full.files w' = Full.files FullSample.world0.
Proof.
  apply (full_failure_exits FullSample.api_ok_then_timeout Fixture.model).
  - vm_compute. reflexivity.
  - intros n batch Hn. simpl in Hn. assert (n = 0%nat) as -> by lia.
    eexists. reflexivity.
  - intros j batch Hj. reflexivity.
Defined.

(** X24.  A run of [main] of the sequential script never deletes or
    overwrites a file: every embeddings file that exists when it starts
    exists with the same content when it ends, however it ends. *)
Theorem full_main_keeps_files {Vec : Type} (api : Api Vec)
    (datasets : gmap string (list Item)) (w : Full.World Vec) :
  Full.files w ⊆ Full.files (snd (Full.main api datasets w)).
Proof.
  unfold Full.main. apply FullFacts.languages_loop_files.
Qed.

(** ** [main] of the robust script *)

Module RobustMainFacts.
Import RobustMain.

Section Facts.

Context {Vec : Type}.

Variable fuel : nat.
Variable api : Api Vec.
Variable datasets : gmap string (list Item).
Variable saved : gmap string (list Vec).

Lemma splits_loop_complete (lang_name : string) :
  forall (splits : list string) (total_embedded : Z) (d : Disk Vec),
    files d = saved ->
    (forall split_name,
       In split_name splits ->
       complete datasets saved lang_name split_name) ->
    exists d',
      splits_loop fuel api datasets lang_name splits total_embedded d
      = Some (Returned
                (total_embedded
                 + foldr (fun split_name acc =>
                            stored datasets saved lang_name split_name + acc)
                     0 splits), d')
      /\ files d' = saved
      /\ db (state d') = db (state d)
      /\ calls (state d') = calls (state d).
Proof.
  induction splits as [|split_name rest IH];
    intros total_embedded d Hfiles Hcomplete.
  - exists d. simpl. rewrite Z.add_0_r. auto.
  - cbn [splits_loop foldr]. unfold stored at 1.
    pose proof (Hcomplete split_name (or_introl eq_refl)) as Hhere.
    unfold complete in Hhere.
    destruct (datasets !! Parallel.dataset_path lang_name split_name)
      as [dataset|].
    + destruct (Hhere dataset eq_refl) as (arr & Harr & Hlen).
      rewrite Harr.
      rewrite (embed_dataset_robust_complete api dataset lang_name split_name
                 32 _ arr fuel)
        by (try lia; simpl; rewrite ?Hfiles; assumption).
      destruct (IH (total_embedded + Z.of_nat (length arr))
                  (close_partition
                     (Parallel.embeddings_path lang_name split_name) d
                     (np_save arr
                        (open_partition
                           (Parallel.embeddings_path lang_name split_name)
                           d))))
        as (d' & E & Hf & Hdb & Hcalls).
      { simpl. rewrite Hfiles. apply insert_id, Harr. }
      { intros s Hs. apply Hcomplete. right. exact Hs. }
      exists d'. rewrite E.
      split; [match goal with
        | |- Some (Returned ?a, _) = Some (Returned ?b, _) =>
            replace a with b by lia
        end; reflexivity|].
      split; [exact Hf|]. split; [exact Hdb|exact Hcalls].
    + destruct (IH total_embedded d Hfiles)
        as (d' & E & Hf & Hdb & Hcalls).
      { intros s Hs. apply Hcomplete. right. exact Hs. }
      exists d'. rewrite E. auto.
Qed.

Lemma languages_loop_complete :
  forall (languages : list string) (total_embedded : Z) (d : Disk Vec),
    files d = saved ->
    (forall lang_name split_name,
       In lang_name languages -> In split_name Parallel.SPLITS ->
       complete datasets saved lang_name split_name) ->
    exists d',
      languages_loop fuel api datasets languages total_embedded d
      = Some (Returned
                (total_embedded
                 + stored_total datasets saved languages Parallel.SPLITS),
              d')
      /\ files d' = saved
      /\ db (state d') = db (state d)
      /\ calls (state d') = calls (state d).
Proof.
  induction languages as [|lang_name rest IH];
    intros total_embedded d Hfiles Hcomplete.
  - exists d. simpl. rewrite Z.add_0_r. auto.
  - cbn [languages_loop].
    destruct (splits_loop_complete lang_name Parallel.SPLITS total_embedded
                d Hfiles)
      as (d1 & E1 & Hf1 & Hdb1 & Hcalls1).
    { intros s Hs. apply Hcomplete; [left; reflexivity|exact Hs]. }
    rewrite E1.
    destruct (IH (total_embedded
                  + foldr (fun split_name acc =>
                             stored datasets saved lang_name split_name + acc)
                      0 Parallel.SPLITS) d1 Hf1)
      as (d' & E & Hf & Hdb & Hcalls).
    { intros l s Hl Hs. apply Hcomplete; [right; exact Hl|exact Hs]. }
    exists d'. rewrite E. split.
    + unfold stored_total. cbn [foldr].
      match goal with
        | |- Some (Returned ?a, _) = Some (Returned ?b, _) =>
            replace a with b by lia
        end; reflexivity.
    + split; [exact Hf|]. split; congruence.
Qed.

End Facts.
End RobustMainFacts.

(** X25.  A run of [main] of the robust script over partitions that are all
    complete (every dataset on disk has an array file with at least one
    vector per record): no partition is skipped, yet no request is sent, the
    checkpoint table and the array files are left as they were, and the
    total reported as embedded is the number of vectors already stored. *)
Theorem robust_rerun_sends_nothing {Vec : Type} (fuel : nat) (api : Api Vec)
    (datasets : gmap string (list Item)) (d : RobustMain.Disk Vec) :
  (forall lang_name split_name,
     In lang_name Parallel.LANGUAGES -> In split_name Parallel.SPLITS ->
     RobustMain.complete datasets (RobustMain.files d) lang_name split_name) ->
  exists d',
    RobustMain.main fuel api datasets d
    = Some (Returned
              (RobustMain.stored_total datasets (RobustMain.files d)
                 Parallel.LANGUAGES Parallel.SPLITS), d')
    /\ RobustMain.files d' = RobustMain.files d
    /\ db (RobustMain.state d') = db (RobustMain.state d)
    /\ calls (RobustMain.state d') = calls (RobustMain.state d).
Proof.
  intros Hcomplete. unfold RobustMain.main.
  destruct (RobustMainFacts.languages_loop_complete fuel api datasets
              (RobustMain.files d) Parallel.LANGUAGES 0 d eq_refl Hcomplete)
    as (d' & E & H).
  exists d'. rewrite E. split; [reflexivity|exact H].
Qed.

Lemma robust_rerun_sends_nothing_witness :
  exists d',
    RobustMain.main 0 Fixture.api_429 RobustMainSample.datasets
      RobustMainSample.disk
    = Some (Returned
              (RobustMain.stored_total RobustMainSample.datasets
                 (RobustMain.files RobustMainSample.disk)
                 Parallel.LANGUAGES Parallel.SPLITS), d')
    /\ RobustMain.files d' = RobustMain.files RobustMainSample.disk
    /\ db (RobustMain.state d') = db (RobustMain.state RobustMainSample.disk)
    /\ calls (RobustMain.state d')
       = calls (RobustMain.state RobustMainSample.disk).
Proof.
  apply robust_rerun_sends_nothing.
  intros lang_name split_name Hl Hs dataset Hd.
  simpl in Hl, Hs.
  repeat (destruct Hl as [<-|Hl]);
    repeat (destruct Hs as [<-|Hs]);
    try contradiction; vm_compute in Hd; try discriminate Hd.
  eexists. split; [vm_compute; reflexivity|].
  injection Hd as <-. simpl. lia.
Defined.

(** ** The parallel script: answers are not counted *)

Section ParallelUnchecked.

Context {Vec : Type}.

Variable env : Parallel.Env Vec.
Variable f : list string -> list Vec.
Hypothesis Hdelays : forall n, RateLimiter.nonneg (Parallel.delays env n).
Hypothesis Hanswers :
  forall n batch, answers_by f batch (Parallel.api env n batch).

Lemma retry_loop_unchecked (batch : list string) (embeddings : list Vec)
    (w : Parallel.World Vec) :
  RateLimiter.rate_lock (Parallel.limiter w) = false ->
  exists w',
    Parallel.retry_loop env 3 (range 3) batch embeddings w
    = Some (Parallel.Extended (embeddings ++ f batch), w')
    /\ Parallel.files w' = Parallel.files w
    /\ RateLimiter.rate_lock (Parallel.limiter w') = false.
Proof.
  intros Hfree. destruct (Hanswers (Parallel.calls w) batch) as (txt & Ha).
  destruct (ParallelFacts.limited_post_sent env batch w (Hdelays _) Hfree)
    as (w1 & E1 & Hp1 & _ & Hf1 & _).
  exists w1. change (range 3) with [0; 1; 2]. cbn [Parallel.retry_loop].
  rewrite E1, Ha. simpl. split; [reflexivity|].
  split; [exact Hf1|exact (proj1 Hp1)].
Qed.

Lemma batch_loop_unchecked (texts : list string) :
  forall (offsets : list Z) (embeddings : list Vec) (w : Parallel.World Vec),
    RateLimiter.rate_lock (Parallel.limiter w) = false ->
    exists w',
      Parallel.batch_loop env offsets texts embeddings w
      = Some (Parallel.Extended
                (embeddings
                 ++ flat_map (fun i => f (Py.slice i (i + 64) texts)) offsets),
              w')
      /\ Parallel.files w' = Parallel.files w.
Proof.
  induction offsets as [|i rest IH]; intros embeddings w Hfree.
  - exists w. simpl. rewrite app_nil_r. auto.
  - destruct (retry_loop_unchecked (Py.slice i (i + 64) texts) embeddings w
                Hfree) as (w1 & E1 & Hf1 & Hfree1).
    destruct (IH (embeddings ++ f (Py.slice i (i + 64) texts)) w1 Hfree1)
      as (w2 & E2 & Hf2).
    exists w2. cbn [Parallel.batch_loop flat_map]. rewrite E1, E2.
    rewrite app_assoc. split; [reflexivity|congruence].
Qed.

End ParallelUnchecked.

(** X26.  [embed_dataset] of the parallel script does not compare the
    number of vectors of an answer with the number of texts of the batch:
    when every request is answered 200 with the vectors [f batch], the call
    saves the concatenation of the answers, whatever their lengths, and
    returns its length, which need not be the number of records. *)
Theorem parallel_answers_are_not_counted {Vec : Type}
    (env : Parallel.Env Vec) (f : list string -> list Vec)
    (dataset : list Item) (output_path lang : string)
    (w : Parallel.World Vec) :
  (forall n, RateLimiter.nonneg (Parallel.delays env n)) ->
  RateLimiter.rate_lock (Parallel.limiter w) = false ->
  In lang Parallel.LANGUAGES ->
  (forall n batch, answers_by f batch (Parallel.api env n batch)) ->
  let texts := Parallel.prepare dataset in
  let saved :=
    flat_map (fun i => f (Py.slice i (i + 64) texts))
      (PyRange.range_step 0 (Z.of_nat (length texts)) 64) in
  exists w',
    Parallel.embed_dataset env dataset output_path lang w
    = Some (Returned (Z.of_nat (length saved)), w')
    /\ Parallel.files w' = <[output_path := saved]> (Parallel.files w).
Proof.
  intros Hdelays Hfree Hlang Hanswers texts saved.
  unfold Parallel.embed_dataset.
  destruct (ParallelFacts.index_of_known lang _ Hlang) as (position & ->).
  destruct (batch_loop_unchecked env f Hdelays Hanswers texts
              (PyRange.range_step 0 (Z.of_nat (length texts)) 64) [] w Hfree)
    as (w1 & E & Hf).
  fold texts. rewrite E. rewrite app_nil_l. fold saved.
  eexists. split; [reflexivity|]. cbn [Parallel.files]. rewrite Hf.
  reflexivity.
Qed.

Lemma parallel_answers_are_not_counted_witness :
  exists w',
    Parallel.embed_dataset UncheckedSample.env_one_short Fixture.dataset3
      "python_train_embeddings.npy" "python" ParallelSample.world0
    = Some (Returned 2, w')
    /\ Parallel.files w'
       = <["python_train_embeddings.npy"
           := UncheckedSample.one_short (Parallel.prepare Fixture.dataset3)]>
           (Parallel.files ParallelSample.world0).
Proof.
  apply (parallel_answers_are_not_counted UncheckedSample.env_one_short
           UncheckedSample.one_short Fixture.dataset3
           "python_train_embeddings.npy" "python" ParallelSample.world0).
  - intros n. unfold RateLimiter.nonneg. simpl. repeat split; lra.
  - reflexivity.
  - simpl. auto.
  - intros n batch. eexists. reflexivity.
Defined.
